(** * Walmart_webscrapper.py: a shallow embedding and its properties

    The program is a single Python module.  Its decision logic is embedded
    below function by function, with the source's names:

    - [is_bot_page]            (BotChallengeDetector)
    - [normalize_product_url]  (URLNormalizer), on a model of CPython's
                               [urllib.parse.urlsplit] / [urlunsplit]
    - [get_link]               (LinkExtractor)
    - [parse_next_data], [prod_info]  (ProductRecordExtractor)
    - [main]                   (SearchPipeline)

    Python [str] values are modelled by [string]; a character is a code
    point below 256, on which [str.lower], [str.isspace] and the NFKC check
    of [urlsplit] are as tabulated here.  The libraries the program calls
    (requests, BeautifulSoup, json, re, ipaddress) are collaborators: each
    is an interface ([Class]) the embedding is parametrised by, so every
    theorem holds for whatever these libraries return. *)

From Stdlib Require Import ZArith Ascii String PrimFloat Lia.
From stdpp Require Import base option list strings pretty gmap.

#[local] Set Warnings "-register-all".
#[local] Open Scope Z_scope.

(* ================================================================= *)
(** ** Python strings *)

Module PyStr.

(** The double quote, the apostrophe, the backslash and the line feed,
    by code point. *)
Definition dquote : ascii := "034"%char.
Definition squote : ascii := "039"%char.
Definition backslash : ascii := "092"%char.
Definition newline : ascii := "010"%char.
Definition DQ : string := String dquote "".
Definition NL : string := String newline "".

Definition len (s : string) : nat := String.length s.

(** [s[:n]] *)
Fixpoint take (n : nat) (s : string) : string :=
  match n, s with
  | S n', String c s' => String c (take n' s')
  | _, _ => ""
  end.

(** [s[n:]] *)
Fixpoint drop (n : nat) (s : string) : string :=
  match n, s with
  | S n', String _ s' => drop n' s'
  | _, _ => s
  end.

(** [s[i:j]] for [0 <= i]; empty when [j <= i]. *)
Definition slice (i j : nat) (s : string) : string := take (j - i) (drop i s).

Definition code (c : ascii) : N := N_of_ascii c.

Definition in_range (lo hi : N) (c : ascii) : bool :=
  ((lo <=? code c) && (code c <=? hi))%N.

(** [c.lower()]: A-Z, and the Latin-1 capitals U+00C0..U+00DE except the
    multiplication sign U+00D7, move up by 32. *)
Definition lower_char (c : ascii) : ascii :=
  if in_range 65 90 c || (in_range 192 222 c && negb (code c =? 215)%N)
  then ascii_of_N (code c + 32)
  else c.

Fixpoint lower (s : string) : string :=
  match s with
  | "" => ""
  | String c s' => String (lower_char c) (lower s')
  end.

(** [c.isspace()] *)
Definition isspace (c : ascii) : bool :=
  in_range 9 13 c || in_range 28 32 c || (code c =? 133)%N || (code c =? 160)%N.

(** [c.isascii() and c.isalpha()] *)
Definition is_ascii_alpha (c : ascii) : bool :=
  in_range 65 90 c || in_range 97 122 c.

Definition is_digit (c : ascii) : bool := in_range 48 57 c.

(** [s.startswith(p)] *)
Fixpoint startswith (p s : string) : bool :=
  match p, s with
  | "", _ => true
  | String a p', String b s' => Ascii.eqb a b && startswith p' s'
  | String _ _, "" => false
  end.

(** [needle in s] *)
Fixpoint contains (needle s : string) : bool :=
  startswith needle s ||
  match s with
  | "" => false
  | String _ s' => contains needle s'
  end.

(** [s.find(needle)]: [None] stands for Python's [-1]. *)
Fixpoint find (needle s : string) : option nat :=
  if startswith needle s then Some 0%nat
  else match s with
       | "" => None
       | String _ s' => S <$> find needle s'
       end.

(** [s.find(c, start)] for a one-character needle. *)
Definition find_from (c : ascii) (start : nat) (s : string) : option nat :=
  (λ i, (start + i)%nat) <$> find (String c "") (drop start s).

Fixpoint all_chars (p : ascii → bool) (s : string) : bool :=
  match s with
  | "" => true
  | String c s' => p c && all_chars p s'
  end.

Fixpoint mem_char (c : ascii) (s : string) : bool :=
  match s with
  | "" => false
  | String a s' => Ascii.eqb a c || mem_char c s'
  end.

(** [s.split(c)] for a one-character separator: never empty. *)
Fixpoint split (c : ascii) (s : string) : list string :=
  match s with
  | "" => [""]
  | String a s' =>
      if Ascii.eqb a c then "" :: split c s'
      else match split c s' with
           | [] => [String a ""]
           | w :: ws => String a w :: ws
           end
  end.

(** [s.split(c)[0]] *)
Definition split_first (c : ascii) (s : string) : string :=
  match split c s with
  | w :: _ => w
  | [] => ""
  end.

(** [s.split(c, 1)] when [c in s]: the text before and after the first [c]. *)
Fixpoint split_once (c : ascii) (s : string) : string * string :=
  match s with
  | "" => ("", "")
  | String a s' =>
      if Ascii.eqb a c then ("", s')
      else let '(l, r) := split_once c s' in (String a l, r)
  end.

(** [s.replace(a, b)] for one-character [a] and [b]. *)
Fixpoint replace_char (a b : ascii) (s : string) : string :=
  match s with
  | "" => ""
  | String c s' => String (if Ascii.eqb c a then b else c) (replace_char a b s')
  end.

(** [s.replace(a, "")] for a one-character [a]. *)
Fixpoint remove_char (a : ascii) (s : string) : string :=
  match s with
  | "" => ""
  | String c s' => if Ascii.eqb c a then remove_char a s' else String c (remove_char a s')
  end.

(** [s.lstrip(chars)], the set of characters given as a predicate. *)
Fixpoint lstrip_with (p : ascii → bool) (s : string) : string :=
  match s with
  | "" => ""
  | String c s' => if p c then lstrip_with p s' else s
  end.

Fixpoint rstrip_with (p : ascii → bool) (s : string) : string :=
  match s with
  | "" => ""
  | String c s' =>
      match rstrip_with p s' with
      | "" => if p c then "" else String c ""
      | r => String c r
      end
  end.

(** [s.strip()] *)
Definition strip (s : string) : string := rstrip_with isspace (lstrip_with isspace s).

(** The longest prefix of [s] whose characters all satisfy [p], and
    what follows it. *)
Fixpoint take_while (p : ascii → bool) (s : string) : string :=
  match s with
  | "" => ""
  | String c s' => if p c then String c (take_while p s') else ""
  end.

Fixpoint drop_while (p : ascii → bool) (s : string) : string :=
  match s with
  | "" => ""
  | String c s' => if p c then drop_while p s' else s
  end.

(** Nothing, or a first character on which [p] fails. *)
Definition stops (p : ascii → bool) (t : string) : Prop :=
  t = "" ∨ ∃ c t', t = String c t' ∧ p c = false.

(** Any character but [c]. *)
Definition isnt (c : ascii) : ascii → bool := λ a, negb (Ascii.eqb a c).

(** [n] copies of [c]. *)
Fixpoint repeat_char (c : ascii) (n : nat) : string :=
  match n with
  | O => ""
  | S n' => String c (repeat_char c n')
  end.

(** [m] occurs in [s] as a contiguous piece. *)
Definition occurs (m s : string) : Prop := ∃ pre suf, s = pre +:+ m +:+ suf.

(** [m] occurs in [s] up to letter case. *)
Definition occurs_nocase (m s : string) : Prop :=
  ∃ m', occurs m' s ∧ lower m' = lower m.

End PyStr.

(* ================================================================= *)
(** ** Exceptions and results *)

(** The exception classes the program can meet; all derive from
    [Exception], which is what its handlers catch. *)
Inductive exn :=
  | ValueError (msg : string)
  | JSONDecodeError
  | AttributeError
  | IndexError
  | KeyError (msg : string)
  | RuntimeError (msg : string)
  | RequestException (msg : string)
  | ParserRejectedMarkup (msg : string).

Inductive result (A : Type) :=
  | Ok (a : A)
  | Raise (e : exn).
Arguments Ok {A} a.
Arguments Raise {A} e.

#[global] Instance result_ret : MRet result := λ A a, Ok a.
#[global] Instance result_bind : MBind result := λ A B f m,
  match m with
  | Ok a => f a
  | Raise e => Raise e
  end.

(* ================================================================= *)
(** ** BotChallengeDetector *)

Definition BOT_CHECK_KEYWORDS : list string :=
  [ "are you a human"; "captcha"; "bot"; "please verify"; "verify you are a human";
    "recaptcha"; "Access Denied"; "unusual traffic" ].

Definition is_bot_page (html_text : string) : bool :=
  let text := PyStr.lower (PyStr.take 2000 html_text) in
  existsb (λ kw, PyStr.contains (PyStr.lower kw) text) BOT_CHECK_KEYWORDS.

(* ================================================================= *)
(** ** urllib.parse: [urlsplit] and [urlunsplit] (CPython 3.11) *)

Record SplitResult := mkSplit {
  scheme : string;
  netloc : string;
  path : string;
  query : string;
  fragment : string;
}.

(** What [urllib] takes from outside itself.  [check_bracketed_netloc] is
    [_check_bracketed_netloc], asked only for a netloc that holds both
    brackets: it rests on [ipaddress] and differs between CPython releases
    (before 3.11.4 every such netloc passes).  It answers with the message
    of the [ValueError] it raises, or with nothing when it returns. *)
Class UrlLib := {
  check_bracketed_netloc : string → option string;
}.

Module UrlParse.
Import PyStr.

Definition uses_netloc : list string :=
  [ ""; "ftp"; "http"; "gopher"; "nntp"; "telnet";
    "imap"; "wais"; "file"; "mms"; "https"; "shttp";
    "snews"; "prospero"; "rtsp"; "rtspu"; "rsync";
    "svn"; "svn+ssh"; "sftp"; "nfs"; "git"; "git+ssh";
    "ws"; "wss" ].

(** [c in scheme_chars] *)
Definition scheme_char (c : ascii) : bool :=
  is_ascii_alpha c || is_digit c || mem_char c "+-.".

(** [c in _WHATWG_C0_CONTROL_OR_SPACE] *)
Definition c0_control_or_space (c : ascii) : bool := (code c <=? 32)%N.

(** [_UNSAFE_URL_BYTES_TO_REMOVE]: tab, carriage return, line feed. *)
Definition unsafe_url_bytes : list ascii := [ "009"%char; "013"%char; "010"%char ].

Definition _splitnetloc (url : string) (start : nat) : string * string :=
  let delim :=
    foldl (λ delim c,
             match find_from c start url with
             | Some wdelim => Nat.min delim wdelim
             | None => delim
             end)
          (len url) [ "/"%char; "?"%char; "#"%char ] in
  (slice start delim url, drop delim url).

(** The scheme part of [urlsplit]: the text before the first colon is a
    scheme when it is not empty, starts with an ASCII letter and holds
    scheme characters only. *)
Definition split_scheme (url : string) : string * string :=
  match find ":" url with
  | Some i =>
      if (0 <? i)%nat
         && match url with String c _ => is_ascii_alpha c | "" => false end
         && all_chars scheme_char (take i url)
      then (lower (take i url), drop (i + 1) url)
      else ("", url)
  | None => ("", url)
  end.

Definition unbalanced_brackets (netloc : string) : bool :=
  (mem_char "[" netloc && negb (mem_char "]" netloc))
  || (mem_char "]" netloc && negb (mem_char "[" netloc)).

(** The netloc part of [urlsplit], with its two [ValueError]s. *)
Definition split_netloc `{UrlLib} (url : string) : result (string * string) :=
  if String.eqb (take 2 url) "//" then
    let '(netloc, url) := _splitnetloc url 2 in
    if unbalanced_brackets netloc then Raise (ValueError "Invalid IPv6 URL")
    else if mem_char "[" netloc && mem_char "]" netloc then
      match check_bracketed_netloc netloc with
      | Some msg => Raise (ValueError msg)
      | None => Ok (netloc, url)
      end
    else Ok (netloc, url)
  else Ok ("", url).

(** [urlsplit(url)].  Its last step, [_checknetloc], raises only when
    the NFKC form of a non-ASCII netloc holds one of [/?#@:]; no code
    point below 256 normalises to such a character, so it passes here. *)
Definition urlsplit `{UrlLib} (url : string) : result SplitResult :=
  let url := lstrip_with c0_control_or_space url in
  let url := foldl (λ u b, remove_char b u) url unsafe_url_bytes in
  let '(scheme, url) := split_scheme url in
  '(netloc, url) ← split_netloc url;
  let '(url, fragment) :=
    if mem_char "#" url then split_once "#" url else (url, "") in
  let '(url, query) :=
    if mem_char "?" url then split_once "?" url else (url, "") in
  Ok (mkSplit scheme netloc url query fragment).

Definition nonempty (s : string) : bool := negb (String.eqb s "").

(** [urlunsplit((scheme, netloc, url, query, fragment))] *)
Definition urlunsplit (c : SplitResult) : string :=
  let url := path c in
  let url :=
    if nonempty (netloc c)
       || (nonempty (scheme c)
           && bool_decide (scheme c ∈ uses_netloc)
           && negb (String.eqb (take 2 url) "//"))
    then
      let url := if nonempty url && negb (String.eqb (take 1 url) "/")
                 then "/" +:+ url else url in
      "//" +:+ netloc c +:+ url
    else url in
  let url := if nonempty (scheme c) then scheme c +:+ ":" +:+ url else url in
  let url := if nonempty (query c) then url +:+ "?" +:+ query c else url in
  let url := if nonempty (fragment c) then url +:+ "#" +:+ fragment c else url in
  url.

Definition hex_digit (n : N) : ascii :=
  ascii_of_N (if (n <? 10)%N then 48 + n else 55 + n).

Definition percent (byte : N) : string :=
  String "%" (String (hex_digit (byte / 16)) (String (hex_digit (byte mod 16)) "")).

(** [quote_plus] on one character: letters, digits and [_.-~] stay, the
    space becomes [+], anything else is the percent-escape of its UTF-8
    bytes. *)
Definition quote_plus_char (c : ascii) : string :=
  if is_ascii_alpha c || is_digit c || mem_char c "_.-~" then String c ""
  else if Ascii.eqb c " " then "+"
  else if (code c <? 128)%N then percent (code c)
  else percent (192 + code c / 64) +:+ percent (128 + code c mod 64).

Fixpoint quote_plus (s : string) : string :=
  match s with
  | "" => ""
  | String c s' => quote_plus_char c +:+ quote_plus s'
  end.

End UrlParse.

(* ================================================================= *)
(** ** URLNormalizer *)

(** [a or b] on strings. *)
Definition str_or (a b : string) : string := if String.eqb a "" then b else a.

Definition normalize_product_url `{UrlLib} (raw : string) : result string :=
  parsed ← UrlParse.urlsplit raw;
  let scheme := str_or (scheme parsed) "https" in
  let netloc := str_or (netloc parsed) "www.walmart.com" in
  let path := path parsed in
  Ok (UrlParse.urlunsplit (mkSplit scheme netloc path "" "")).

Definition get_search_url (query : string) (page : Z) : string :=
  "https://www.walmart.com/search?query=" +:+ UrlParse.quote_plus query
    +:+ "&page=" +:+ pretty page.

(** Vocabulary for the properties of the normalizer. *)
Module UrlSpec.
Import PyStr.

(** Not a tab, a carriage return or a line feed. *)
Definition safe_char (c : ascii) : bool :=
  forallb (λ b, negb (Ascii.eqb c b)) UrlParse.unsafe_url_bytes.

(** Not one of the characters that end a netloc. *)
Definition not_delim (c : ascii) : bool := negb (mem_char c "/?#").

(** Neither [?] nor [#]. *)
Definition not_qf (c : ascii) : bool := negb (mem_char c "?#").

(** The first two steps of [urlsplit]: the strip and the removals. *)
Definition clean (url : string) : string :=
  foldl (λ u b, remove_char b u)
        (lstrip_with UrlParse.c0_control_or_space url) UrlParse.unsafe_url_bytes.

(** [s] without everything from its first [?] or [#] on. *)
Definition cut_query_fragment (s : string) : string := take_while not_qf s.

(** A query string or a fragment, or nothing. *)
Definition query_fragment (s : string) : Prop := stops not_qf s.

(** [x] and [y] are one URL up to the query string and the fragment. *)
Definition same_up_to_query_fragment (x y : string) : Prop :=
  ∃ base s1 s2, x = base +:+ s1 ∧ y = base +:+ s2
                ∧ all_chars not_qf base = true
                ∧ query_fragment s1 ∧ query_fragment s2.

(** A scheme, [://], and a host that is not empty. *)
Definition absolute (u : string) : Prop :=
  ∃ sch host rest, u = sch +:+ "://" +:+ host +:+ rest
                   ∧ sch ≠ "" ∧ all_chars UrlParse.scheme_char sch = true
                   ∧ host ≠ "".

(** No [?] and no [#]: neither a query string nor a fragment. *)
Definition no_query_fragment (u : string) : Prop := all_chars not_qf u = true.

(** The shape of the three parts [normalize_product_url] puts together. *)
Definition good_scheme (sch : string) : Prop :=
  (∃ c r, sch = String c r ∧ is_ascii_alpha c = true)
  ∧ all_chars UrlParse.scheme_char sch = true
  ∧ lower sch = sch.

Definition brackets_pass `{UrlLib} (nl : string) : Prop :=
  UrlParse.unbalanced_brackets nl = false
  ∧ (mem_char "[" nl && mem_char "]" nl = true → check_bracketed_netloc nl = None).

Definition good_netloc `{UrlLib} (nl : string) : Prop :=
  nl ≠ "" ∧ all_chars not_delim nl = true ∧ all_chars safe_char nl = true
  ∧ brackets_pass nl.

Definition good_path (p : string) : Prop :=
  all_chars not_qf p = true ∧ all_chars safe_char p = true ∧ stops not_delim p.

(** [urlunsplit] puts a slash in front of a path that lacks it. *)
Definition rooted (p : string) : string :=
  if UrlParse.nonempty p && negb (String.eqb (take 1 p) "/") then "/" +:+ p else p.

(** [s] without its tabs, carriage returns and line feeds, as [urlsplit]
    removes them. *)
Definition remove_unsafe (s : string) : string :=
  foldl (λ u b, remove_char b u) s UrlParse.unsafe_url_bytes.

(** An ASCII character. *)
Definition ascii_char (c : ascii) : bool := (code c <? 128)%N.

(** A character that [quote_plus] can put out: a letter, a digit or one
    of [_.-~+%]. *)
Definition query_char (c : ascii) : bool :=
  is_ascii_alpha c || is_digit c || mem_char c "_.-~+%".

(** A character that [quote_plus] leaves as it is. *)
Definition unreserved (c : ascii) : bool :=
  is_ascii_alpha c || is_digit c || mem_char c "_.-~".

(** The value of a hexadecimal digit as [quote_plus] writes it, with
    capitals. *)
Definition hex_value (c : ascii) : option N :=
  if is_digit c then Some (code c - 48)%N
  else if in_range 65 70 c then Some (code c - 55)%N
  else None.

(** Reading [quote_plus] backwards: the first character that a quoted
    text stands for, and the rest of the text. *)
Definition unquote_first (s : string) : option (ascii * string) :=
  match s with
  | "" => None
  | String c r =>
      if Ascii.eqb c "+" then Some (" "%char, r)
      else if Ascii.eqb c "%" then
        match r with
        | String h (String l r) =>
            hi ← hex_value h;
            lo ← hex_value l;
            let b := (16 * hi + lo)%N in
            if (b <? 128)%N then Some (ascii_of_N b, r)
            else
              match r with
              | String c2 (String h2 (String l2 r2)) =>
                  hi2 ← hex_value h2;
                  lo2 ← hex_value l2;
                  if Ascii.eqb c2 "%" then
                    Some (ascii_of_N ((b - 192) * 64 + (16 * hi2 + lo2 - 128)), r2)
                  else None
              | _ => None
              end
        | _ => None
        end
      else Some (c, r)
  end.

End UrlSpec.

(* ================================================================= *)
(** ** LinkExtractor *)

(** An element as BeautifulSoup hands it out: [.string] (absent when the
    element has not exactly one text child) and [.get_text()]. *)
Record Tag := mkTag {
  tag_string : option string;
  tag_get_text : string;
}.

(** [BeautifulSoup(html, "html.parser")]: the exception with which the
    constructor refuses the markup (bs4's [ParserRejectedMarkup], which
    wraps an error of [html.parser]), if it does, and the queries the
    program puts to the parsed page. *)
Class HtmlDom := {
  (** the exception the constructor raises, or nothing when it returns *)
  soup_raises : string → option exn;
  (** [soup.find_all("a", href=True)], each anchor given by its [href],
      in document order *)
  find_all_a_href : string → list string;
  (** [soup.find("script", id=i)] *)
  find_script_id : string → string → option Tag;
  (** [soup.find_all("script", type=t)] *)
  find_all_script_type : string → string → list Tag;
}.

(** [re.findall(pattern, html)] for the one pattern of the program: an
    optional [(?:https?:)?//[^/]+] and then group 1, [/ip/] followed by one
    or more characters other than the two quotes, the backslash, white
    space, [<] and [>].  The result is group 1 of every match, left to
    right. *)
Class RegexLib := {
  findall_product_paths : string → list string;
}.

(** [try: m except Exception: h], for a handler that cannot raise. *)
Definition try_catch {A} (m : result A) (h : exn → A) : A :=
  match m with
  | Ok a => a
  | Raise e => h e
  end.

Definition WALMART : string := "https://www.walmart.com".

(** Lines 75-78 of [get_link]: the canonical URL of one anchor. *)
Definition canonical_href `{UrlLib} (href : string) : string :=
  try_catch
    (normalize_product_url
       (if PyStr.startswith "http" href then href else WALMART +:+ href))
    (λ _, WALMART +:+ PyStr.split_first "#" (PyStr.split_first "?" href)).

Definition is_product_href (href : string) : bool :=
  PyStr.contains "/ip/" href && negb (PyStr.startswith "/b/" (PyStr.lower href)).

(** Strategy 1 of [get_link]: the anchors. *)
Definition anchor_urls `{UrlLib, HtmlDom} (html : string) : list string :=
  canonical_href <$> filter (λ href, is_product_href href = true) (find_all_a_href html).

(** Strategy 2 of [get_link]: the loop over the regex matches. *)
Fixpoint regex_loop (raw_matches : list string) : list string :=
  match raw_matches with
  | [] => []
  | p :: rest =>
      let p := PyStr.split_first "#" (PyStr.split_first "?" p) in
      if negb (PyStr.startswith "/ip/" p) then regex_loop rest
      else (WALMART +:+ p) :: regex_loop rest
  end.

(** The order-preserving dedupe at the end of [get_link]. *)
Fixpoint dedupe_loop (us : list string) (seen : gset string) (deduped : list string)
  : list string :=
  match us with
  | [] => deduped
  | u :: us' =>
      if decide (u ∈ seen) then dedupe_loop us' seen deduped
      else dedupe_loop us' ({[u]} ∪ seen) (deduped ++ [u])
  end.

Definition dedupe (us : list string) : list string := dedupe_loop us ∅ [].

(** Lines 67-90: [product_urls] when both strategies have had their turn. *)
Definition product_urls `{UrlLib, HtmlDom, RegexLib} (html : string) : list string :=
  let product_urls := anchor_urls html in
  match product_urls with
  | [] => regex_loop (findall_product_paths html)
  | _ => product_urls
  end.

(** [get_link] from the parsed page on (lines 65-100). *)
Definition get_link_urls `{UrlLib, HtmlDom, RegexLib} (html : string) : list string :=
  dedupe (product_urls html).

(** Vocabulary for the properties of the dedupe: the elements of [us]
    that are not in [seen], each where it occurs first; and the place of
    the first occurrence of [u] in [us]. *)
Fixpoint first_seen (us : list string) (seen : gset string) : list string :=
  match us with
  | [] => []
  | u :: us' =>
      if decide (u ∈ seen) then first_seen us' seen
      else u :: first_seen us' ({[u]} ∪ seen)
  end.

Fixpoint index_of (u : string) (us : list string) : option nat :=
  match us with
  | [] => None
  | x :: us' => if decide (x = u) then Some 0%nat else S <$> index_of u us'
  end.

(** [session.get(url, headers=HEADERS, timeout=15)], [raise_for_status()]
    and [.text], over a world [W] that the request changes. *)
Class Session (W : Type) := {
  session_get : string → W → result string * W;
}.

Definition BOT_SEARCH_MSG : string :=
  "Request looks like a bot-check/captcha page. Try different IP / headers / manual verification.".

Definition get_link `{UrlLib, HtmlDom, RegexLib} {W} `{Session W}
    (query : string) (page_number : Z) (w : W) : result (list string) * W :=
  let url := get_search_url query page_number in
  match session_get url w with
  | (Raise e, w) => (Raise e, w)
  | (Ok html, w) =>
      if is_bot_page html then (Raise (RuntimeError BOT_SEARCH_MSG), w)
      else
        match soup_raises html with
        | Some e => (Raise e, w)
        | None => (Ok (get_link_urls html), w)
        end
  end.

(* ================================================================= *)
(** ** Python values as [json.loads] produces them *)

Inductive pyval :=
  | PNone
  | PBool (b : bool)
  | PInt (z : Z)
  | PFloat (f : float)
  | PStr (s : string)
  | PList (l : list pyval)
  | PDict (d : list (string * pyval)).

(** A [dict] with string keys, in insertion order; a key occurs once. *)
Definition pydict : Type := list (string * pyval).

(** The product record is the [dict] the program builds. *)
Definition record : Type := pydict.

(** The keys of a product record before [main] adds the URL. *)
Definition RECORD_KEYS : list string :=
  [ "name"; "price"; "availability"; "brand"; "model"; "features";
    "rating"; "review_count" ].

Module Py.

(** [bool(v)] *)
Definition truthy (v : pyval) : bool :=
  match v with
  | PNone => false
  | PBool b => b
  | PInt z => negb (z =? 0)
  | PFloat f => negb (PrimFloat.eqb f 0%float)
  | PStr s => negb (String.eqb s "")
  | PList l => match l with [] => false | _ :: _ => true end
  | PDict d => match d with [] => false | _ :: _ => true end
  end.

Fixpoint lookup (k : string) (d : pydict) : option pyval :=
  match d with
  | [] => None
  | (k', v) :: d' => if String.eqb k' k then Some v else lookup k d'
  end.

(** [k in d] *)
Definition has_key (k : string) (d : pydict) : bool :=
  match lookup k d with Some _ => true | None => false end.

(** [d[k] = v] *)
Fixpoint set (k : string) (v : pyval) (d : pydict) : pydict :=
  match d with
  | [] => [(k, v)]
  | (k', v') :: d' => if String.eqb k' k then (k, v) :: d' else (k', v') :: set k v d'
  end.

(** [v.get(k, default)]: only a [dict] has the method. *)
Definition get (v : pyval) (k : string) (default : pyval) : result pyval :=
  match v with
  | PDict d => Ok (match lookup k d with Some x => x | None => default end)
  | _ => Raise AttributeError
  end.

(** [a or b] *)
Definition por (a b : pyval) : pyval := if truthy a then a else b.

(** [a or b], [b] being a computation that can raise. *)
Definition or_else (a : pyval) (b : result pyval) : result pyval :=
  if truthy a then Ok a else b.

(** [v.lower()]: only a [str] has the method. *)
Definition lower (v : pyval) : result string :=
  match v with
  | PStr s => Ok (PyStr.lower s)
  | _ => Raise AttributeError
  end.

Definition EMPTY : pyval := PDict [].

End Py.

(* ================================================================= *)
(** ** ProductRecordExtractor *)

(** [json.loads(text)]; it raises on text that is not JSON. *)
Class JsonLib := {
  json_loads : string → result pyval;
}.

(** [tag.string or tag.get_text()] *)
Definition tag_text (t : Tag) : string :=
  match tag_string t with
  | Some s => str_or s (tag_get_text t)
  | None => tag_get_text t
  end.

(** [data.get("props", {}).get("pageProps", {}).get("initialData", {}).get("data", {})] *)
Definition initial_data_of (data : pyval) : result pyval :=
  props ← Py.get data "props" Py.EMPTY;
  pageProps ← Py.get props "pageProps" Py.EMPTY;
  initialData ← Py.get pageProps "initialData" Py.EMPTY;
  Py.get initialData "data" Py.EMPTY.

(** [product.get("priceInfo", {}).get("currentPrice", {}).get("price")] *)
Definition current_price (product : pyval) : result pyval :=
  priceInfo ← Py.get product "priceInfo" Py.EMPTY;
  currentPrice ← Py.get priceInfo "currentPrice" Py.EMPTY;
  Py.get currentPrice "price" PNone.

Definition NO_PRODUCT_MSG : string := "No 'product' key in __NEXT_DATA__ initialData".

(** Lines 109-129 of [parse_next_data], on the parsed JSON. *)
Definition next_data_info (data : pyval) : result record :=
  initial_data ← initial_data_of data;
  p ← Py.get initial_data "product" PNone;
  product ←
    (if Py.truthy p then Ok p
     else
       ps ← Py.get initial_data "products" PNone;
       if Py.truthy ps then
         match ps with
         | PList l => match l with x :: _ => Ok x | [] => Raise IndexError end
         | _ => Ok PNone
         end
       else Ok ps);
  r ← Py.get initial_data "reviews" Py.EMPTY;
  let reviews := Py.por r Py.EMPTY in
  if negb (Py.truthy product) then Raise (KeyError NO_PRODUCT_MSG)
  else
    name ← Py.get product "name" PNone;
    price ← current_price product;
    availability ← Py.get product "availabilityStatus" PNone;
    b ← Py.get product "brand" PNone;
    brand ← Py.or_else b (Py.get product "brandName" PNone);
    model ← Py.get product "modelNumber" (PStr "N/A");
    f ← Py.get product "keyProductFeatures" (PList []);
    features ← Py.or_else f (Py.get product "bulletDescriptions" (PList []));
    cr ← Py.get reviews "customerRating" (PInt 0);
    rating ← Py.or_else cr (Py.get product "rating" PNone);
    nr ← Py.get product "numReviews" (PInt 0);
    review_count ← Py.or_else nr (Py.get product "reviewCount" (PInt 0));
    Ok [ ("name", name); ("price", price); ("availability", availability);
         ("brand", brand); ("model", model); ("features", features);
         ("rating", rating); ("review_count", review_count) ].

Definition parse_next_data `{JsonLib} (script_text : string) : result record :=
  data ← json_loads script_text;
  next_data_info data.

(** Strategy 1 of [prod_info] (lines 150-158): [None] when the script is
    absent or empty, or when [parse_next_data] raises. *)
Definition next_data_strategy `{HtmlDom, JsonLib} (html : string) : option record :=
  match find_script_id html "__NEXT_DATA__" with
  | Some script_next =>
      let script_text := tag_text script_next in
      if UrlParse.nonempty script_text then
        match parse_next_data script_text with
        | Ok info => Some info
        | Raise _ => None
        end
      else None
  | None => None
  end.

(** Lines 174-204: one linked-data candidate.  [Ok None] is [continue];
    a [Raise] leaves [prod_info], no handler being around these lines. *)
Definition ld_item (item : pyval) : result (option record) :=
  match item with
  | PDict d =>
      ty ← Py.get item "@type" (PStr "");
      t ← Py.lower ty;
      if String.eqb t "product" || Py.has_key "offers" d then
        name ← Py.get item "name" PNone;
        b ← Py.get item "brand" PNone;
        brand ← match b with
                | PDict _ => Py.get b "name" PNone
                | PStr _ => Ok b
                | _ => Ok PNone
                end;
        o ← Py.get item "offers" PNone;
        let offers := Py.por o Py.EMPTY in
        '(price, availability) ←
          match offers with
          | PDict _ =>
              p ← Py.get offers "price" PNone;
              price ← Py.or_else p (Py.get offers "lowPrice" PNone);
              availability ← Py.get offers "availability" PNone;
              Ok (price, availability)
          | _ => Ok (PNone, PNone)
          end;
        a ← Py.get item "aggregateRating" PNone;
        let agg := Py.por a Py.EMPTY in
        rating ← Py.get agg "ratingValue" PNone;
        rc ← Py.get agg "reviewCount" PNone;
        review_count ← Py.or_else rc (Py.get agg "reviewCount" PNone);
        model ← Py.get item "sku" (PStr "N/A");
        features ← Py.get item "description" (PStr "");
        Ok (Some [ ("name", name); ("price", price); ("availability", availability);
                   ("brand", brand); ("model", model); ("features", features);
                   ("rating", rating); ("review_count", review_count) ])
      else Ok None
  | _ => Ok None
  end.

(** [for item in candidates] *)
Fixpoint ld_candidates (candidates : list pyval) : result (option record) :=
  match candidates with
  | [] => Ok None
  | item :: rest =>
      r ← ld_item item;
      match r with
      | Some info => Ok (Some info)
      | None => ld_candidates rest
      end
  end.

(** [for s in soup.find_all("script", type="application/ld+json")] *)
Fixpoint ld_scripts `{JsonLib} (scripts : list Tag) : result (option record) :=
  match scripts with
  | [] => Ok None
  | s :: rest =>
      let jtext := tag_text s in
      if negb (UrlParse.nonempty jtext) then ld_scripts rest
      else
        match json_loads jtext with
        | Raise _ => ld_scripts rest
        | Ok jd =>
            let candidates := match jd with PList l => l | _ => [jd] end in
            r ← ld_candidates candidates;
            match r with
            | Some info => Ok (Some info)
            | None => ld_scripts rest
            end
        end
  end.

(** Strategy 2 of [prod_info] (lines 161-204). *)
Definition ld_json_strategy `{HtmlDom, JsonLib} (html : string) : result (option record) :=
  ld_scripts (find_all_script_type html "application/ld+json").

Definition PRODUCT_MARKER : string := PyStr.DQ +:+ "product" +:+ PyStr.DQ +:+ ":".
Definition PROPS_MARKER : string := "{" +:+ PyStr.DQ +:+ "props" +:+ PyStr.DQ.
Definition SNIPPET_LIMIT : nat := Z.to_nat 500000.

(** Lines 218-233, inside the [try]. *)
Definition heuristic_info `{JsonLib} (snippet : string) : result (option record) :=
  cand ← json_loads snippet;
  initial_data ← initial_data_of cand;
  product ← Py.get initial_data "product" PNone;
  if Py.truthy product then
    name ← Py.get product "name" PNone;
    price ← current_price product;
    availability ← Py.get product "availabilityStatus" PNone;
    brand ← Py.get product "brand" PNone;
    model ← Py.get product "modelNumber" (PStr "N/A");
    features ← Py.get product "keyProductFeatures" (PList []);
    reviews ← Py.get initial_data "reviews" Py.EMPTY;
    rating ← Py.get reviews "customerRating" (PInt 0);
    review_count ← Py.get product "numReviews" (PInt 0);
    Ok (Some [ ("name", name); ("price", price); ("availability", availability);
               ("brand", brand); ("model", model); ("features", features);
               ("rating", rating); ("review_count", review_count) ])
  else Ok None.

(** Strategy 3 of [prod_info] (lines 207-235). *)
Definition heuristic_strategy `{JsonLib} (html : string) : option record :=
  if PyStr.contains PRODUCT_MARKER html then
    match PyStr.find PROPS_MARKER html with
    | Some idx =>
        let snippet := PyStr.slice idx (idx + SNIPPET_LIMIT) html in
        let snippet :=
          match PyStr.find "</script>" snippet with
          | Some end_idx => PyStr.take end_idx snippet
          | None => snippet
          end in
        try_catch (heuristic_info snippet) (λ _, None)
    | None => None
    end
  else None.

Definition NO_DATA_MSG : string :=
  "Could not locate structured product JSON on the page. Page sample: ".

(** [html[:1200].replace("\n", " ").strip()] *)
Definition page_sample (html : string) : string :=
  PyStr.strip (PyStr.replace_char PyStr.newline " " (PyStr.take 1200 html)).

(** [prod_info] from the parsed page on (lines 147-239). *)
Definition extract_record `{HtmlDom, JsonLib} (html : string) : result record :=
  match next_data_strategy html with
  | Some info => Ok info
  | None =>
      r ← ld_json_strategy html;
      match r with
      | Some info => Ok info
      | None =>
          match heuristic_strategy html with
          | Some info => Ok info
          | None => Raise (RuntimeError (NO_DATA_MSG +:+ page_sample html))
          end
      end
  end.

Definition BOT_PRODUCT_MSG : string :=
  "Product page looks like a bot-check/captcha. Manual verification required or try different IP/headers.".

Definition prod_info `{HtmlDom, JsonLib} {W} `{Session W}
    (product_url : string) (w : W) : result record * W :=
  match session_get product_url w with
  | (Raise e, w) => (Raise e, w)
  | (Ok html, w) =>
      if is_bot_page html then (Raise (RuntimeError BOT_PRODUCT_MSG), w)
      else
        match soup_raises html with
        | Some e => (Raise e, w)
        | None => (extract_record html, w)
        end
  end.

(** Vocabulary for the properties of the record extractor. *)
Module RecordSpec.

(** The framework JSON whose product data is the dictionary [d]. *)
Definition next_data_of (d : pydict) : pyval :=
  PDict [ ("props", PDict [ ("pageProps", PDict [ ("initialData",
    PDict [ ("data", PDict d) ]) ]) ]) ].

(** A linked-data script that lines 163-170 do not skip: it has text,
    and the text is JSON. *)
Definition ld_usable `{JsonLib} (s : Tag) : bool :=
  UrlParse.nonempty (tag_text s)
  && match json_loads (tag_text s) with Ok _ => true | Raise _ => false end.

(** The structure of the framework JSON that strategy 1 can read.  A
    member that has to be an object where it is present: absent counts as
    the empty object, anything else but an object does not pass. *)
Definition member_dict (k : string) (d : pydict) (f : pydict → bool) : bool :=
  match Py.lookup k d with
  | None => f []
  | Some (PDict x) => f x
  | Some _ => false
  end.

(** The product of the page data: the member [product] when it is
    truthy, and else the first element of [products] when that is a list
    with an element. *)
Definition product_of (d : pydict) : option pyval :=
  let first_of_products :=
    match Py.lookup "products" d with
    | Some (PList (x :: _)) => Some x
    | _ => None
    end in
  match Py.lookup "product" d with
  | Some p => if Py.truthy p then Some p else first_of_products
  | None => first_of_products
  end.

(** A product is an object that is not empty, whose [priceInfo] and the
    [currentPrice] in it are objects where they are present. *)
Definition product_shape (p : pyval) : bool :=
  match p with
  | PDict (kv :: rest) =>
      member_dict "priceInfo" (kv :: rest) (λ priceInfo,
        member_dict "currentPrice" priceInfo (λ _, true))
  | _ => false
  end.

(** [reviews] is absent, falsy (null among others) or an object. *)
Definition reviews_shape (d : pydict) : bool :=
  match Py.lookup "reviews" d with
  | None => true
  | Some (PDict _) => true
  | Some r => negb (Py.truthy r)
  end.

Definition data_shape (d : pydict) : bool :=
  reviews_shape d
  && match product_of d with
     | Some p => product_shape p
     | None => false
     end.

(** The whole document: an object in which [props], [pageProps],
    [initialData] and [data] are objects where they are present, the last
    with a product and reviews as above. *)
Definition next_data_shape (data : pyval) : bool :=
  match data with
  | PDict d0 =>
      member_dict "props" d0 (λ props,
        member_dict "pageProps" props (λ pageProps,
          member_dict "initialData" pageProps (λ initialData,
            member_dict "data" initialData data_shape)))
  | _ => false
  end.

End RecordSpec.

(* ================================================================= *)
(** ** SearchPipeline *)

(** What [main] prints while it works. *)
Inductive event :=
  | Searching (query : string) (max_results max_pages : Z)
  | PageFailed (page : Z) (e : exn)
  | NoUrlsFound
  | Fetching (i : Z) (total : Z) (url : string)
  | ProductFailed (e : exn).

Record Collected := mkCollected {
  collected_urls : list string;
  collected_set : gset string;
}.

(** [len(collected_urls)] *)
Definition collected_count (c : Collected) : Z :=
  Z.of_nat (length (collected_urls c)).

(** [l[:n]] for a Python integer [n]. *)
Definition py_take {A} (n : Z) (l : list A) : list A :=
  if 0 <=? n then take (Z.to_nat n) l
  else take (length l - Z.to_nat (- n)) l.

(** Lines 270-275: [for u in urls], with its [break]. *)
Fixpoint add_urls (max_results : Z) (urls : list string) (c : Collected) : Collected :=
  match urls with
  | [] => c
  | u :: rest =>
      if decide (u ∈ collected_set c) then add_urls max_results rest c
      else
        let c := mkCollected (collected_urls c ++ [u]) ({[u]} ∪ collected_set c) in
        if Z.of_nat (length (collected_urls c)) >=? max_results then c
        else add_urls max_results rest c
  end.

Section Pipeline.
Context `{UrlLib, HtmlDom, RegexLib, JsonLib} {W : Type} `{Session W}.

(** Lines 263-280: [for page in range(1, max_pages + 1)]. *)
Fixpoint page_loop (query : string) (max_results : Z) (pages : list Z)
    (c : Collected) (w : W) : Collected * list event * W :=
  match pages with
  | [] => (c, [], w)
  | page :: rest =>
      match get_link query page w with
      | (Raise e, w) => (c, [PageFailed page e], w)
      | (Ok urls, w) =>
          let c := add_urls max_results urls c in
          if Z.of_nat (length (collected_urls c)) >=? max_results then (c, [], w)
          else page_loop query max_results rest c w
      end
  end.

(** Lines 287-296: [for i, url in enumerate(..., start=1)]. *)
Fixpoint product_loop (total : Z) (i : Z) (urls : list string) (w : W)
    : list record * list event * W :=
  match urls with
  | [] => ([], [], w)
  | url :: rest =>
      let '(r, w) := prod_info url w in
      let '(results, log, w) := product_loop total (i + 1) rest w in
      match r with
      | Ok info =>
          (Py.set "url" (PStr url) info :: results, Fetching i total url :: log, w)
      | Raise e =>
          (results, Fetching i total url :: ProductFailed e :: log, w)
      end
  end.

(** [main], from the values read from the console on; the results are
    what it prints and saves ([None] when it returns before). *)
Definition main (query : string) (max_results max_pages : Z) (w : W)
    : option (list record) * list event * W :=
  if negb (UrlParse.nonempty query) then (None, [], w)
  else
    let '(c, log1, w) :=
      page_loop query max_results (seqZ 1 max_pages) (mkCollected [] ∅) w in
    match collected_urls c with
    | [] => (None, Searching query max_results max_pages :: log1 ++ [NoUrlsFound], w)
    | _ =>
        let total := Z.min max_results (Z.of_nat (length (collected_urls c))) in
        let '(results, log2, w) :=
          product_loop total 1 (py_take max_results (collected_urls c)) w in
        (Some results, Searching query max_results max_pages :: log1 ++ log2, w)
    end.

End Pipeline.

(** The number of product pages a log says were asked for. *)
Fixpoint fetch_attempts (log : list event) : nat :=
  match log with
  | [] => 0%nat
  | Fetching _ _ _ :: log' => S (fetch_attempts log')
  | _ :: log' => fetch_attempts log'
  end.

(** The number of product failures a log reports. *)
Fixpoint product_failures (log : list event) : nat :=
  match log with
  | [] => 0%nat
  | ProductFailed _ :: log' => S (product_failures log')
  | _ :: log' => product_failures log'
  end.

(* ================================================================= *)
(** ** The product-path pattern, as [re] matches it *)

Module ProductPathRe.
Import PyStr.

(** A character of the class that follows [/ip/]: neither quote, not
    the backslash, not white space, not an angle bracket. *)
Definition path_char (c : ascii) : bool :=
  negb (Ascii.eqb c dquote || Ascii.eqb c squote || Ascii.eqb c backslash
        || isspace c || Ascii.eqb c "<" || Ascii.eqb c ">").

Definition not_slash (c : ascii) : bool := negb (Ascii.eqb c "/").

(** Group 1 at the head of [s]: [/ip/] and the longest run of class
    characters, which must not be empty. *)
Definition group1 (s : string) : option string :=
  if startswith "/ip/" s then
    let run := take_while path_char (drop 4 s) in
    if UrlParse.nonempty run then Some ("/ip/" +:+ run) else None
  else None.

(** The optional part at the head of [s], by its length: an optional
    [http:] or [https:], two slashes, and the longest run of characters
    other than the slash, which must not be empty (a shorter run is
    followed by a character that is not a slash, so that group 1 cannot
    start there). *)
Definition host_part (s : string) : option nat :=
  let n := if startswith "https:" s then 6%nat
           else if startswith "http:" s then 5%nat else 0%nat in
  let s' := drop n s in
  if startswith "//" s' then
    let host := take_while not_slash (drop 2 s') in
    if UrlParse.nonempty host then Some (n + 2 + len host)%nat else None
  else None.

(** A match at the head of [s]: group 1 and the length of the match.
    The optional part is tried first, then left out. *)
Definition match_at (s : string) : option (string * nat) :=
  let with_host :=
    match host_part s with
    | Some k => (λ g, (g, (k + len g)%nat)) <$> group1 (drop k s)
    | None => None
    end in
  match with_host with
  | Some m => Some m
  | None => (λ g, (g, len g)) <$> group1 s
  end.

(** [re.findall]: scan left to right, resuming after each match;
    [skip] counts the characters of the last match still to pass. *)
Fixpoint findall_from (skip : nat) (s : string) : list string :=
  match s with
  | "" => []
  | String _ s' =>
      match skip with
      | S k => findall_from k s'
      | O =>
          match match_at s with
          | Some (g, n) => g :: findall_from (n - 1) s'
          | None => findall_from 0 s'
          end
      end
  end.

Definition findall (s : string) : list string := findall_from 0 s.

End ProductPathRe.

(** Python's [re] on the program's pattern. *)
Definition python_re : RegexLib := {| findall_product_paths := ProductPathRe.findall |}.

(* ================================================================= *)
(** ** Test doubles for the collaborators *)

Module Fixtures.

(** [urllib] of a CPython that accepts every bracketed host. *)
Definition urllib : UrlLib := {| check_bracketed_netloc := λ _, None |}.

(** What a parser found in one page: the [href]s of its anchors, and
    its scripts with their [id] and [type] attributes. *)
Record Page := mkPage {
  page_anchors : list string;
  page_scripts : list (string * string * Tag);
}.

Definition no_page : Page := mkPage [] [].

Fixpoint page_of (html : string) (pages : list (string * Page)) : Page :=
  match pages with
  | [] => no_page
  | (h, p) :: rest => if String.eqb h html then p else page_of html rest
  end.

Fixpoint scripts_with (key : string * string * Tag → string) (v : string)
    (l : list (string * string * Tag)) : list Tag :=
  match l with
  | [] => []
  | x :: rest =>
      if String.eqb (key x) v then x.2 :: scripts_with key v rest
      else scripts_with key v rest
  end.

(** A parser that knows the listed pages and finds nothing elsewhere. *)
Definition dom (pages : list (string * Page)) : HtmlDom := {|
  soup_raises _ := None;
  find_all_a_href html := page_anchors (page_of html pages);
  find_script_id html i :=
    head (scripts_with (λ x, x.1.1) i (page_scripts (page_of html pages)));
  find_all_script_type html t :=
    scripts_with (λ x, x.1.2) t (page_scripts (page_of html pages));
|}.

Fixpoint doc_of (text : string) (docs : list (string * pyval)) : result pyval :=
  match docs with
  | [] => Raise JSONDecodeError
  | (t, v) :: rest => if String.eqb t text then Ok v else doc_of text rest
  end.

(** A JSON decoder that knows the listed texts and rejects the rest. *)
Definition json (docs : list (string * pyval)) : JsonLib := {|
  json_loads text := doc_of text docs;
|}.

Fixpoint response_of (url : string) (site : list (string * result string))
    : result string :=
  match site with
  | [] => Raise (RequestException "404 Client Error")
  | (u, r) :: rest => if String.eqb u url then r else response_of url rest
  end.

(** A network that serves the listed URLs; the world is the list of the
    requests made so far. *)
Definition session (site : list (string * result string)) : Session (list string) := {|
  session_get url w := (response_of url site, w ++ [url]);
|}.

(** JSON text written with apostrophes for its double quotes. *)
Definition js (s : string) : string := PyStr.replace_char "'" PyStr.dquote s.

Definition script (text : string) : Tag := mkTag (Some text) text.

(** A search page with anchors (one of them a category link, two of
    them the same product) and with a product path in a script. *)
Definition page_with_anchors : string :=
  "<a href='/ip/Phone-15/123?athbdg=L1600'>Phone</a><a href='/b/phones/ip/9'>Phones</a>"
  +:+ "<a href='/ip/Phone-15/123#reviews'>Reviews</a>"
  +:+ "<a href='https://www.walmart.com/ip/Case/77'>Case</a>"
  +:+ "<script>{'canonicalUrl':'/ip/Hidden/5'}</script>".

(** A search page rendered on the client: no anchor, the product paths
    are in a script only. *)
Definition page_without_anchors : string :=
  "<script>{'items':[{'canonicalUrl':'/ip/Hidden/5?x=1'},"
  +:+ "{'url':'https://www.walmart.com/ip/Other/6'},{'u':'/ip/Hidden/5'}]}</script>".

Definition search_dom : HtmlDom :=
  dom [ (page_with_anchors,
         mkPage [ "/ip/Phone-15/123?athbdg=L1600"; "/b/phones/ip/9";
                  "/ip/Phone-15/123#reviews"; "https://www.walmart.com/ip/Case/77" ]
                []) ].

(** The framework JSON of a product page, as text and as [json.loads]
    reads it. *)
Definition next_data_text : string :=
  js ("{'props':{'pageProps':{'initialData':{'data':{'product':{'name':'Phone 15',"
      +:+ "'priceInfo':{'currentPrice':{'price':799}},'availabilityStatus':'IN_STOCK',"
      +:+ "'brand':'Acme','modelNumber':'A15','keyProductFeatures':['5G'],'numReviews':12},"
      +:+ "'reviews':{'customerRating':4.5}}}}}}").

Definition next_data_value : pyval :=
  PDict [ ("props", PDict [ ("pageProps", PDict [ ("initialData", PDict [ ("data",
    PDict [ ("product",
             PDict [ ("name", PStr "Phone 15");
                     ("priceInfo", PDict [ ("currentPrice", PDict [ ("price", PInt 799) ]) ]);
                     ("availabilityStatus", PStr "IN_STOCK");
                     ("brand", PStr "Acme");
                     ("modelNumber", PStr "A15");
                     ("keyProductFeatures", PList [ PStr "5G" ]);
                     ("numReviews", PInt 12) ]);
            ("reviews", PDict [ ("customerRating", PFloat 4.5%float) ]) ]) ]) ]) ]) ].

(** Linked data for the same product, with a name of its own. *)
Definition ld_text : string :=
  js ("{'@context':'https://schema.org','@type':'Product','name':'Phone 15 (linked data)',"
      +:+ "'sku':'SKU-15','offers':{'@type':'Offer','price':'799.00'},"
      +:+ "'aggregateRating':{'ratingValue':4.25,'reviewCount':10}}").

Definition ld_value : pyval :=
  PDict [ ("@context", PStr "https://schema.org");
          ("@type", PStr "Product");
          ("name", PStr "Phone 15 (linked data)");
          ("sku", PStr "SKU-15");
          ("offers", PDict [ ("@type", PStr "Offer"); ("price", PStr "799.00") ]);
          ("aggregateRating", PDict [ ("ratingValue", PFloat 4.25%float);
                                      ("reviewCount", PInt 10) ]) ].

(** Linked data and framework JSON that name the product and say nothing
    of its reviews. *)
Definition ld_bare_text : string := js "{'@type':'Product','name':'Widget'}".
Definition ld_bare_value : pyval :=
  PDict [ ("@type", PStr "Product"); ("name", PStr "Widget") ].

Definition next_bare_text : string :=
  js "{'props':{'pageProps':{'initialData':{'data':{'product':{'name':'Widget'}}}}}}".
Definition next_bare_value : pyval :=
  PDict [ ("props", PDict [ ("pageProps", PDict [ ("initialData", PDict [ ("data",
    PDict [ ("product", PDict [ ("name", PStr "Widget") ]) ]) ]) ]) ]) ].

Definition next_data_script (text : string) : string :=
  "<script id='__NEXT_DATA__' type='application/json'>" +:+ text +:+ "</script>".
Definition ld_script (text : string) : string :=
  "<script type='application/ld+json'>" +:+ text +:+ "</script>".

Definition page_both : string :=
  "<html><head>" +:+ next_data_script next_data_text +:+ ld_script ld_text
  +:+ "</head><body>Phone 15</body></html>".
Definition page_ld_bare : string :=
  "<html><head>" +:+ ld_script ld_bare_text +:+ "</head><body>Widget</body></html>".
Definition page_next_bare : string :=
  "<html><head>" +:+ next_data_script next_bare_text +:+ "</head><body>Widget</body></html>".

(** A page without structured data, its text in two lines; a page that
    mentions a product object outside the framework JSON; a page of
    white space. *)
Definition page_plain : string :=
  "  <html>" +:+ PyStr.NL +:+ "<body>Sold out</body></html>" +:+ PyStr.NL.
Definition page_marker_only : string :=
  js "<script>window.__STATE__ = {'product': {'name': 'Widget'}}</script>".
Definition page_blank : string := " ".

Definition next_data_tag (text : string) : string * string * Tag :=
  ("__NEXT_DATA__", "application/json", script text).
Definition ld_tag (text : string) : string * string * Tag :=
  ("", "application/ld+json", script text).

Definition product_dom : HtmlDom :=
  dom [ (page_both, mkPage [] [ next_data_tag next_data_text; ld_tag ld_text ]);
        (page_ld_bare, mkPage [] [ ld_tag ld_bare_text ]);
        (page_next_bare, mkPage [] [ next_data_tag next_bare_text ]);
        (page_marker_only,
         mkPage [] [ ("", "", script (js "window.__STATE__ = {'product': {'name': 'Widget'}}")) ]) ].

(** The same pages seen by a parser that misses the linked-data scripts. *)
Definition product_dom_no_ld : HtmlDom :=
  dom [ (page_both, mkPage [] [ next_data_tag next_data_text ]) ].

Definition product_json : JsonLib :=
  json [ (next_data_text, next_data_value); (ld_text, ld_value);
         (ld_bare_text, ld_bare_value); (next_bare_text, next_bare_value) ].

(** A decoder that reads the framework JSON of [page_both] out of any
    text. *)
Definition eager_json : JsonLib := {| json_loads _ := Ok next_data_value |}.

(** Linked data whose type is a list, as JSON-LD allows. *)
Definition ld_typed_list_text : string := js "{'@type':['Product','Thing'],'name':'Widget'}".
Definition ld_typed_list_value : pyval :=
  PDict [ ("@type", PList [ PStr "Product"; PStr "Thing" ]); ("name", PStr "Widget") ].
Definition page_ld_typed_list : string :=
  "<html><head>" +:+ ld_script ld_typed_list_text +:+ "</head><body>Widget</body></html>".
Definition typed_list_dom : HtmlDom :=
  dom [ (page_ld_typed_list, mkPage [] [ ld_tag ld_typed_list_text ]) ].
Definition typed_list_json : JsonLib := json [ (ld_typed_list_text, ld_typed_list_value) ].

(** A shop whose first search page is [page_with_anchors] and which has
    no second one; of the two products found, one has a page with
    structured data and the other a page without. *)
Definition shop : Session (list string) :=
  session [ (get_search_url "phone" 1, Ok page_with_anchors);
            ("https://www.walmart.com/ip/Phone-15/123", Ok page_both);
            ("https://www.walmart.com/ip/Case/77", Ok page_plain) ].

Definition shop_dom : HtmlDom :=
  dom [ (page_with_anchors,
         mkPage [ "/ip/Phone-15/123?athbdg=L1600"; "/b/phones/ip/9";
                  "/ip/Phone-15/123#reviews"; "https://www.walmart.com/ip/Case/77" ]
                []);
        (page_both, mkPage [] [ next_data_tag next_data_text; ld_tag ld_text ]) ].

(** The record and the log of [main] in that shop, for the query
    "phone" with the default budgets. *)
Definition shop_record : record :=
  [ ("name", PStr "Phone 15"); ("price", PInt 799);
    ("availability", PStr "IN_STOCK"); ("brand", PStr "Acme");
    ("model", PStr "A15"); ("features", PList [ PStr "5G" ]);
    ("rating", PFloat 4.5%float); ("review_count", PInt 12);
    ("url", PStr "https://www.walmart.com/ip/Phone-15/123") ].

Definition shop_log : list event :=
  [ Searching "phone" 12 6;
    PageFailed 2 (RequestException "404 Client Error");
    Fetching 1 2 "https://www.walmart.com/ip/Phone-15/123";
    Fetching 2 2 "https://www.walmart.com/ip/Case/77";
    ProductFailed (RuntimeError (NO_DATA_MSG +:+ "<html> <body>Sold out</body></html>")) ].

Definition shop_requests : list string :=
  [ "https://www.walmart.com/search?query=phone&page=1";
    "https://www.walmart.com/search?query=phone&page=2";
    "https://www.walmart.com/ip/Phone-15/123";
    "https://www.walmart.com/ip/Case/77" ].

(** A challenge banner in mixed case. *)
Definition challenge_banner : string := "<h1>PLEASE Verify You Are A Human</h1>".

(** Framework JSON that lists its products, and framework JSON without
    product data. *)
Definition next_products_text : string :=
  js "{'props':{'pageProps':{'initialData':{'data':{'products':[{'name':'Widget'}]}}}}}".
Definition next_products_data : pydict :=
  [ ("products", PList [ PDict [ ("name", PStr "Widget") ] ]) ].
Definition next_empty_text : string := js "{'props':{}}".
Definition next_empty_value : pyval := PDict [ ("props", PDict []) ].

Definition more_json : JsonLib :=
  json [ (next_products_text, RecordSpec.next_data_of next_products_data);
         (next_empty_text, next_empty_value);
         (ld_text, ld_value) ].

(** The scripts of a page whose first linked-data script is empty and
    whose second is not JSON. *)
Definition ld_tags_with_noise : list Tag :=
  [ script ""; script "<!-- tracking -->"; script ld_text ].

(** A product page with framework JSON whose [priceInfo] is null, and
    with the linked data of [page_both]. *)
Definition next_null_price_text : string :=
  js ("{'props':{'pageProps':{'initialData':{'data':{'product':{'name':'Phone 15',"
      +:+ "'priceInfo':null,'availabilityStatus':'OUT_OF_STOCK','brand':'Acme'}}}}}}").
Definition next_null_price_value : pyval :=
  RecordSpec.next_data_of
    [ ("product",
       PDict [ ("name", PStr "Phone 15"); ("priceInfo", PNone);
               ("availabilityStatus", PStr "OUT_OF_STOCK"); ("brand", PStr "Acme") ]) ].
Definition page_null_price : string :=
  "<html><head>" +:+ next_data_script next_null_price_text +:+ ld_script ld_text
  +:+ "</head><body>Phone 15</body></html>".
Definition null_price_dom : HtmlDom :=
  dom [ (page_null_price,
         mkPage [] [ next_data_tag next_null_price_text; ld_tag ld_text ]) ].
Definition null_price_json : JsonLib :=
  json [ (next_null_price_text, next_null_price_value); (ld_text, ld_value) ].

(** Markup that [html.parser] refuses, a parser that is as strict, and
    a shop that serves the page. *)
Definition page_rejected : string := "<![x]>".
Definition rejected_markup : exn :=
  ParserRejectedMarkup "unknown status keyword 'x' in marked section".
Definition strict_dom : HtmlDom := {|
  soup_raises html := if String.eqb html page_rejected then Some rejected_markup else None;
  find_all_a_href _ := [];
  find_script_id _ _ := None;
  find_all_script_type _ _ := [];
|}.
Definition strict_shop : Session (list string) :=
  session [ ("https://www.walmart.com/ip/Odd/9", Ok page_rejected) ].

(** A product page whose title holds the letters of a keyword inside a
    word, and a shop that serves it. *)
Definition page_robot : string :=
  "<html><head><title>Robot Vacuum</title>" +:+ next_data_script next_bare_text
  +:+ "</head><body>Widget</body></html>".
Definition robot_shop : Session (list string) :=
  session [ ("https://www.walmart.com/ip/Robot-Vacuum/42", Ok page_robot) ].

End Fixtures.

(* ================================================================= *)
(** * Properties *)

(** ** Facts about Python strings *)

Module PyStrFacts.
Import PyStr.

Lemma app_nil_l (s : string) : "" +:+ s = s.
Proof. reflexivity. Qed.

Lemma app_cons (c : ascii) (s t : string) : String c s +:+ t = String c (s +:+ t).
Proof. reflexivity. Qed.

Lemma app_nil_r (s : string) : s +:+ "" = s.
Proof. induction s as [|c s IH]; [reflexivity|]. by rewrite app_cons, IH. Qed.

Lemma app_assoc (s t u : string) : (s +:+ t) +:+ u = s +:+ t +:+ u.
Proof. induction s as [|c s IH]; [reflexivity|]. by rewrite !app_cons, IH. Qed.

Lemma len_app (s t : string) : len (s +:+ t) = (len s + len t)%nat.
Proof. induction s as [|c s IH]; [reflexivity|]. rewrite app_cons. simpl. by rewrite IH. Qed.

Lemma app_eq_nil (s t : string) : s +:+ t = "" → s = "" ∧ t = "".
Proof. destruct s; [rewrite app_nil_l; auto | rewrite app_cons; discriminate]. Qed.

Lemma ascii_eqb_true (a b : ascii) : Ascii.eqb a b = true ↔ a = b.
Proof. apply Ascii.eqb_eq. Qed.

Lemma ascii_eqb_false (a b : ascii) : Ascii.eqb a b = false ↔ a ≠ b.
Proof. apply Ascii.eqb_neq. Qed.

(** *** take and drop *)

Lemma take_drop (n : nat) (s : string) : take n s +:+ drop n s = s.
Proof.
  revert s; induction n as [|n IH]; intros [|c s]; simpl; try reflexivity.
  by rewrite app_cons, IH.
Qed.

Lemma len_take (n : nat) (s : string) : len (take n s) = Nat.min n (len s).
Proof.
  revert s; induction n as [|n IH]; intros [|c s]; simpl; try reflexivity.
  by rewrite IH.
Qed.

Lemma len_take_le (n : nat) (s : string) : (len (take n s) ≤ n)%nat.
Proof. rewrite len_take. lia. Qed.

Lemma take_app_len (s t : string) : take (len s) (s +:+ t) = s.
Proof. induction s as [|c s IH]; [by destruct t|]. rewrite app_cons. simpl. by rewrite IH. Qed.

Lemma drop_app_len (s t : string) : drop (len s) (s +:+ t) = t.
Proof. induction s as [|c s IH]; [by destruct t|]. by rewrite app_cons. Qed.

Lemma take_all (n : nat) (s : string) : (len s ≤ n)%nat → take n s = s.
Proof.
  revert s; induction n as [|n IH]; intros [|c s]; simpl; intros Hn;
    try reflexivity; [lia|]. rewrite IH; [done|lia].
Qed.

Lemma take_app_le (n : nat) (s t : string) :
  (n ≤ len s)%nat → take n (s +:+ t) = take n s.
Proof.
  revert s; induction n as [|n IH]; intros [|c s]; simpl; intros Hn;
    try reflexivity; try lia.
  rewrite IH; [done|lia].
Qed.

Lemma drop_app_le (n : nat) (s t : string) :
  (n ≤ len s)%nat → drop n (s +:+ t) = drop n s +:+ t.
Proof.
  revert s; induction n as [|n IH]; intros [|c s]; simpl; intros Hn;
    try reflexivity; try lia.
  apply IH. lia.
Qed.

(** *** lower *)

Lemma lower_app (s t : string) : lower (s +:+ t) = lower s +:+ lower t.
Proof. induction s as [|c s IH]; [reflexivity|]. rewrite app_cons. simpl. by rewrite IH, app_cons. Qed.

Lemma len_lower (s : string) : len (lower s) = len s.
Proof. induction s as [|c s IH]; [reflexivity|]. simpl. by rewrite IH. Qed.

Lemma lower_char_idemp (c : ascii) : lower_char (lower_char c) = lower_char c.
Proof. destruct c as [[] [] [] [] [] [] [] []]; reflexivity. Qed.

Lemma lower_idemp (s : string) : lower (lower s) = lower s.
Proof. induction s as [|c s IH]; [reflexivity|]. simpl. by rewrite lower_char_idemp, IH. Qed.

(** A split of [lower t] comes from a split of [t]. *)
Lemma lower_eq_app (t a b : string) :
  lower t = a +:+ b → ∃ a' b', t = a' +:+ b' ∧ lower a' = a ∧ lower b' = b.
Proof.
  revert t; induction a as [|c a IH]; intros t Ht.
  - exists "", t. rewrite app_nil_l in Ht. by rewrite app_nil_l.
  - destruct t as [|d t]; [discriminate|].
    rewrite app_cons in Ht. simpl in Ht. injection Ht as Hc Ht.
    destruct (IH _ Ht) as (a' & b' & -> & <- & <-).
    exists (String d a'), b'. by rewrite app_cons, <- Hc.
Qed.

(** *** startswith, contains, find *)

Lemma startswith_spec (p s : string) : startswith p s = true ↔ ∃ r, s = p +:+ r.
Proof.
  revert s; induction p as [|a p IH]; intros s; simpl.
  - split; [exists s; reflexivity | done].
  - destruct s as [|b s].
    + split; [done | intros [r Hr]; rewrite app_cons in Hr; discriminate].
    + rewrite andb_true_iff, ascii_eqb_true, IH. split.
      * intros [-> [r ->]]. exists r. by rewrite app_cons.
      * intros [r Hr]. rewrite app_cons in Hr. injection Hr as -> ->. eauto.
Qed.

Lemma contains_spec (m s : string) : contains m s = true ↔ occurs m s.
Proof.
  unfold occurs. induction s as [|c s IH].
  - simpl. rewrite orb_false_r, startswith_spec. split.
    + intros [r Hr]. exists "", r. by rewrite app_nil_l.
    + intros (pre & suf & H). symmetry in H.
      apply app_eq_nil in H as [-> [-> ->]%app_eq_nil]. by exists "".
  - simpl. rewrite orb_true_iff, startswith_spec, IH. split.
    + intros [[r Hr] | (pre & suf & ->)].
      * exists "", r. by rewrite app_nil_l.
      * exists (String c pre), suf. by rewrite app_cons.
    + intros (pre & suf & H). destruct pre as [|d pre].
      * left. exists suf. by rewrite app_nil_l in H.
      * right. rewrite app_cons in H. injection H as -> ->. eauto.
Qed.

Lemma find_none (m s : string) : find m s = None ↔ contains m s = false.
Proof.
  induction s as [|c s IH]; simpl.
  - destruct (startswith m ""); simpl; split; congruence.
  - destruct (startswith m (String c s)); simpl; [split; congruence|].
    rewrite <- IH. destruct (find m s); simpl; split; congruence.
Qed.

Lemma occurs_nocase_contains (m s : string) :
  occurs_nocase m s ↔ contains (lower m) (lower s) = true.
Proof.
  rewrite contains_spec. unfold occurs_nocase, occurs. split.
  - intros (m' & (pre & suf & ->) & Hm).
    exists (lower pre), (lower suf). by rewrite !lower_app, Hm.
  - intros (pre & suf & H).
    apply lower_eq_app in H as (p' & r' & -> & Hp & H).
    apply lower_eq_app in H as (m' & s' & -> & Hm & Hs).
    exists m'. split; [by exists p', s' | done].
Qed.

(** *** all_chars *)

Lemma all_chars_app (p : ascii → bool) (s t : string) :
  all_chars p (s +:+ t) = all_chars p s && all_chars p t.
Proof. induction s as [|c s IH]; [reflexivity|]. simpl. by rewrite IH, andb_assoc. Qed.

Lemma all_chars_impl (p q : ascii → bool) (s : string) :
  (∀ c, p c = true → q c = true) → all_chars p s = true → all_chars q s = true.
Proof.
  intros Hpq. induction s as [|c s IH]; [done|]. simpl.
  rewrite !andb_true_iff. intros [? ?]. auto.
Qed.

Lemma all_chars_take (p : ascii → bool) (n : nat) (s : string) :
  all_chars p s = true → all_chars p (take n s) = true.
Proof.
  revert s; induction n as [|n IH]; intros [|c s]; simpl; try done.
  rewrite !andb_true_iff. intros [? ?]. auto.
Qed.

Lemma all_chars_drop (p : ascii → bool) (n : nat) (s : string) :
  all_chars p s = true → all_chars p (drop n s) = true.
Proof.
  revert s; induction n as [|n IH]; intros [|c s]; simpl; try done.
  rewrite !andb_true_iff. intros [? ?]. auto.
Qed.

Lemma all_chars_lower (p : ascii → bool) (s : string) :
  (∀ c, p c = true → p (lower_char c) = true) →
  all_chars p s = true → all_chars p (lower s) = true.
Proof.
  intros Hp. induction s as [|c s IH]; [done|]. simpl.
  rewrite !andb_true_iff. intros [? ?]. auto.
Qed.

Lemma all_chars_remove_char (p : ascii → bool) (a : ascii) (s : string) :
  all_chars p s = true → all_chars p (remove_char a s) = true.
Proof.
  induction s as [|c s IH]; [done|]. simpl. rewrite andb_true_iff. intros [? ?].
  destruct (Ascii.eqb c a); simpl; auto. rewrite andb_true_iff. auto.
Qed.

Lemma all_chars_removed (a : ascii) (s : string) :
  all_chars (λ c, negb (Ascii.eqb c a)) (remove_char a s) = true.
Proof.
  induction s as [|c s IH]; [done|]. simpl.
  destruct (Ascii.eqb c a) eqn:E; simpl; [done|]. by rewrite E.
Qed.

Lemma remove_char_id (a : ascii) (s : string) :
  all_chars (λ c, negb (Ascii.eqb c a)) s = true → remove_char a s = s.
Proof.
  induction s as [|c s IH]; [done|]. simpl. rewrite andb_true_iff. intros [Hc ?].
  destruct (Ascii.eqb c a); [done|]. by rewrite IH.
Qed.

Lemma remove_char_app (a : ascii) (s t : string) :
  remove_char a (s +:+ t) = remove_char a s +:+ remove_char a t.
Proof.
  induction s as [|c s IH]; [reflexivity|]. simpl.
  destruct (Ascii.eqb c a); [done|]. by rewrite IH.
Qed.

Lemma all_chars_lstrip (p q : ascii → bool) (s : string) :
  all_chars p s = true → all_chars p (lstrip_with q s) = true.
Proof.
  induction s as [|c s IH]; [done|]. simpl. intros H.
  destruct (q c); [|done]. apply andb_true_iff in H as [? ?]. auto.
Qed.

Lemma all_chars_not_mem (c : ascii) (s : string) :
  all_chars (λ a, negb (Ascii.eqb a c)) s = negb (mem_char c s).
Proof.
  induction s as [|a s IH]; [reflexivity|]. simpl. by rewrite IH, negb_orb.
Qed.

(** *** take_while and drop_while *)

Lemma take_drop_while (p : ascii → bool) (s : string) :
  take_while p s +:+ drop_while p s = s.
Proof.
  induction s as [|c s IH]; [reflexivity|]. simpl.
  destruct (p c); [|reflexivity]. by rewrite app_cons, IH.
Qed.

Lemma all_chars_take_while (p : ascii → bool) (s : string) :
  all_chars p (take_while p s) = true.
Proof.
  induction s as [|c s IH]; [reflexivity|]. simpl.
  destruct (p c) eqn:E; [|reflexivity]. simpl. by rewrite E.
Qed.

Lemma all_chars_take_while_other (p q : ascii → bool) (s : string) :
  all_chars q s = true → all_chars q (take_while p s) = true.
Proof.
  induction s as [|c s IH]; [done|]. simpl. rewrite andb_true_iff. intros [? ?].
  destruct (p c); [|done]. simpl. rewrite andb_true_iff. auto.
Qed.

Lemma all_chars_drop_while (p q : ascii → bool) (s : string) :
  all_chars q s = true → all_chars q (drop_while p s) = true.
Proof.
  induction s as [|c s IH]; [done|]. simpl. intros H.
  destruct (p c); [|done]. apply andb_true_iff in H as [? ?]. auto.
Qed.

Lemma drop_while_stops (p : ascii → bool) (s : string) : stops p (drop_while p s).
Proof.
  induction s as [|c s IH]; [by left|]. simpl.
  destruct (p c) eqn:E; [done|]. right. eauto.
Qed.

Lemma take_while_app (p : ascii → bool) (a t : string) :
  stops p t → take_while p (a +:+ t) = take_while p a.
Proof.
  intros Ht. induction a as [|c a IH]; simpl.
  - destruct Ht as [-> | (c & t' & -> & Hc)]; [done|]. simpl. by rewrite Hc.
  - destruct (p c); [|done]. by rewrite IH.
Qed.

Lemma drop_while_app (p : ascii → bool) (a t : string) :
  stops p t → drop_while p (a +:+ t) = drop_while p a +:+ t.
Proof.
  intros Ht. induction a as [|c a IH]; simpl.
  - destruct Ht as [-> | (c & t' & -> & Hc)]; [done|]. simpl. by rewrite Hc.
  - destruct (p c); [|done]. by rewrite IH.
Qed.

Lemma take_while_all (p : ascii → bool) (s : string) :
  all_chars p s = true → take_while p s = s.
Proof.
  induction s as [|c s IH]; [done|]. simpl. rewrite andb_true_iff. intros [-> ?].
  by rewrite IH.
Qed.

Lemma take_while_prefix (p : ascii → bool) (a t : string) :
  all_chars p a = true → stops p t → take_while p (a +:+ t) = a.
Proof. intros Ha Ht. by rewrite take_while_app, take_while_all. Qed.

Lemma drop_while_prefix (p : ascii → bool) (a t : string) :
  all_chars p a = true → stops p t → drop_while p (a +:+ t) = t.
Proof.
  intros Ha Ht. pose proof (take_drop_while p (a +:+ t)) as H.
  rewrite take_while_prefix in H by done. by apply (inj (String.app a)) in H.
Qed.

Lemma take_len_take_while (p : ascii → bool) (s : string) :
  take (len (take_while p s)) s = take_while p s.
Proof.
  rewrite <- (take_drop_while p s) at 2. apply take_app_len.
Qed.

Lemma drop_len_take_while (p : ascii → bool) (s : string) :
  drop (len (take_while p s)) s = drop_while p s.
Proof.
  rewrite <- (take_drop_while p s) at 2. apply drop_app_len.
Qed.

Lemma len_take_while_le (p : ascii → bool) (s : string) :
  (len (take_while p s) ≤ len s)%nat.
Proof. rewrite <- (take_drop_while p s) at 2. rewrite len_app. lia. Qed.

Lemma take_while_ext (p q : ascii → bool) (s : string) :
  (∀ c, p c = q c) → take_while p s = take_while q s.
Proof. intros E. induction s as [|c s IH]; [done|]. simpl. by rewrite E, IH. Qed.

Lemma take_while_take_while (p q : ascii → bool) (s : string) :
  take_while p (take_while q s) = take_while (λ c, q c && p c) s.
Proof.
  induction s as [|c s IH]; [done|]. simpl.
  destruct (q c); simpl; [|done]. destruct (p c); [|done]. by rewrite IH.
Qed.

(** [len (take_while p s)] is the least of the two for a conjunction. *)
Lemma len_take_while_and (p q : ascii → bool) (s : string) :
  len (take_while (λ c, p c && q c) s)
  = Nat.min (len (take_while p s)) (len (take_while q s)).
Proof.
  induction s as [|c s IH]; [done|]. simpl.
  destruct (p c), (q c); simpl; try done. by rewrite IH.
Qed.

(** *** one-character needles *)

Lemma find_char (c : ascii) (s : string) :
  find (String c "") s
  = if mem_char c s then Some (len (take_while (isnt c) s)) else None.
Proof.
  induction s as [|a s IH]; [reflexivity|].
  cbn [find startswith mem_char take_while]. unfold isnt at 1.
  rewrite (Ascii.eqb_sym c a), andb_true_r.
  destruct (Ascii.eqb a c); simpl; [done|].
  rewrite IH. by destruct (mem_char c s).
Qed.

(** The index [s.find(c)], read as the whole length when [c] is absent. *)
Lemma find_char_or_len (c : ascii) (s : string) :
  default (len s) (find (String c "") s) = len (take_while (isnt c) s).
Proof.
  rewrite find_char. destruct (mem_char c s) eqn:E; [done|]. simpl.
  rewrite take_while_all; [done|]. unfold isnt. by rewrite all_chars_not_mem, E.
Qed.

Lemma split_hd (c : ascii) (s : string) :
  ∃ ws, split c s = take_while (isnt c) s :: ws.
Proof.
  induction s as [|a s [ws IH]]; [by exists []|]. simpl. unfold isnt at 1.
  destruct (Ascii.eqb a c); simpl; [eauto|]. rewrite IH. eauto.
Qed.

Lemma split_first_spec (c : ascii) (s : string) :
  split_first c s = take_while (isnt c) s.
Proof. unfold split_first. by destruct (split_hd c s) as [ws ->]. Qed.

Lemma split_once_fst (c : ascii) (s : string) :
  (split_once c s).1 = take_while (isnt c) s.
Proof.
  induction s as [|a s IH]; [done|]. simpl. unfold isnt at 1.
  destruct (Ascii.eqb a c); simpl; [done|].
  destruct (split_once c s) as [l r]. simpl in *. by rewrite IH.
Qed.

(** *** Further facts *)

Lemma all_chars_ext (p q : ascii → bool) (s : string) :
  (∀ c, p c = q c) → all_chars p s = all_chars q s.
Proof. intros E. induction s as [|c s IH]; [done|]. simpl. by rewrite E, IH. Qed.

Lemma all_chars_and (p q : ascii → bool) (s : string) :
  all_chars (λ c, p c && q c) s = all_chars p s && all_chars q s.
Proof.
  induction s as [|c s IH]; [done|]. simpl. rewrite IH.
  destruct (p c), (q c), (all_chars p s), (all_chars q s); reflexivity.
Qed.

Lemma stops_impl (p q : ascii → bool) (s : string) :
  (∀ c, p c = false → q c = false) → stops p s → stops q s.
Proof. intros Hpq [-> | (c & t & -> & Hc)]; [by left|]. right. eauto. Qed.

Lemma lstrip_app (p : ascii → bool) (b s : string) :
  stops p s → lstrip_with p (b +:+ s) = lstrip_with p b +:+ s.
Proof.
  intros Hs. induction b as [|c b IH]; simpl.
  - destruct Hs as [-> | (c & t & -> & Hc)]; [done|]. simpl. by rewrite Hc.
  - destruct (p c); [done|]. reflexivity.
Qed.

Lemma remove_char_stops (p : ascii → bool) (b : ascii) (s : string) :
  p b = true → stops p s → stops p (remove_char b s).
Proof.
  intros Hb [-> | (c & t & -> & Hc)]; [by left|]. right. simpl.
  destruct (Ascii.eqb c b) eqn:E; [|eauto].
  apply Ascii.eqb_eq in E as ->. congruence.
Qed.

Lemma take_while_isnt_mem (c : ascii) (b t : string) :
  mem_char c b = true → take_while (isnt c) (b +:+ t) = take_while (isnt c) b.
Proof.
  induction b as [|a b IH]; [done|]. simpl. unfold isnt at 1 3.
  destruct (Ascii.eqb a c); simpl; [done|]. intros Hm. by rewrite IH.
Qed.

Lemma len_take_while_isnt_mem (c : ascii) (b : string) :
  mem_char c b = true → (len (take_while (isnt c) b) < len b)%nat.
Proof.
  induction b as [|a b IH]; [done|]. simpl. unfold isnt at 1.
  destruct (Ascii.eqb a c); simpl; [lia|]. intros Hm. apply IH in Hm. lia.
Qed.

Lemma mem_char_app (c : ascii) (s t : string) :
  mem_char c (s +:+ t) = mem_char c s || mem_char c t.
Proof. induction s as [|a s IH]; [done|]. simpl. by rewrite IH, orb_assoc. Qed.
End PyStrFacts.

(* ================================================================= *)
(** ** BotChallengeDetector *)

Section BotDetector.
Import PyStr PyStrFacts.

Lemma is_bot_page_iff (html : string) :
  is_bot_page html = true ↔
  ∃ kw, kw ∈ BOT_CHECK_KEYWORDS ∧ occurs_nocase kw (take 2000 html).
Proof.
  unfold is_bot_page. rewrite existsb_exists. split.
  - intros (kw & Hin & Hc). exists kw. split; [by apply list_elem_of_In|].
    by apply occurs_nocase_contains.
  - intros (kw & Hin & Hc). exists kw. split; [by apply list_elem_of_In|].
    by apply occurs_nocase_contains.
Qed.

Lemma is_bot_page_false (html : string) :
  (∀ kw, kw ∈ BOT_CHECK_KEYWORDS → ¬ occurs_nocase kw (take 2000 html)) →
  is_bot_page html = false.
Proof.
  intros Hno. destruct (is_bot_page html) eqn:E; [|done].
  apply is_bot_page_iff in E as (kw & Hin & Hocc). by destruct (Hno kw Hin).
Qed.

(** C8.  [is_bot_page] answers true exactly when one of the fixed
    phrases occurs, up to letter case, inside the first 2000 characters
    of the page.  So a page whose first 2000 characters hold "please
    verify you are a human" in any mix of cases is a challenge page, and
    a page whose first 2000 characters hold no phrase is not, whatever
    follows them. *)
Theorem C8_bot_detector_prefix_semantics :
  (∀ html, is_bot_page html = true ↔
           ∃ kw, kw ∈ BOT_CHECK_KEYWORDS ∧ occurs_nocase kw (take 2000 html))
  ∧ (∀ html m, lower m = "please verify you are a human" →
               occurs m (take 2000 html) → is_bot_page html = true)
  ∧ (∀ pre rest, len pre = 2000%nat →
                 (∀ kw, kw ∈ BOT_CHECK_KEYWORDS → ¬ occurs_nocase kw pre) →
                 is_bot_page (pre +:+ rest) = false).
Proof.
  split; [exact is_bot_page_iff|]. split.
  - intros html m Hm (pre & suf & Hocc). apply is_bot_page_iff.
    exists "verify you are a human". split; [set_solver|].
    destruct (lower_eq_app m "please " "verify you are a human" Hm)
      as (a & b & -> & Ha & Hb).
    exists b. split; [|done].
    exists (pre +:+ a), suf. by rewrite Hocc, !app_assoc.
  - intros pre rest Hlen Hno. apply is_bot_page_false.
    rewrite <- Hlen, take_app_len. exact Hno.
Qed.

Lemma no_keyword_in_padding (kw : string) :
  kw ∈ BOT_CHECK_KEYWORDS → ¬ occurs_nocase kw (repeat_char " " 2000).
Proof.
  intros Hin Hocc. apply occurs_nocase_contains in Hocc.
  unfold BOT_CHECK_KEYWORDS in Hin.
  repeat (apply elem_of_cons in Hin as [-> | Hin]; [by vm_compute in Hocc|]).
  by apply elem_of_nil in Hin.
Qed.

(** The two pages of the specification's test: the banner in front of
    2000 blanks, and the same banner behind them. *)
Lemma C8_witness :
  is_bot_page (Fixtures.challenge_banner +:+ repeat_char " " 2000) = true
  ∧ is_bot_page (repeat_char " " 2000 +:+ Fixtures.challenge_banner) = false.
Proof.
  split.
  - apply (proj1 (proj2 C8_bot_detector_prefix_semantics)
             _ "PLEASE Verify You Are A Human"); [reflexivity|].
    exists "<h1>", ("</h1>" +:+ repeat_char " " 1962). vm_compute. reflexivity.
  - apply (proj2 (proj2 C8_bot_detector_prefix_semantics)).
    + vm_compute. reflexivity.
    + exact no_keyword_in_padding.
Defined.

End BotDetector.

(* ================================================================= *)
(** ** URLNormalizer *)

Module UrlFacts.
Import PyStr PyStrFacts UrlParse UrlSpec.

(** *** Characters *)

Ltac by_cases c := destruct c as [[] [] [] [] [] [] [] []]; try reflexivity; try discriminate.

Lemma scheme_char_safe (c : ascii) : scheme_char c = true → safe_char c = true.
Proof. by_cases c. Qed.

Lemma scheme_char_not_colon (c : ascii) : scheme_char c = true → isnt ":" c = true.
Proof. by_cases c. Qed.

Lemma scheme_char_not_qf (c : ascii) : scheme_char c = true → not_qf c = true.
Proof. by_cases c. Qed.

Lemma scheme_char_lower (c : ascii) :
  scheme_char c = true → scheme_char (lower_char c) = true.
Proof. by_cases c. Qed.

Lemma alpha_lower (c : ascii) :
  is_ascii_alpha c = true → is_ascii_alpha (lower_char c) = true.
Proof. by_cases c. Qed.

Lemma alpha_not_stripped (c : ascii) :
  is_ascii_alpha c = true → c0_control_or_space c = false.
Proof. by_cases c. Qed.

Lemma not_delim_not_qf (c : ascii) : not_delim c = true → not_qf c = true.
Proof. by_cases c. Qed.

Lemma not_delim_split (c : ascii) :
  not_delim c = isnt "/" c && (isnt "?" c && isnt "#" c).
Proof. by_cases c. Qed.

Lemma not_qf_split (c : ascii) : not_qf c = isnt "#" c && isnt "?" c.
Proof. by_cases c. Qed.

Lemma safe_char_split (c : ascii) :
  safe_char c = isnt "009" c && (isnt "013" c && isnt "010" c).
Proof. by_cases c. Qed.

(** What holds of [?] and of [#]. *)
Lemma not_qf_false (c : ascii) :
  not_qf c = false →
  c0_control_or_space c = false ∧ safe_char c = true ∧ scheme_char c = false
  ∧ not_delim c = false ∧ isnt ":" c = true ∧ isnt "/" c = true.
Proof. by_cases c; done. Qed.

Lemma slash_not_delim : not_delim "/" = false.
Proof. reflexivity. Qed.


(** *** The pieces of [urlsplit] in closed form *)

Lemma find_from_two (c : ascii) (r : string) (delim : nat) :
  (delim ≤ 2 + len r)%nat →
  match find_from c 2 ("//" +:+ r) with
  | Some wdelim => Nat.min delim wdelim
  | None => delim
  end = Nat.min delim (2 + len (take_while (isnt c) r)).
Proof.
  intros Hd. unfold find_from. change (drop 2 ("//" +:+ r)) with r.
  pose proof (find_char_or_len c r) as Hf.
  destruct (find (String c "") r) as [i|]; simpl in *; [by rewrite Hf|].
  rewrite <- Hf. lia.
Qed.

Lemma splitnetloc_spec (r : string) :
  _splitnetloc ("//" +:+ r) 2 = (take_while not_delim r, drop_while not_delim r).
Proof.
  unfold _splitnetloc. cbn [foldl].
  change (len ("//" +:+ r)) with (2 + len r)%nat.
  rewrite (find_from_two "/" r (2 + len r)) by lia.
  rewrite (find_from_two "?" r) by lia.
  rewrite (find_from_two "#" r) by lia.
  assert (len (take_while not_delim r)
          = Nat.min (len (take_while (isnt "/") r))
              (Nat.min (len (take_while (isnt "?") r)) (len (take_while (isnt "#") r))))
    as Hlen.
  { rewrite <- !len_take_while_and. f_equal. apply take_while_ext, not_delim_split. }
  pose proof (len_take_while_le not_delim r).
  replace (Nat.min _ _) with (2 + len (take_while not_delim r))%nat by lia.
  unfold slice. change (drop 2 ("//" +:+ r)) with r.
  replace (2 + len (take_while not_delim r) - 2)%nat
    with (len (take_while not_delim r)) by lia.
  rewrite take_len_take_while.
  change (drop (2 + ?n) ("//" +:+ r)) with (drop n r).
  by rewrite drop_len_take_while.
Qed.

Lemma starts_two_slashes (u : string) :
  String.eqb (take 2 u) "//" = true → ∃ r, u = "//" +:+ r.
Proof.
  intros E. apply String.eqb_eq in E.
  destruct u as [|a [|b r]]; try discriminate. simpl in E. injection E as -> ->.
  by exists r.
Qed.

(** The path is what precedes the first [?] or [#]. *)
Lemma path_spec (u : string) :
  let '(url, fragment) := if mem_char "#" u then split_once "#" u else (u, "") in
  let '(url, query) := if mem_char "?" url then split_once "?" url else (url, "") in
  url = take_while not_qf u.
Proof.
  assert (∀ c v, (if mem_char c v then split_once c v else (v, "")).1
                 = take_while (isnt c) v) as Hfst.
  { intros c v. destruct (mem_char c v) eqn:E; [apply split_once_fst|]. simpl.
    rewrite take_while_all; [done|]. unfold isnt. by rewrite all_chars_not_mem, E. }
  pose proof (Hfst "#"%char u) as H1.
  destruct (if mem_char "#" u then _ else _) as [url fragment]. simpl in H1.
  pose proof (Hfst "?"%char url) as H2.
  destruct (if mem_char "?" url then _ else _) as [url' query]. simpl in H2.
  rewrite H2, H1, take_while_take_while. apply take_while_ext.
  intros c. by rewrite not_qf_split.
Qed.

Section WithUrlLib.
Context `{UrlLib}.

Lemma split_netloc_spec (u : string) :
  split_netloc u =
  if String.eqb (take 2 u) "//" then
    let nl := take_while not_delim (drop 2 u) in
    if unbalanced_brackets nl then Raise (ValueError "Invalid IPv6 URL")
    else if mem_char "[" nl && mem_char "]" nl then
      match check_bracketed_netloc nl with
      | Some msg => Raise (ValueError msg)
      | None => Ok (nl, drop_while not_delim (drop 2 u))
      end
    else Ok (nl, drop_while not_delim (drop 2 u))
  else Ok ("", u).
Proof.
  unfold split_netloc. destruct (String.eqb (take 2 u) "//") eqn:E; [|done].
  apply starts_two_slashes in E as [r ->]. rewrite splitnetloc_spec.
  by change (drop 2 ("//" +:+ r)) with r.
Qed.

(** [urlsplit] fails exactly when its netloc step does, and otherwise
    its scheme, netloc and path are these. *)
Lemma urlsplit_spec (x : string) :
  match split_netloc (split_scheme (clean x)).2 with
  | Raise e => urlsplit x = Raise e
  | Ok (nl, u2) =>
      ∃ q f, urlsplit x
             = Ok (mkSplit (split_scheme (clean x)).1 nl (take_while not_qf u2) q f)
  end.
Proof.
  unfold urlsplit. fold (clean x).
  destruct (split_scheme (clean x)) as [sch u1]. simpl.
  destruct (split_netloc u1) as [[nl u2]|e]; simpl; [|done].
  pose proof (path_spec u2) as Hp.
  destruct (if mem_char "#" u2 then _ else _) as [url fragment].
  destruct (if mem_char "?" url then _ else _) as [url' query].
  rewrite Hp. eauto.
Qed.

Lemma normalize_spec (x : string) :
  normalize_product_url x =
  match split_netloc (split_scheme (clean x)).2 with
  | Raise e => Raise e
  | Ok (nl, u2) =>
      Ok (urlunsplit (mkSplit (str_or (split_scheme (clean x)).1 "https")
                              (str_or nl "www.walmart.com")
                              (take_while not_qf u2) "" ""))
  end.
Proof.
  unfold normalize_product_url. pose proof (urlsplit_spec x) as Hs.
  destruct (split_netloc _) as [[nl u2]|e].
  - destruct Hs as (q & f & ->). reflexivity.
  - by rewrite Hs.
Qed.

(** *** The shape of the parts *)

Lemma clean_safe (x : string) : all_chars safe_char (clean x) = true.
Proof.
  unfold clean. cbn [foldl unsafe_url_bytes].
  set (a := lstrip_with c0_control_or_space x).
  rewrite (all_chars_ext _ _ _ safe_char_split), !all_chars_and.
  rewrite !andb_true_iff. repeat split.
  - do 2 apply all_chars_remove_char. apply all_chars_removed.
  - apply all_chars_remove_char. apply all_chars_removed.
  - apply all_chars_removed.
Qed.

Lemma good_scheme_https : good_scheme "https".
Proof. split; [by exists "h"%char, "ttps"|done]. Qed.

Lemma good_netloc_walmart : good_netloc "www.walmart.com".
Proof. repeat split; done. Qed.

Lemma split_scheme_good (u : string) :
  all_chars safe_char u = true →
  ((split_scheme u).1 = "" ∨ good_scheme (split_scheme u).1)
  ∧ all_chars safe_char (split_scheme u).2 = true.
Proof.
  intros Hu. unfold split_scheme.
  destruct (find ":" u) as [i|]; [|by split; [left|]].
  destruct (_ && _) eqn:E; [|by split; [left|]].
  apply andb_true_iff in E as [E Hall]. apply andb_true_iff in E as [Hi Hc].
  apply Nat.ltb_lt in Hi. destruct u as [|c u]; [discriminate|].
  destruct i as [|i]; [lia|]. simpl. split.
  - right. repeat split.
    + exists (lower_char c), (lower (take i u)). split; [done|]. by apply alpha_lower.
    + simpl in Hall. apply andb_true_iff in Hall as [H1 H2].
      cbn [all_chars]. rewrite scheme_char_lower by done. simpl.
      apply all_chars_lower; [apply scheme_char_lower | done].
    + cbn [lower]. by rewrite lower_char_idemp, lower_idemp.
  - simpl in Hu. apply andb_true_iff in Hu as [_ Hu]. by apply all_chars_drop.
Qed.

Lemma split_netloc_good (u nl u2 : string) :
  all_chars safe_char u = true →
  split_netloc u = Ok (nl, u2) →
  (nl = "" ∨ good_netloc nl) ∧ all_chars safe_char u2 = true.
Proof.
  intros Hu. rewrite split_netloc_spec.
  destruct (String.eqb (take 2 u) "//"); [|intros [= <- <-]; by split; [left|]].
  cbv zeta. set (nl0 := take_while not_delim (drop 2 u)).
  assert (all_chars not_delim nl0 = true) by apply all_chars_take_while.
  assert (all_chars safe_char nl0 = true)
    by by apply all_chars_take_while_other, all_chars_drop.
  assert (all_chars safe_char (drop_while not_delim (drop 2 u)) = true)
    by by apply all_chars_drop_while, all_chars_drop.
  clearbody nl0.
  destruct (unbalanced_brackets nl0) eqn:Eu; [done|].
  destruct (_ && _) eqn:Eb.
  - destruct (check_bracketed_netloc nl0) eqn:Ec; [done|]. intros [= <- <-].
    split; [|done]. destruct nl0 as [|c r]; [by left|]. right. by repeat split.
  - intros [= <- <-]. split; [|done].
    destruct nl0 as [|c r]; [by left|]. right. repeat split; try done.
    intros Hb. by rewrite Hb in Eb.
Qed.

Lemma rooted_good (u2 : string) :
  all_chars safe_char u2 = true → good_path (rooted (take_while not_qf u2)).
Proof.
  intros Hu. set (p := take_while not_qf u2).
  assert (all_chars not_qf p = true) as Hq by apply all_chars_take_while.
  assert (all_chars safe_char p = true) as Hs by by apply all_chars_take_while_other.
  unfold rooted. destruct p as [|c p]; [by repeat split; [left]|].
  simpl. destruct (Ascii.eqb c "/") eqn:E; simpl.
  - apply Ascii.eqb_eq in E as ->.
    repeat split; [done..|right; eauto using slash_not_delim].
  - repeat split; [done..|right; eauto using slash_not_delim].
Qed.

Lemma rooted_id (p : string) : good_path p → rooted p = p.
Proof.
  unfold rooted. intros (Hq & _ & [-> | (c & r & -> & Hc)]); [done|].
  simpl in *. apply andb_true_iff in Hq as [Hq _].
  destruct (Ascii.eqb c "/") eqn:E; [done|]. exfalso.
  revert Hc Hq E. clear. by_cases c.
Qed.

Lemma urlunsplit_parts (sch nl p : string) :
  sch ≠ "" → nl ≠ "" →
  urlunsplit (mkSplit sch nl p "" "") = sch +:+ ":" +:+ "//" +:+ nl +:+ rooted p.
Proof.
  intros Hs Hn. unfold urlunsplit, rooted, nonempty. simpl.
  apply String.eqb_neq in Hs, Hn. by rewrite Hs, Hn.
Qed.

Lemma good_scheme_nonempty (sch : string) : good_scheme sch → sch ≠ "".
Proof. by intros [(c & r & -> & _) _]. Qed.

(** *** Parsing what [normalize_product_url] returns *)

Lemma clean_id (y : string) :
  all_chars safe_char y = true → stops c0_control_or_space y → clean y = y.
Proof.
  intros Hy Hst. unfold clean.
  assert (lstrip_with c0_control_or_space y = y) as ->.
  { destruct Hst as [-> | (c & t & -> & Hc)]; [done|]. simpl. by rewrite Hc. }
  rewrite (all_chars_ext _ _ _ safe_char_split), !all_chars_and in Hy.
  apply andb_true_iff in Hy as [H1 Hy]. apply andb_true_iff in Hy as [H2 H3].
  unfold unsafe_url_bytes. cbn [foldl].
  rewrite (remove_char_id "009") by exact H1.
  rewrite (remove_char_id "013") by exact H2.
  by rewrite (remove_char_id "010") by exact H3.
Qed.

Lemma split_scheme_parts (sch rest : string) :
  good_scheme sch →
  split_scheme (sch +:+ ":" +:+ rest) = (sch, rest).
Proof.
  intros ((c & r & -> & Hc) & Hall & Hlow). unfold split_scheme.
  set (sch := String c r) in *.
  assert (take_while (isnt ":") (sch +:+ ":" +:+ rest) = sch) as Htw.
  { apply take_while_prefix.
    - eapply all_chars_impl; [apply scheme_char_not_colon|done].
    - right. by exists ":"%char, rest. }
  rewrite find_char, Htw, mem_char_app. simpl mem_char. rewrite orb_true_r.
  assert (take (len sch) (sch +:+ ":" +:+ rest) = sch) as -> by apply take_app_len.
  rewrite Hall, Hlow, andb_true_r. subst sch. cbn [len String.length Nat.ltb Nat.leb].
  rewrite app_cons, Hc. cbn [andb]. f_equal.
  replace (S (String.length r) + 1)%nat with (len (String c r +:+ ":")).
  - rewrite <- app_cons, <- (app_assoc (String c r) ":" rest). apply drop_app_len.
  - rewrite len_app. unfold len. simpl. lia.
Qed.

Lemma urlsplit_parts (sch nl p : string) :
  good_scheme sch → good_netloc nl → good_path p →
  urlsplit (sch +:+ ":" +:+ "//" +:+ nl +:+ p) = Ok (mkSplit sch nl p "" "").
Proof.
  intros Hsch (Hne & Hd & Hs & Hun & Hbr) (Hq & Hps & Hst). unfold urlsplit.
  fold (clean (sch +:+ ":" +:+ "//" +:+ nl +:+ p)). rewrite clean_id.
  - rewrite split_scheme_parts by done.
    rewrite split_netloc_spec. change (take 2 ("//" +:+ ?r)) with "//".
    change (drop 2 ("//" +:+ ?r)) with r. cbn [String.eqb Ascii.eqb Bool.eqb].
    cbv zeta. rewrite take_while_prefix, drop_while_prefix by done.
    rewrite Hun.
    assert ((if mem_char "[" nl && mem_char "]" nl
             then match check_bracketed_netloc nl with
                  | Some msg => Raise (ValueError msg)
                  | None => Ok (nl, p)
                  end
             else Ok (nl, p)) = Ok (nl, p)) as ->.
    { destruct (mem_char "[" nl && mem_char "]" nl); [|done]. by rewrite Hbr. }
    simpl.
    assert (∀ c, not_qf c = false → mem_char c p = false) as Hno.
    { intros c Hc. clear -Hq Hc. induction p as [|a p IH]; [done|].
      simpl in *. apply andb_true_iff in Hq as [Ha Hq]. rewrite IH by done.
      destruct (Ascii.eqb a c) eqn:E; [|done].
      apply Ascii.eqb_eq in E as ->. congruence. }
    by rewrite !Hno.
  - destruct Hsch as (_ & Hall & _).
    rewrite !all_chars_app, !andb_true_iff. repeat split; try done.
    eapply all_chars_impl; [apply scheme_char_safe|done].
  - destruct Hsch as ((c & r & -> & Hc) & _). right.
    exists c, (r +:+ ":" +:+ "//" +:+ nl +:+ p). split; [done|].
    by apply alpha_not_stripped.
Qed.

Lemma str_or_good_scheme (sch : string) :
  sch = "" ∨ good_scheme sch → good_scheme (str_or sch "https").
Proof.
  intros [-> | Hg]; [apply good_scheme_https|]. unfold str_or.
  destruct (String.eqb_spec sch ""); [|done]. subst.
  by apply good_scheme_nonempty in Hg.
Qed.

Lemma str_or_good_netloc (nl : string) :
  nl = "" ∨ good_netloc nl → good_netloc (str_or nl "www.walmart.com").
Proof.
  intros [-> | Hg]; [apply good_netloc_walmart|]. unfold str_or.
  destruct (String.eqb_spec nl ""); [|done]. subst. by destruct Hg.
Qed.

Lemma str_or_id (s d : string) : s ≠ "" → str_or s d = s.
Proof. intros Hs. unfold str_or. by apply String.eqb_neq in Hs as ->. Qed.

(** What [normalize_product_url] returns: a scheme, a netloc and a
    rooted path of the right shape, glued together. *)
Lemma normalize_ok_shape (x y : string) :
  normalize_product_url x = Ok y →
  ∃ sch nl p, good_scheme sch ∧ good_netloc nl ∧ good_path p
              ∧ y = sch +:+ ":" +:+ "//" +:+ nl +:+ p.
Proof.
  rewrite normalize_spec. pose proof (clean_safe x) as Hc.
  apply split_scheme_good in Hc as [Hsch Hu1].
  destruct (split_netloc _) as [[nl u2]|e] eqn:E; [|done].
  apply split_netloc_good in E as [Hnl Hu2]; [|done].
  apply str_or_good_scheme in Hsch. apply str_or_good_netloc in Hnl.
  intros [= <-]. eexists _, _, _. split_and!; [done..| |].
  - by apply rooted_good.
  - apply urlunsplit_parts; [by apply good_scheme_nonempty | by destruct Hnl].
Qed.

Lemma normalize_parts (sch nl p : string) :
  good_scheme sch → good_netloc nl → good_path p →
  normalize_product_url (sch +:+ ":" +:+ "//" +:+ nl +:+ p)
  = Ok (sch +:+ ":" +:+ "//" +:+ nl +:+ p).
Proof.
  intros Hsch Hnl Hp. unfold normalize_product_url.
  rewrite urlsplit_parts by done. simpl.
  pose proof (good_scheme_nonempty _ Hsch). destruct Hnl as [Hne _].
  rewrite !str_or_id, urlunsplit_parts, rooted_id by done. done.
Qed.

Lemma normalize_idempotent (x y : string) :
  normalize_product_url x = Ok y → normalize_product_url y = Ok y.
Proof.
  intros (sch & nl & p & ? & ? & ? & ->)%normalize_ok_shape.
  by apply normalize_parts.
Qed.

Lemma normalize_no_query_fragment (x y : string) :
  normalize_product_url x = Ok y → no_query_fragment y.
Proof.
  intros (sch & nl & p & (_ & Hsch & _) & (_ & Hnl & _) & (Hp & _) & ->)%normalize_ok_shape.
  unfold no_query_fragment. rewrite !all_chars_app, !andb_true_iff.
  repeat split; try done.
  - eapply all_chars_impl; [apply scheme_char_not_qf|done].
  - eapply all_chars_impl; [apply not_delim_not_qf|done].
Qed.

Lemma normalize_absolute (x y : string) :
  normalize_product_url x = Ok y → absolute y.
Proof.
  intros (sch & nl & p & Hsch & (Hne & _) & _ & ->)%normalize_ok_shape.
  exists sch, nl, p. split_and!; [done| |by destruct Hsch as (_ & ? & _)|done].
  by apply good_scheme_nonempty.
Qed.

(** *** A query string or a fragment at the end does not count *)

Lemma clean_app (base s : string) :
  stops not_qf s →
  ∃ s', clean (base +:+ s) = clean base +:+ s' ∧ stops not_qf s'.
Proof.
  intros Hs. unfold clean, unsafe_url_bytes. cbn [foldl].
  rewrite lstrip_app by (eapply stops_impl; [|done]; by intros c (? & _)%not_qf_false).
  rewrite !remove_char_app. eexists. split; [done|].
  by do 3 (apply remove_char_stops; [done|]).
Qed.

Lemma split_scheme_app (b s : string) :
  stops not_qf s →
  split_scheme (b +:+ s) = ((split_scheme b).1, (split_scheme b).2 +:+ s).
Proof.
  intros Hs. unfold split_scheme. rewrite !find_char.
  destruct (mem_char ":" b) eqn:Eb.
  - rewrite mem_char_app, Eb, take_while_isnt_mem by done. cbn [orb].
    pose proof (len_take_while_isnt_mem _ _ Eb) as Hlt.
    set (i := len (take_while (isnt ":") b)) in *.
    rewrite take_app_le by lia.
    assert (match b +:+ s with String c _ => is_ascii_alpha c | "" => false end
            = match b with String c _ => is_ascii_alpha c | "" => false end) as ->.
    { destruct b; [simpl in Hlt; lia | done]. }
    destruct (_ && _); [|done]. simpl. by rewrite drop_app_le by lia.
  - rewrite mem_char_app, Eb. cbn [orb fst snd].
    destruct (mem_char ":" s) eqn:Es; [|done].
    destruct Hs as [-> | (c & t & -> & Hc)]; [done|].
    rewrite take_len_take_while.
    assert (all_chars scheme_char (take_while (isnt ":") (b +:+ String c t)) = false)
      as ->; [|by rewrite andb_false_r].
    apply not_qf_false in Hc as (_ & _ & Hsc & _ & Hcol & _).
    assert (all_chars (isnt ":") b = true) as Hb
      by (unfold isnt; by rewrite all_chars_not_mem, Eb).
    clear -Hsc Hcol Hb. induction b as [|a b IH]; simpl in *.
    + rewrite Hcol. simpl. by rewrite Hsc.
    + apply andb_true_iff in Hb as [-> Hb]. simpl. by rewrite IH, andb_false_r.
Qed.

Lemma take_two_app (r s : string) :
  stops not_qf s →
  String.eqb (take 2 (r +:+ s)) "//" = String.eqb (take 2 r) "//".
Proof.
  intros Hs. destruct r as [|a [|b r]]; [| |done].
  - destruct Hs as [-> | (c & t & -> & Hc)]; [done|].
    apply not_qf_false in Hc as (_ & _ & _ & _ & _ & Hc). simpl.
    unfold isnt in Hc. by destruct (Ascii.eqb c "/").
  - destruct Hs as [-> | (c & t & -> & Hc)]; [done|].
    apply not_qf_false in Hc as (_ & _ & _ & _ & _ & Hc). simpl.
    unfold isnt in Hc. by destruct (Ascii.eqb c "/").
Qed.

Lemma split_netloc_app (r s : string) :
  stops not_qf s →
  split_netloc (r +:+ s) =
  match split_netloc r with
  | Ok (nl, u2) => Ok (nl, u2 +:+ s)
  | Raise e => Raise e
  end.
Proof.
  intros Hs. rewrite !split_netloc_spec, take_two_app by done.
  destruct (String.eqb (take 2 r) "//") eqn:E; [|done].
  apply starts_two_slashes in E as [r0 ->].
  change (drop 2 (("//" +:+ r0) +:+ s)) with (r0 +:+ s).
  change (drop 2 ("//" +:+ r0)) with r0. cbv zeta.
  assert (stops not_delim s) as Hd
    by (eapply stops_impl; [|done]; by intros c (_ & _ & _ & ? & _)%not_qf_false).
  rewrite take_while_app, drop_while_app by done.
  destruct (unbalanced_brackets _); [done|]. destruct (_ && _); [|done].
  by destruct (check_bracketed_netloc _).
Qed.

Lemma normalize_app (base s : string) :
  stops not_qf s → normalize_product_url (base +:+ s) = normalize_product_url base.
Proof.
  intros Hs. rewrite !normalize_spec.
  destruct (clean_app base s Hs) as (s' & -> & Hs').
  rewrite split_scheme_app by done. cbn [fst snd].
  rewrite split_netloc_app by done.
  destruct (split_netloc _) as [[nl u2]|e]; [|done].
  by rewrite take_while_app.
Qed.

Lemma normalize_same (x y : string) :
  same_up_to_query_fragment x y → normalize_product_url x = normalize_product_url y.
Proof.
  intros (base & s1 & s2 & -> & -> & _ & H1 & H2).
  by rewrite !normalize_app.
Qed.

End WithUrlLib.

End UrlFacts.

Section Normalizer.
Import PyStr PyStrFacts UrlSpec UrlFacts.
Context `{UrlLib}.

(** C6.  [normalize_product_url] is idempotent: normalizing its result
    gives that result again (and where the first call raises, so does
    the composition, with the same error).  Two URLs that are one text
    followed by different query strings or fragments normalize alike. *)
Theorem C6_normalize_idempotent_query_insensitive :
  (∀ x, normalize_product_url x ≫= normalize_product_url = normalize_product_url x)
  ∧ (∀ x y, normalize_product_url x = Ok y → normalize_product_url y = Ok y)
  ∧ (∀ x y, same_up_to_query_fragment x y →
            normalize_product_url x = normalize_product_url y).
Proof.
  split_and!.
  - intros x. destruct (normalize_product_url x) as [y|e] eqn:E; [|done].
    simpl. by apply (normalize_idempotent x).
  - apply normalize_idempotent.
  - apply normalize_same.
Qed.

(** A host with a lone bracket makes [urlsplit] raise before the check
    of bracketed hosts is asked. *)
Lemma normalize_lone_bracket :
  normalize_product_url "//[" = Raise (ValueError "Invalid IPv6 URL").
Proof. reflexivity. Qed.

(** The model on a few inputs, as CPython 3.11 answers them. *)
Example normalize_relative_path :
  normalize_product_url "/ip/Phone-15/123?athbdg=L1600#reviews"
  = Ok "https://www.walmart.com/ip/Phone-15/123".
Proof. reflexivity. Qed.

Example normalize_other_host :
  normalize_product_url "HTTP://Example.com:80/a b?x"
  = Ok "http://Example.com:80/a b".
Proof. reflexivity. Qed.

Example normalize_scheme_only :
  normalize_product_url "a:80" = Ok "a://www.walmart.com/80".
Proof. reflexivity. Qed.

Example normalize_leading_blanks :
  normalize_product_url "  //host?x" = Ok "https://host".
Proof. reflexivity. Qed.

(** The fallback of [get_link] cuts the href at its first [?] or [#]. *)
Lemma fallback_cut (href : string) :
  split_first "#" (split_first "?" href) = cut_query_fragment href.
Proof.
  rewrite !split_first_spec, take_while_take_while. apply take_while_ext.
  intros c. rewrite not_qf_split. apply andb_comm.
Qed.

Lemma canonical_href_cases (href : string) :
  let raw := if startswith "http" href then href else WALMART +:+ href in
  (∀ u, normalize_product_url raw = Ok u → canonical_href href = u)
  ∧ (∀ e, normalize_product_url raw = Raise e →
          canonical_href href = WALMART +:+ cut_query_fragment href).
Proof.
  cbv zeta. unfold canonical_href. split.
  - by intros u ->.
  - intros e ->. simpl. by rewrite fallback_cut.
Qed.

Lemma fallback_absolute (s : string) : absolute (WALMART +:+ s).
Proof. by exists "https", "www.walmart.com", s. Qed.

Lemma canonical_href_absolute (href : string) : absolute (canonical_href href).
Proof.
  destruct (canonical_href_cases href) as [Hok Hraise].
  destruct (normalize_product_url _) as [u|e] eqn:E.
  - rewrite (Hok u eq_refl). by eapply normalize_absolute.
  - rewrite (Hraise e eq_refl). apply fallback_absolute.
Qed.

Lemma canonical_href_no_query_fragment (href : string) :
  no_query_fragment (canonical_href href).
Proof.
  destruct (canonical_href_cases href) as [Hok Hraise].
  destruct (normalize_product_url _) as [u|e] eqn:E.
  - rewrite (Hok u eq_refl). by eapply normalize_no_query_fragment.
  - rewrite (Hraise e eq_refl). unfold no_query_fragment.
    rewrite all_chars_app. apply andb_true_iff. split; [done|].
    apply all_chars_take_while.
Qed.

(** C7, amended.  The canonical URL that [get_link] computes for an
    anchor (lines 75-78) is defined for every href: it is the result of
    [normalize_product_url] when that call returns, and when the call
    raises it is the canonical scheme and host followed by the href
    without everything from its first [?] or [#] on; either way it is an
    absolute URL. *)
Theorem C7_canonical_href_total (href : string) :
  let raw := if startswith "http" href then href else WALMART +:+ href in
  (∀ u, normalize_product_url raw = Ok u → canonical_href href = u)
  ∧ (∀ e, normalize_product_url raw = Raise e →
          canonical_href href = WALMART +:+ cut_query_fragment href)
  ∧ absolute (canonical_href href).
Proof.
  cbv zeta. destruct (canonical_href_cases href) as [Hok Hraise].
  split_and!; [exact Hok | exact Hraise | apply canonical_href_absolute].
Qed.

End Normalizer.

(** Two spellings of one product page. *)
Lemma C6_witness :
  @normalize_product_url Fixtures.urllib "/ip/Phone-15/123?athbdg=L1600"
  = @normalize_product_url Fixtures.urllib "/ip/Phone-15/123#reviews".
Proof.
  apply (proj2 (proj2 (@C6_normalize_idempotent_query_insensitive Fixtures.urllib))).
  exists "/ip/Phone-15/123", "?athbdg=L1600", "#reviews".
  split_and!; [reflexivity | reflexivity | reflexivity | |];
    right; eexists _, _; split; reflexivity.
Defined.

(** [normalize_product_url] itself raises on a host with a lone bracket. *)
Lemma C7_counterexample :
  @normalize_product_url Fixtures.urllib "//[" = Raise (ValueError "Invalid IPv6 URL").
Proof. reflexivity. Qed.

(** An anchor whose href makes [urlsplit] raise gets the fallback URL. *)
Lemma C7_witness :
  @canonical_href Fixtures.urllib "[/ip/Phone-15/123?athbdg=L1600#reviews"
  = "https://www.walmart.com[/ip/Phone-15/123".
Proof.
  apply (proj1 (proj2 (@C7_canonical_href_total Fixtures.urllib
                          "[/ip/Phone-15/123?athbdg=L1600#reviews"))
           (ValueError "Invalid IPv6 URL")).
  reflexivity.
Defined.

(* ================================================================= *)
(** ** LinkExtractor *)

Module DedupeFacts.

#[local] Set Warnings "-clear-no-such-hyp".

Lemma dedupe_loop_first_seen (us : list string) (seen : gset string) (acc : list string) :
  dedupe_loop us seen acc = acc ++ first_seen us seen.
Proof.
  revert seen acc. induction us as [|u us IH]; intros seen acc; simpl.
  - by rewrite app_nil_r.
  - destruct (decide (u ∈ seen)); [apply IH|].
    by rewrite IH, <- app_assoc.
Qed.

Lemma dedupe_first_seen (us : list string) : dedupe us = first_seen us ∅.
Proof. apply dedupe_loop_first_seen. Qed.

Lemma elem_of_first_seen (x : string) (us : list string) (seen : gset string) :
  x ∈ first_seen us seen ↔ x ∈ us ∧ x ∉ seen.
Proof.
  revert seen. induction us as [|u us IH]; intros seen; simpl.
  - set_solver.
  - destruct (decide (u ∈ seen)).
    + rewrite IH. set_solver.
    + rewrite elem_of_cons, IH. split.
      * intros [-> | [? ?]]; set_solver.
      * intros [[-> | ?]%elem_of_cons ?]; [by left|].
        destruct (decide (x = u)) as [->|]; [by left|]. right. set_solver.
Qed.

Lemma NoDup_first_seen (us : list string) (seen : gset string) :
  NoDup (first_seen us seen).
Proof.
  revert seen. induction us as [|u us IH]; intros seen; simpl.
  - constructor.
  - destruct (decide (u ∈ seen)); [apply IH|].
    constructor; [|apply IH]. rewrite elem_of_first_seen. set_solver.
Qed.

Lemma index_of_cons_ne (u x : string) (us : list string) :
  x ≠ u → index_of u (x :: us) = S <$> index_of u us.
Proof. intros Hne. simpl. by destruct (decide (x = u)). Qed.

Lemma index_of_elem (u : string) (us : list string) :
  u ∈ us → ∃ a, index_of u us = Some a.
Proof.
  induction us as [|x us IH]; [by intros ?%elem_of_nil|].
  intros Hin. simpl. destruct (decide (x = u)); [eauto|].
  apply elem_of_cons in Hin as [->|Hin]; [done|].
  destruct (IH Hin) as [a ->]. eauto.
Qed.

(** The elements of [first_seen] come in the order of their first
    occurrences. *)
Lemma first_seen_order (us : list string) (seen : gset string) (i j : nat) (u v : string) :
  first_seen us seen !! i = Some u → first_seen us seen !! j = Some v → (i < j)%nat →
  ∃ a b, index_of u us = Some a ∧ index_of v us = Some b ∧ (a < b)%nat.
Proof.
  revert seen i j. induction us as [|x us IH]; intros seen i j; simpl; [done|].
  assert (∀ seen' k w, first_seen us seen' !! k = Some w → x ∈ seen' →
                       index_of w (x :: us) = S <$> index_of w us) as Hne.
  { intros seen' k w Hk Hx. apply index_of_cons_ne. intros ->.
    apply list_elem_of_lookup_2, elem_of_first_seen in Hk. set_solver. }
  destruct (decide (x ∈ seen)) as [Hx|Hx].
  - intros Hi Hj Hij. destruct (IH _ _ _ Hi Hj Hij) as (a & b & Ha & Hb & Hab).
    exists (S a), (S b). pose proof (Hne _ _ _ Hi Hx) as Hu.
    pose proof (Hne _ _ _ Hj Hx) as Hv. simpl in Hu, Hv.
    rewrite Hu, Hv, Ha, Hb. split_and!; [done..|lia].
  - destruct i as [|i], j as [|j]; simpl; try lia.
    + intros [= <-] Hj _.
      assert (x ∈ ({[x]} ∪ seen : gset string)) as Hx' by set_solver.
      pose proof (Hne _ _ _ Hj Hx') as Hv. simpl in Hv.
      destruct (index_of_elem v us) as [b Hb].
      { apply list_elem_of_lookup_2, elem_of_first_seen in Hj. tauto. }
      exists 0%nat, (S b). rewrite Hv, Hb.
      destruct (decide (x = x)); [|done]. split_and!; [done..|lia].
    + intros Hi Hj Hij.
      destruct (IH _ _ _ Hi Hj ltac:(lia)) as (a & b & Ha & Hb & Hab).
      assert (x ∈ ({[x]} ∪ seen : gset string)) as Hx' by set_solver.
      pose proof (Hne _ _ _ Hi Hx') as Hu. pose proof (Hne _ _ _ Hj Hx') as Hv.
      simpl in Hu, Hv. exists (S a), (S b).
      rewrite Hu, Hv, Ha, Hb. split_and!; [done..|lia].
Qed.

Lemma NoDup_dedupe (us : list string) : NoDup (dedupe us).
Proof. rewrite dedupe_first_seen. apply NoDup_first_seen. Qed.

Lemma elem_of_dedupe (x : string) (us : list string) : x ∈ dedupe us ↔ x ∈ us.
Proof. rewrite dedupe_first_seen, elem_of_first_seen. set_solver. Qed.

Lemma dedupe_order (us : list string) (i j : nat) (u v : string) :
  dedupe us !! i = Some u → dedupe us !! j = Some v → (i < j)%nat →
  ∃ a b, index_of u us = Some a ∧ index_of v us = Some b ∧ (a < b)%nat.
Proof. rewrite dedupe_first_seen. apply first_seen_order. Qed.

End DedupeFacts.

Section LinkExtractor.
Import PyStr PyStrFacts UrlSpec UrlFacts DedupeFacts.
Context `{UrlLib, HtmlDom}.

Lemma anchor_urls_no_query_fragment (html u : string) :
  u ∈ anchor_urls html → no_query_fragment u.
Proof.
  unfold anchor_urls. intros (href & -> & _)%list_elem_of_fmap.
  apply canonical_href_no_query_fragment.
Qed.

Lemma regex_loop_no_query_fragment (raw_matches : list string) (u : string) :
  u ∈ regex_loop raw_matches → no_query_fragment u.
Proof.
  induction raw_matches as [|p rest IH]; simpl; [by intros ?%elem_of_nil|].
  destruct (negb _); [done|]. intros [-> | ?]%elem_of_cons; [|auto].
  rewrite fallback_cut. unfold no_query_fragment.
  rewrite all_chars_app. apply andb_true_iff. split; [done|].
  apply all_chars_take_while.
Qed.

Lemma product_urls_no_query_fragment `{RegexLib} (html u : string) :
  u ∈ product_urls html → no_query_fragment u.
Proof.
  unfold product_urls. destruct (anchor_urls html) eqn:E.
  - apply regex_loop_no_query_fragment.
  - rewrite <- E. apply anchor_urls_no_query_fragment.
Qed.

(** C2.  The regex fallback decides the output exactly when the anchors
    give no URL: then [get_link] returns what the fallback finds; and as
    soon as the anchors give one URL the output is made of anchor URLs
    only, whatever the regex would match. *)
Theorem C2_fallback_iff_no_anchor_url (html : string) :
  (anchor_urls html = [] →
   ∀ R : RegexLib, get_link_urls html = dedupe (regex_loop (findall_product_paths html)))
  ∧ (anchor_urls html ≠ [] →
     ∀ R : RegexLib, get_link_urls html = dedupe (anchor_urls html)
                     ∧ ∀ u, u ∈ get_link_urls html → u ∈ anchor_urls html).
Proof.
  unfold get_link_urls, product_urls. split.
  - by intros -> R.
  - intros Hne R. destruct (anchor_urls html) eqn:E; [done|].
    split; [done|]. intros u. by rewrite elem_of_dedupe.
Qed.

(** C5.  No URL that [get_link] returns holds a [?] or a [#]; no URL
    occurs twice; and the URLs come in the order in which they first occur
    among the candidates, which the two strategies list in document
    order. *)
Theorem C5_link_extractor_output `{RegexLib} (html : string) :
  (∀ u, u ∈ get_link_urls html → no_query_fragment u)
  ∧ NoDup (get_link_urls html)
  ∧ (∀ u, u ∈ get_link_urls html ↔ u ∈ product_urls html)
  ∧ (∀ i j u v,
       get_link_urls html !! i = Some u → get_link_urls html !! j = Some v → (i < j)%nat →
       ∃ a b, index_of u (product_urls html) = Some a
              ∧ index_of v (product_urls html) = Some b ∧ (a < b)%nat).
Proof.
  unfold get_link_urls. split_and!.
  - intros u Hu. apply (proj1 (elem_of_dedupe _ _)) in Hu.
    exact (product_urls_no_query_fragment html u Hu).
  - apply NoDup_dedupe.
  - intros u. apply elem_of_dedupe.
  - apply dedupe_order.
Qed.

End LinkExtractor.

(** The pattern on a few texts, as Python's [re.findall] answers them. *)
Example findall_in_anchor :
  ProductPathRe.findall "<a href='/ip/Phone-15/123?athbdg=L1600'>"
  = [ "/ip/Phone-15/123?athbdg=L1600" ].
Proof. vm_compute. reflexivity. Qed.

Example findall_with_host :
  ProductPathRe.findall "x https://www.walmart.com/ip/A/1 y //w.com/ip/B/2#f z"
  = [ "/ip/A/1"; "/ip/B/2#f" ].
Proof. vm_compute. reflexivity. Qed.

Example findall_overlap :
  ProductPathRe.findall "https://a/ip/x/ip/y /ip/ /ip//ip/z" = [ "/ip/x/ip/y"; "/ip//ip/z" ].
Proof. vm_compute. reflexivity. Qed.

(** The two pages of the specification's test, with Python's [re]. *)
Lemma C2_witness :
  @get_link_urls Fixtures.urllib Fixtures.search_dom python_re Fixtures.page_without_anchors
  = [ "https://www.walmart.com/ip/Hidden/5"; "https://www.walmart.com/ip/Other/6" ]
  ∧ @get_link_urls Fixtures.urllib Fixtures.search_dom python_re Fixtures.page_with_anchors
    = [ "https://www.walmart.com/ip/Phone-15/123"; "https://www.walmart.com/ip/Case/77" ].
Proof.
  split.
  - rewrite (proj1 (@C2_fallback_iff_no_anchor_url Fixtures.urllib Fixtures.search_dom
                      Fixtures.page_without_anchors) eq_refl python_re).
    vm_compute. reflexivity.
  - rewrite (proj1 (proj2 (@C2_fallback_iff_no_anchor_url Fixtures.urllib Fixtures.search_dom
                             Fixtures.page_with_anchors)
                      ltac:(vm_compute; discriminate) python_re)).
    vm_compute. reflexivity.
Defined.

Lemma C5_witness :
  NoDup (@get_link_urls Fixtures.urllib Fixtures.search_dom python_re
           Fixtures.page_with_anchors).
Proof.
  apply (@C5_link_extractor_output Fixtures.urllib Fixtures.search_dom python_re).
Defined.

(* ================================================================= *)
(** ** ProductRecordExtractor *)

Module RecordFacts.
Import PyStr PyStrFacts.

Lemma bind_ok {A B} (m : result A) (f : A → result B) (b : B) :
  m ≫= f = Ok b → ∃ a, m = Ok a ∧ f a = Ok b.
Proof. destruct m as [a|e]; [eauto | done]. Qed.

(** Peel the binds off a computation that is known to return. *)
Ltac peel H :=
  repeat match type of H with
    | mbind _ _ = Ok _ =>
        let a := fresh "v" in let Ha := fresh "Hv" in
        apply bind_ok in H as (a & Ha & H)
    | (if ?b then _ else _) = Ok _ => destruct b eqn:?; try discriminate H
    | (let '(_, _) := ?p in _) = Ok _ => destruct p
    end.

(** *** The keys of a record *)

Lemma next_data_info_keys (data : pyval) (info : record) :
  next_data_info data = Ok info → info.*1 = RECORD_KEYS.
Proof. unfold next_data_info. intros Hrun. peel Hrun. by injection Hrun as <-. Qed.

Lemma ld_item_keys (item : pyval) (info : record) :
  ld_item item = Ok (Some info) → info.*1 = RECORD_KEYS.
Proof.
  unfold ld_item. intros Hrun. destruct item; try discriminate. peel Hrun.
  by injection Hrun as <-.
Qed.

Lemma ld_candidates_keys (candidates : list pyval) (info : record) :
  ld_candidates candidates = Ok (Some info) → info.*1 = RECORD_KEYS.
Proof.
  induction candidates as [|item rest IH]; simpl; [done|].
  intros (r & Hr & Hrun)%bind_ok. destruct r as [i|]; [|auto].
  injection Hrun as <-. by eapply ld_item_keys.
Qed.

Lemma ld_scripts_keys `{JsonLib} (scripts : list Tag) (info : record) :
  ld_scripts scripts = Ok (Some info) → info.*1 = RECORD_KEYS.
Proof.
  induction scripts as [|s rest IH]; simpl; [done|].
  destruct (negb _); [done|]. destruct (json_loads _) as [jd|]; [|done].
  intros (r & Hr & Hrun)%bind_ok. destruct r as [i|]; [|auto].
  injection Hrun as <-. by eapply ld_candidates_keys.
Qed.

Lemma heuristic_info_keys `{JsonLib} (snippet : string) (info : record) :
  heuristic_info snippet = Ok (Some info) → info.*1 = RECORD_KEYS.
Proof. unfold heuristic_info. intros Hrun. peel Hrun. by injection Hrun as <-. Qed.

Lemma heuristic_strategy_keys `{JsonLib} (html : string) (info : record) :
  heuristic_strategy html = Some info → info.*1 = RECORD_KEYS.
Proof.
  unfold heuristic_strategy. destruct (contains _ _); [|done].
  destruct (find PROPS_MARKER html); [|done]. unfold try_catch.
  destruct (heuristic_info _) as [r|] eqn:E; [|done]. intros ->.
  by eapply heuristic_info_keys.
Qed.

Lemma next_data_strategy_keys `{HtmlDom, JsonLib} (html : string) (info : record) :
  next_data_strategy html = Some info → info.*1 = RECORD_KEYS.
Proof.
  unfold next_data_strategy, parse_next_data.
  destruct (find_script_id _ _); [|done]. destruct (UrlParse.nonempty _); [|done].
  destruct (json_loads _) as [data|]; [|done]. simpl.
  destruct (next_data_info data) eqn:E; [|done]. intros [= <-].
  by eapply next_data_info_keys.
Qed.

(** Every record that [prod_info] returns has the eight keys, in the
    order of the source. *)
Lemma extract_record_keys `{HtmlDom, JsonLib} (html : string) (info : record) :
  extract_record html = Ok info → info.*1 = RECORD_KEYS.
Proof.
  unfold extract_record, ld_json_strategy.
  destruct (next_data_strategy html) as [i|] eqn:E1.
  { intros [= <-]. by eapply next_data_strategy_keys. }
  intros (r & Hr & Hrun)%bind_ok. destruct r as [i|].
  { injection Hrun as <-. by eapply ld_scripts_keys. }
  destruct (heuristic_strategy html) as [i|] eqn:E3; [|done].
  injection Hrun as <-. by eapply heuristic_strategy_keys.
Qed.

(** *** The page sample *)

Lemma lstrip_is_drop_while (p : ascii → bool) (s : string) :
  lstrip_with p s = drop_while p s.
Proof. induction s as [|c s IH]; [done|]. simpl. by rewrite IH. Qed.

Lemma rstrip_split (p : ascii → bool) (s : string) :
  ∃ suf, s = rstrip_with p s +:+ suf ∧ all_chars p suf = true.
Proof.
  induction s as [|c s (suf & IH & Hp)]; [by exists ""|]. simpl.
  destruct (rstrip_with p s) as [|d r] eqn:E.
  - rewrite app_nil_l in IH. subst suf. destruct (p c) eqn:Ec.
    + exists (String c s). simpl. by rewrite Ec, Hp.
    + by exists s.
  - exists suf. by rewrite IH at 1.
Qed.

Lemma rstrip_nil (p : ascii → bool) (s : string) :
  rstrip_with p s = "" ↔ all_chars p s = true.
Proof.
  induction s as [|c s IH]; [done|]. simpl.
  destruct (rstrip_with p s) as [|d r] eqn:E.
  - destruct (p c); simpl; [by rewrite <- IH | done].
  - split; [done|]. intros [_ Hs]%andb_true_iff. by apply IH in Hs.
Qed.

Lemma rstrip_idemp (p : ascii → bool) (s : string) :
  rstrip_with p (rstrip_with p s) = rstrip_with p s.
Proof.
  induction s as [|c s IH]; [done|]. simpl.
  destruct (rstrip_with p s) as [|d r] eqn:E.
  - destruct (p c) eqn:Ec; [done|]. simpl. by rewrite Ec.
  - remember (String d r) as t eqn:Et. simpl. rewrite IH. by subst t.
Qed.

Lemma rstrip_stops (p : ascii → bool) (s : string) :
  stops p s → stops p (rstrip_with p s).
Proof.
  intros [-> | (c & t & -> & Hc)]; [by left|]. simpl.
  destruct (rstrip_with p t); rewrite ?Hc; right; eauto.
Qed.

Lemma occurs_strip (s : string) : occurs (strip s) s.
Proof.
  unfold strip. rewrite lstrip_is_drop_while.
  destruct (rstrip_split isspace (drop_while isspace s)) as (suf & Hs & _).
  exists (take_while isspace s), suf. by rewrite <- Hs, take_drop_while.
Qed.

Lemma strip_nil (s : string) : strip s = "" ↔ all_chars isspace s = true.
Proof.
  unfold strip. rewrite rstrip_nil, lstrip_is_drop_while. split.
  - intros Hd. rewrite <- (take_drop_while isspace s), all_chars_app.
    by rewrite all_chars_take_while, Hd.
  - intros Hs. apply all_chars_drop_while. done.
Qed.

Lemma strip_idemp (s : string) : strip (strip s) = strip s.
Proof.
  unfold strip.
  assert (stops isspace (rstrip_with isspace (lstrip_with isspace s))) as Hst.
  { apply rstrip_stops. rewrite lstrip_is_drop_while. apply drop_while_stops. }
  assert (∀ t, stops isspace t → lstrip_with isspace t = t) as Hl.
  { intros t [-> | (c & r & -> & Hc)]; [done|]. simpl. by rewrite Hc. }
  by rewrite (Hl _ Hst), rstrip_idemp.
Qed.

Lemma len_occurs (m s : string) : occurs m s → (len m ≤ len s)%nat.
Proof. intros (pre & suf & ->). rewrite !len_app. lia. Qed.

Lemma all_chars_occurs (p : ascii → bool) (m s : string) :
  occurs m s → all_chars p s = true → all_chars p m = true.
Proof.
  intros (pre & suf & ->). rewrite !all_chars_app, !andb_true_iff. tauto.
Qed.

Lemma len_replace_char (a b : ascii) (s : string) : len (replace_char a b s) = len s.
Proof. induction s as [|c s IH]; [done|]. simpl. by rewrite IH. Qed.

Lemma replace_char_removes (a b : ascii) (s : string) :
  a ≠ b → mem_char a (replace_char a b s) = false.
Proof.
  intros Hab. induction s as [|c s IH]; [done|]. simpl. rewrite IH, orb_false_r.
  destruct (Ascii.eqb_spec c a); [by apply Ascii.eqb_neq|by apply Ascii.eqb_neq].
Qed.

Lemma replace_newline_space (s : string) :
  all_chars isspace (replace_char newline " " s) = all_chars isspace s.
Proof.
  induction s as [|c s IH]; [done|]. simpl. rewrite IH. f_equal.
  destruct (Ascii.eqb_spec c newline) as [->|]; done.
Qed.

(** The sample is cut from the first 1200 characters of the page with
    its line feeds turned into blanks: it is at most 1200 characters long,
    holds no line feed, has no white space at either end, and is empty
    exactly when those 1200 characters are white space only. *)
Lemma page_sample_spec (html : string) :
  occurs (page_sample html) (replace_char newline " " (take 1200 html))
  ∧ (len (page_sample html) ≤ 1200)%nat
  ∧ mem_char newline (page_sample html) = false
  ∧ strip (page_sample html) = page_sample html
  ∧ (page_sample html = "" ↔ all_chars isspace (take 1200 html) = true).
Proof.
  unfold page_sample. set (t := replace_char newline " " (take 1200 html)).
  pose proof (occurs_strip t) as Hocc. split_and!.
  - done.
  - apply len_occurs in Hocc. subst t. rewrite len_replace_char in Hocc.
    pose proof (len_take_le 1200 html). lia.
  - apply negb_true_iff. rewrite <- all_chars_not_mem.
    apply (all_chars_occurs _ _ _ Hocc). rewrite all_chars_not_mem.
    apply negb_true_iff. by apply replace_char_removes.
  - apply strip_idemp.
  - rewrite strip_nil. subst t. by rewrite replace_newline_space.
Qed.

End RecordFacts.

(** *** The structure of the framework JSON *)

Module ShapeFacts.
Import RecordFacts RecordSpec.

Lemma initial_data_of_next_data (d : pydict) :
  initial_data_of (next_data_of d) = Ok (PDict d).
Proof. reflexivity. Qed.

(** [parse_next_data] looks at the document through its page data
    only. *)
Lemma next_data_info_ext (data data' : pyval) :
  initial_data_of data = initial_data_of data' →
  next_data_info data = next_data_info data'.
Proof. unfold next_data_info. by intros ->. Qed.

Lemma bind_ret_l {A B} (a : A) (f : A → result B) : Ok a ≫= f = f a.
Proof. reflexivity. Qed.

Lemma get_ok (v : pyval) (k : string) (dflt x : pyval) :
  Py.get v k dflt = Ok x ↔ ∃ d, v = PDict d ∧ x = default dflt (Py.lookup k d).
Proof.
  destruct v; simpl; split; try done; try (by intros (d0 & ? & ?)).
  - intros [= <-]. eexists. split; [done|]. by destruct (Py.lookup k d).
  - intros (d0 & [= <-] & ->). by destruct (Py.lookup k d).
Qed.

Lemma member_dict_get (k : string) (d : pydict) (f : pydict → bool) :
  member_dict k d f = true ↔
  ∃ x, Py.get (PDict d) k Py.EMPTY = Ok (PDict x) ∧ f x = true.
Proof.
  unfold member_dict. simpl. destruct (Py.lookup k d) as [v|]; simpl.
  - destruct v; split; try done; try (by intros (x & [= ] & _)).
    + intros Hf. eauto.
    + by intros (x & [= <-] & Hf).
  - split; [intros Hf; by exists [] | by intros (x & [= <-] & Hf)].
Qed.

Lemma initial_data_shape (data : pyval) :
  next_data_shape data = true ↔
  ∃ d, initial_data_of data = Ok (PDict d) ∧ data_shape d = true.
Proof.
  unfold next_data_shape, initial_data_of.
  destruct data as [| | | | | |d0]; try (split; [done | by intros (d & [=] & _)]).
  rewrite member_dict_get. split.
  - intros (props & H1 & Hp). apply member_dict_get in Hp as (pp & H2 & Hp).
    apply member_dict_get in Hp as (idata & H3 & Hp).
    apply member_dict_get in Hp as (d & H4 & Hp).
    exists d. by rewrite H1, bind_ret_l, H2, bind_ret_l, H3, bind_ret_l, H4.
  - intros (d & Hrun & Hd).
    apply bind_ok in Hrun as (props & Hprops & Hrun).
    apply bind_ok in Hrun as (pp & Hpp & Hrun).
    apply bind_ok in Hrun as (idata & Hidata & Hrun).
    apply get_ok in Hrun as (idata' & -> & Hdd).
    apply get_ok in Hidata as (pp' & -> & Hid).
    apply get_ok in Hpp as (props' & -> & Hpp).
    exists props'. split; [done|]. apply member_dict_get. exists pp'.
    split; [apply get_ok; eauto|]. apply member_dict_get. exists idata'.
    split; [apply get_ok; eauto|]. apply member_dict_get. exists d.
    split; [apply get_ok; eauto|done].
Qed.

(** Line 111: the value it leaves in [product] is the product of the
    page data when there is one, and is falsy when there is none. *)
Lemma product_step (d : pydict) :
  ∃ v, (∀ A (k : pyval → result A),
          Py.get (PDict d) "product" PNone
          ≫= (λ p0, (if Py.truthy p0 then Ok p0
                     else
                       ps ← Py.get (PDict d) "products" PNone;
                       if Py.truthy ps then
                         match ps with
                         | PList l => match l with x :: _ => Ok x | [] => Raise IndexError end
                         | _ => Ok PNone
                         end
                       else Ok ps) ≫= k) = k v)
       ∧ (Py.truthy v = true → product_of d = Some v)
       ∧ (∀ p, product_of d = Some p → Py.truthy p = true → v = p).
Proof.
  unfold product_of. simpl.
  assert (∃ v, (∀ A (k : pyval → result A),
                  (ps ← Py.get (PDict d) "products" PNone;
                   if Py.truthy ps then
                     match ps with
                     | PList l => match l with x :: _ => Ok x | [] => Raise IndexError end
                     | _ => Ok PNone
                     end
                   else Ok ps) ≫= k = k v)
               ∧ (Py.truthy v = true →
                  match Py.lookup "products" d with
                  | Some (PList (x :: _)) => Some x
                  | _ => None
                  end = Some v)
               ∧ (∀ p, match Py.lookup "products" d with
                       | Some (PList (x :: _)) => Some x
                       | _ => None
                       end = Some p → Py.truthy p = true → v = p)) as (v & Hk & Hv1 & Hv2).
  { simpl. destruct (Py.lookup "products" d) as [ps|]; simpl.
    - destruct (Py.truthy ps) eqn:Es.
      + destruct ps as [| | | | |[|x l]|]; try done;
          try (exists PNone; by split_and!).
        exists x. split_and!; [done..|]. by intros p [= <-] _.
      + exists ps. rewrite Es. split_and!; try done.
        all: destruct ps as [| | | | |[|x l]|]; try done.
    - exists PNone. by split_and!. }
  destruct (Py.lookup "product" d) as [p0|]; simpl.
  - destruct (Py.truthy p0) eqn:E0.
    + exists p0. split_and!; [done | by rewrite E0 | by intros p [= <-] _].
    + exists v. split_and!; [intros A k; apply Hk | done | done].
  - exists v. split_and!; [intros A k; apply Hk | done | done].
Qed.

Lemma reviews_dict (d : pydict) :
  reviews_shape d = true ↔
  ∃ x, Py.por (default Py.EMPTY (Py.lookup "reviews" d)) Py.EMPTY = PDict x.
Proof.
  unfold reviews_shape, Py.por. destruct (Py.lookup "reviews" d) as [r|]; simpl.
  - destruct r as [| | | | | |x]; simpl;
      try (split; [intros _; by exists [] | done]).
    + destruct b; simpl; split; try done; [by intros [x [=]] | by exists []].
    + destruct (z =? 0); simpl; split; try done; [by exists [] | by intros [x [=]]].
    + destruct (PrimFloat.eqb f 0); simpl; split; try done; [by exists [] | by intros [x [=]]].
    + destruct (String.eqb s ""); simpl; split; try done; [by exists [] | by intros [x [=]]].
    + destruct l; simpl; split; try done; [by exists [] | by intros [x [=]]].
    + split; [intros _|done]. destruct x; eauto.
  - split; [intros _; by exists [] | done].
Qed.

Lemma current_price_shape (pd : pydict) :
  member_dict "priceInfo" pd (λ priceInfo, member_dict "currentPrice" priceInfo (λ _, true))
  = true ↔ ∃ v, current_price (PDict pd) = Ok v.
Proof.
  unfold current_price. rewrite member_dict_get. split.
  - intros (pi & H1 & (cp & H2 & _)%member_dict_get).
    rewrite H1, bind_ret_l, H2, bind_ret_l. simpl. eauto.
  - intros (v & Hrun). apply bind_ok in Hrun as (pi & Hpi & Hrun).
    apply bind_ok in Hrun as (cp & Hcp & Hrun).
    apply get_ok in Hrun as (cp' & -> & _). apply get_ok in Hcp as (pi' & -> & Hcp).
    exists pi'. split; [done|]. apply member_dict_get. exists cp'.
    split; [apply get_ok; eauto | done].
Qed.

Lemma bind_ok_intro {A B} (m : result A) (f : A → result B) (a : A) :
  m = Ok a → (∃ b, f a = Ok b) → ∃ b, m ≫= f = Ok b.
Proof. intros -> [b Hb]. by exists b. Qed.

Lemma or_else_dict (a : pyval) (pd : pydict) (k : string) (dflt : pyval) :
  Py.or_else a (Py.get (PDict pd) k dflt)
  = Ok (Py.por a (default dflt (Py.lookup k pd))).
Proof.
  unfold Py.or_else, Py.por. simpl. destruct (Py.truthy a); [done|].
  by destruct (Py.lookup k pd).
Qed.

Lemma data_shape_ok (d : pydict) :
  data_shape d = true → ∃ info, next_data_info (next_data_of d) = Ok info.
Proof.
  unfold data_shape. intros [Hr Hp]%andb_true_iff.
  destruct (product_of d) as [p|] eqn:Ep; [|done].
  unfold next_data_info. rewrite initial_data_of_next_data, bind_ret_l.
  destruct (product_step d) as (v & -> & Hv).
  destruct p as [| | | | | |[|kv pd]]; try done.
  destruct Hv as [_ Hv]. rewrite (Hv _ Ep eq_refl). clear v Hv.
  apply reviews_dict in Hr as [rv Hrv].
  apply (current_price_shape (kv :: pd)) in Hp as [price Hprice].
  eapply bind_ok_intro; [reflexivity|]. cbv beta.
  change (negb (Py.truthy (PDict (kv :: pd)))) with false. cbv iota.
  repeat (eapply bind_ok_intro;
          [ first [ reflexivity | exact Hprice | apply or_else_dict
                  | apply get_ok; eexists; split; [exact Hrv | reflexivity] ]
          | cbv beta ]).
  eauto.
Qed.

Lemma data_shape_of_ok (d : pydict) (info : record) :
  next_data_info (next_data_of d) = Ok info → data_shape d = true.
Proof.
  unfold next_data_info. rewrite initial_data_of_next_data, bind_ret_l.
  destruct (product_step d) as (v & -> & Hv & _). intros Hrun.
  apply bind_ok in Hrun as (r & Hr & Hrun).
  destruct (negb (Py.truthy v)) eqn:Et; [done|]. apply negb_false_iff in Et.
  apply bind_ok in Hrun as (name & Hname & Hrun).
  apply bind_ok in Hrun as (price & Hprice & Hrun).
  do 6 apply bind_ok in Hrun as (? & _ & Hrun).
  apply bind_ok in Hrun as (cr & Hcr & _).
  apply get_ok in Hname as (pd & -> & _).
  unfold data_shape. rewrite (Hv Et). apply andb_true_iff. split.
  - apply reviews_dict. apply get_ok in Hcr as (rv & Hrv & _).
    apply get_ok in Hr as (d' & [= <-] & ->). eauto.
  - destruct pd as [|kv pd]; [done|]. apply current_price_shape. eauto.
Qed.

Lemma data_shape_iff (d : pydict) :
  data_shape d = true ↔ ∃ info, next_data_info (next_data_of d) = Ok info.
Proof.
  split; [apply data_shape_ok | intros [info Hrun]; by eapply data_shape_of_ok].
Qed.

(** Strategy 1 yields a record exactly for documents of that
    structure. *)
Lemma next_data_shape_iff (data : pyval) :
  next_data_shape data = true ↔ ∃ info, next_data_info data = Ok info.
Proof.
  rewrite initial_data_shape. split.
  - intros (d & Hd & Hs). apply data_shape_ok in Hs as [info Hinfo]. exists info.
    rewrite <- Hinfo. apply next_data_info_ext. by rewrite Hd.
  - intros (info & Hinfo). pose proof Hinfo as Hrun. unfold next_data_info in Hrun.
    apply bind_ok in Hrun as (v & Hv & Hrun).
    apply bind_ok in Hrun as (p & Hp & _). apply get_ok in Hp as (d & -> & _).
    exists d. split; [done|]. apply (data_shape_of_ok d info).
    rewrite <- Hinfo. apply next_data_info_ext. by rewrite Hv.
Qed.

End ShapeFacts.

Section RecordExtractor.
Import PyStr PyStrFacts RecordFacts RecordSpec ShapeFacts.
Context `{JsonLib}.

(** C1, amended.  Strategy 1 yields a record exactly when the framework
    JSON has the structure that [parse_next_data] expects.  On a page
    whose framework script holds JSON of that structure the extraction
    returns the record of strategy 1, under every parser that finds that
    script, whatever linked-data scripts it finds: the linked data has no
    part in the result.  [prod_info] returns that record for a page that
    passed the challenge check and the parser.  In all, strategy 1 yields
    a record exactly for the pages whose framework script has text that
    decodes to JSON of that structure; on any other page the extraction
    goes on to the other strategies. *)
Theorem C1_strategy_priority :
  (∀ data, next_data_shape data = true ↔ ∃ info, next_data_info data = Ok info)
  ∧ (∀ (D D' : HtmlDom) html script data,
       @find_script_id D html "__NEXT_DATA__" = Some script →
       @find_script_id D' html "__NEXT_DATA__" = Some script →
       UrlParse.nonempty (tag_text script) = true →
       json_loads (tag_text script) = Ok data →
       next_data_shape data = true →
       ∃ info, next_data_info data = Ok info
               ∧ @extract_record D _ html = Ok info
               ∧ @extract_record D' _ html = Ok info)
  ∧ (∀ (D : HtmlDom) W (S : Session W) url (w w' : W) html script data,
       session_get url w = (Ok html, w') → is_bot_page html = false →
       soup_raises html = None →
       find_script_id html "__NEXT_DATA__" = Some script →
       UrlParse.nonempty (tag_text script) = true →
       json_loads (tag_text script) = Ok data →
       next_data_shape data = true →
       ∃ info, next_data_info data = Ok info ∧ prod_info url w = (Ok info, w'))
  ∧ (∀ (D : HtmlDom) html,
       (∃ info, next_data_strategy html = Some info) ↔
       ∃ script data,
         find_script_id html "__NEXT_DATA__" = Some script
         ∧ UrlParse.nonempty (tag_text script) = true
         ∧ json_loads (tag_text script) = Ok data
         ∧ next_data_shape data = true).
Proof.
  assert (∀ (D : HtmlDom) html script data info,
            find_script_id html "__NEXT_DATA__" = Some script →
            UrlParse.nonempty (tag_text script) = true →
            json_loads (tag_text script) = Ok data →
            next_data_info data = Ok info →
            extract_record html = Ok info) as Hfirst.
  { intros D html script data info Hfind Hne Hjson Hinfo.
    unfold extract_record, next_data_strategy, parse_next_data.
    by rewrite Hfind, Hne, Hjson, bind_ret_l, Hinfo. }
  split_and!.
  - apply next_data_shape_iff.
  - intros D D' html script data HD HD' Hne Hjson Hshape.
    apply next_data_shape_iff in Hshape as [info Hinfo]. exists info.
    split_and!; [done | by eapply Hfirst | by eapply Hfirst].
  - intros D W S url w w' html script data Hget Hbot Hsoup Hfind Hne Hjson Hshape.
    apply next_data_shape_iff in Hshape as [info Hinfo]. exists info. split; [done|].
    unfold prod_info. rewrite Hget, Hbot, Hsoup. f_equal. by eapply Hfirst.
  - intros D html. unfold next_data_strategy, parse_next_data. split.
    + intros [info Hs]. destruct (find_script_id html _) as [script|]; [|done].
      destruct (UrlParse.nonempty _) eqn:Hne; [|done].
      destruct (json_loads _) as [data|e] eqn:Hjson; [|done].
      rewrite bind_ret_l in Hs.
      destruct (next_data_info data) as [i|e] eqn:E; [|done].
      exists script, data. split_and!; [done..|]. apply next_data_shape_iff. eauto.
    + intros (script & data & -> & -> & -> & Hshape).
      apply next_data_shape_iff in Hshape as [info Hinfo]. exists info.
      by rewrite bind_ret_l, Hinfo.
Qed.

Lemma heuristic_needs_props_marker (html : string) :
  contains PROPS_MARKER html = false → heuristic_strategy html = None.
Proof.
  intros Hno. unfold heuristic_strategy. apply find_none in Hno. rewrite Hno.
  by destruct (contains PRODUCT_MARKER html).
Qed.

Lemma extract_record_exhausted `{HtmlDom} (html : string) :
  next_data_strategy html = None → ld_json_strategy html = Ok None →
  heuristic_strategy html = None →
  extract_record html = Raise (RuntimeError (NO_DATA_MSG +:+ page_sample html)).
Proof. intros H1 H2 H3. unfold extract_record. by rewrite H1, H2, H3. Qed.

(** C9, amended.  When the three strategies have found nothing,
    [prod_info] raises the error whose message ends with a sample of the
    page: the first 1200 characters with line feeds turned into blanks and
    the white space at both ends removed.  The sample is at most 1200
    characters long and part of the message; it is empty exactly when
    those 1200 characters are all white space. *)
Theorem C9_no_structured_data_error `{HtmlDom} (html : string) :
  next_data_strategy html = None → ld_json_strategy html = Ok None →
  heuristic_strategy html = None →
  extract_record html = Raise (RuntimeError (NO_DATA_MSG +:+ page_sample html))
  ∧ occurs (page_sample html) (replace_char newline " " (take 1200 html))
  ∧ (len (page_sample html) ≤ 1200)%nat
  ∧ mem_char newline (page_sample html) = false
  ∧ strip (page_sample html) = page_sample html
  ∧ (page_sample html = "" ↔ all_chars isspace (take 1200 html) = true).
Proof.
  intros H1 H2 H3. split; [by apply extract_record_exhausted|].
  apply page_sample_spec.
Qed.

(** On a page without the opening marker of the framework JSON the
    heuristic strategy returns nothing, whatever else the page holds and
    whatever the JSON decoder would read; so when strategy 1 has found
    nothing and strategy 2 has run to its end without a match, the
    extraction ends in the error that carries the page sample. *)
Lemma no_props_marker_exhausted `{HtmlDom} (html : string) :
  contains PROPS_MARKER html = false →
  heuristic_strategy html = None
  ∧ (next_data_strategy html = None → ld_json_strategy html = Ok None →
     extract_record html = Raise (RuntimeError (NO_DATA_MSG +:+ page_sample html))).
Proof.
  intros Hno. pose proof (heuristic_needs_props_marker html Hno) as H3.
  split; [done|]. intros H1 H2. by apply extract_record_exhausted.
Qed.

End RecordExtractor.

(** A page with both kinds of data: the linked data would give another
    name, and the record is the one of the framework JSON. *)
Lemma C1_witness :
  @ld_json_strategy Fixtures.product_dom Fixtures.product_json Fixtures.page_both
  = Ok (Some [ ("name", PStr "Phone 15 (linked data)"); ("price", PStr "799.00");
               ("availability", PNone); ("brand", PNone); ("model", PStr "SKU-15");
               ("features", PStr ""); ("rating", PFloat 4.25%float);
               ("review_count", PInt 10) ])
  ∧ next_data_info Fixtures.next_data_value
    = Ok [ ("name", PStr "Phone 15"); ("price", PInt 799);
           ("availability", PStr "IN_STOCK"); ("brand", PStr "Acme");
           ("model", PStr "A15"); ("features", PList [ PStr "5G" ]);
           ("rating", PFloat 4.5%float); ("review_count", PInt 12) ]
  ∧ ∃ info,
      next_data_info Fixtures.next_data_value = Ok info
      ∧ @extract_record Fixtures.product_dom Fixtures.product_json Fixtures.page_both
        = Ok info
      ∧ @extract_record Fixtures.product_dom_no_ld Fixtures.product_json Fixtures.page_both
        = Ok info.
Proof.
  split_and!.
  - vm_compute. reflexivity.
  - vm_compute. reflexivity.
  - apply (proj1 (proj2 (@C1_strategy_priority Fixtures.product_json))
             Fixtures.product_dom Fixtures.product_dom_no_ld Fixtures.page_both
             (Fixtures.script Fixtures.next_data_text) Fixtures.next_data_value);
      vm_compute; reflexivity.
Defined.

(** Framework JSON that decodes and names the product, with a null
    [priceInfo]: line 119 raises, line 156 swallows the error, and the
    record is the one of the linked data. *)
Lemma C1_counterexample :
  @json_loads Fixtures.null_price_json Fixtures.next_null_price_text
  = Ok Fixtures.next_null_price_value
  ∧ @parse_next_data Fixtures.null_price_json Fixtures.next_null_price_text
    = Raise AttributeError
  ∧ @extract_record Fixtures.null_price_dom Fixtures.null_price_json
      Fixtures.page_null_price
    = Ok [ ("name", PStr "Phone 15 (linked data)"); ("price", PStr "799.00");
           ("availability", PNone); ("brand", PNone); ("model", PStr "SKU-15");
           ("features", PStr ""); ("rating", PFloat 4.25%float);
           ("review_count", PInt 10) ].
Proof. split_and!; vm_compute; reflexivity. Qed.

(** C3 at its failing inputs.  Linked data without [aggregateRating]
    gives a record whose rating and review count are [None], and framework
    JSON without ratings gives a record whose rating is [None]; the
    heuristic strategy fills in 0 for both. *)
Theorem C3_rating_defaults_diverge :
  @extract_record Fixtures.product_dom Fixtures.product_json Fixtures.page_ld_bare
  = Ok [ ("name", PStr "Widget"); ("price", PNone); ("availability", PNone);
         ("brand", PNone); ("model", PStr "N/A"); ("features", PStr "");
         ("rating", PNone); ("review_count", PNone) ]
  ∧ @extract_record Fixtures.product_dom Fixtures.product_json Fixtures.page_next_bare
    = Ok [ ("name", PStr "Widget"); ("price", PNone); ("availability", PNone);
           ("brand", PNone); ("model", PStr "N/A"); ("features", PList []);
           ("rating", PNone); ("review_count", PInt 0) ]
  ∧ @heuristic_strategy Fixtures.product_json Fixtures.page_next_bare
    = Some [ ("name", PStr "Widget"); ("price", PNone); ("availability", PNone);
             ("brand", PNone); ("model", PStr "N/A"); ("features", PList []);
             ("rating", PInt 0); ("review_count", PInt 0) ].
Proof. split_and!; vm_compute; reflexivity. Qed.

(** A page that is one blank: it is not empty, and its sample is. *)
Lemma C9_counterexample :
  PyStr.len Fixtures.page_blank = 1%nat
  ∧ @extract_record Fixtures.product_dom Fixtures.product_json Fixtures.page_blank
    = Raise (RuntimeError (NO_DATA_MSG +:+ "")).
Proof. split; vm_compute; reflexivity. Qed.

Lemma C9_witness :
  @extract_record Fixtures.product_dom Fixtures.product_json Fixtures.page_plain
  = Raise (RuntimeError (NO_DATA_MSG +:+ "<html> <body>Sold out</body></html>")).
Proof.
  apply (proj1 (@C9_no_structured_data_error Fixtures.product_json Fixtures.product_dom
                  Fixtures.page_plain eq_refl eq_refl eq_refl)).
Defined.

(** A page that holds the product marker and not the opening marker:
    even a decoder that would read a product out of anything is not
    asked. *)
Example marker_only_page_exhausted :
  PyStr.contains PRODUCT_MARKER Fixtures.page_marker_only = true
  ∧ @heuristic_strategy Fixtures.eager_json Fixtures.page_marker_only = None
  ∧ @extract_record Fixtures.product_dom Fixtures.eager_json Fixtures.page_marker_only
    = Raise (RuntimeError (NO_DATA_MSG +:+ page_sample Fixtures.page_marker_only)).
Proof.
  pose proof (@no_props_marker_exhausted Fixtures.eager_json Fixtures.product_dom
                Fixtures.page_marker_only eq_refl) as [H3 Hall].
  split_and!; [reflexivity | exact H3 | exact (Hall eq_refl eq_refl)].
Qed.

(** C10.  Without the opening marker of the framework JSON strategy 3
    returns nothing, whatever the page holds besides.  But the extraction
    does not always end in the error with the page sample when the first
    two strategies fail as well: on a page without the marker and without a
    framework script, whose linked data has a list for its type, line 176
    raises an [AttributeError] that nothing around strategy 2 catches, and
    this error is what leaves the extraction. *)
Theorem C10_linked_data_error_escapes :
  (∀ (J : JsonLib) html,
     PyStr.contains PROPS_MARKER html = false → heuristic_strategy html = None)
  ∧ PyStr.contains PROPS_MARKER Fixtures.page_ld_typed_list = false
  ∧ @next_data_strategy Fixtures.typed_list_dom Fixtures.typed_list_json
      Fixtures.page_ld_typed_list = None
  ∧ @ld_json_strategy Fixtures.typed_list_dom Fixtures.typed_list_json
      Fixtures.page_ld_typed_list = Raise AttributeError
  ∧ @extract_record Fixtures.typed_list_dom Fixtures.typed_list_json
      Fixtures.page_ld_typed_list = Raise AttributeError
  ∧ @prod_info Fixtures.typed_list_dom Fixtures.typed_list_json _
      (Fixtures.session [ ("https://www.walmart.com/ip/Widget/1",
                           Ok Fixtures.page_ld_typed_list) ])
      "https://www.walmart.com/ip/Widget/1" []
    = (Raise AttributeError, [ "https://www.walmart.com/ip/Widget/1" ]).
Proof.
  split; [intros J html; apply (@heuristic_needs_props_marker J html)|].
  split_and!; vm_compute; reflexivity.
Qed.

(** Linked data whose type is a list makes line 176 raise, and nothing
    around the second strategy catches it. *)
Lemma ld_typed_list_escapes :
  @extract_record Fixtures.typed_list_dom Fixtures.typed_list_json
     Fixtures.page_ld_typed_list
  = Raise AttributeError.
Proof. vm_compute. reflexivity. Qed.

(* ================================================================= *)
(** ** SearchPipeline *)

Module PipelineFacts.

Lemma product_failures_app (l1 l2 : list event) :
  product_failures (l1 ++ l2) = (product_failures l1 + product_failures l2)%nat.
Proof.
  induction l1 as [|ev l1 IH]; [done|]. destruct ev; simpl; by rewrite ?IH.
Qed.

Lemma lookup_set (k : string) (v : pyval) (d : pydict) :
  Py.lookup k (Py.set k v d) = Some v.
Proof.
  induction d as [|[k' v'] d IH]; simpl.
  - by rewrite String.eqb_refl.
  - destruct (String.eqb k' k) eqn:E; simpl; [by rewrite String.eqb_refl|].
    by rewrite E.
Qed.

(** Turn the outcome of a [>=?] test into an inequality. *)
Ltac geb_to_prop :=
  repeat match goal with
    | E : (_ >=? _) = true |- _ => rewrite Z.geb_leb in E; apply Z.leb_le in E
    | E : (_ >=? _) = false |- _ => rewrite Z.geb_leb in E; apply Z.leb_gt in E
    end.


Lemma add_urls_at_most_one (m : Z) (urls : list string) (c : Collected) :
  m ≤ 0 → collected_urls c = [] → (length (collected_urls (add_urls m urls c)) ≤ 1)%nat.
Proof.
  intros Hm. revert c. induction urls as [|u rest IH]; intros c Hc; simpl.
  - rewrite Hc. simpl. lia.
  - destruct (decide (u ∈ collected_set c)); [by apply IH|].
    destruct (_ >=? m) eqn:E.
    + simpl. rewrite Hc. simpl. lia.
    + simpl in E. rewrite Hc in E. simpl in E. geb_to_prop. lia.
Qed.

Section WithCollaborators.
Context `{UrlLib, HtmlDom, RegexLib, JsonLib} {W : Type} `{Session W}.







Lemma page_loop_at_most_one (query : string) (m : Z) (pages : list Z)
    (c : Collected) (w : W) :
  m ≤ 0 → collected_urls c = [] →
  (length (collected_urls (page_loop query m pages c w).1.1) ≤ 1)%nat.
Proof.
  intros Hm Hc. destruct pages as [|p pages]; simpl; [rewrite Hc; simpl; lia|].
  destruct (get_link query p w) as [[urls|e0] w1]; simpl; [|rewrite Hc; simpl; lia].
  pose proof (add_urls_at_most_one m urls c Hm Hc).
  destruct (_ >=? m) eqn:E; simpl; [done|]. geb_to_prop. lia.
Qed.

Lemma page_loop_log (query : string) (m : Z) (pages : list Z) (c : Collected) (w : W) :
  product_failures (page_loop query m pages c w).1.2 = 0%nat.
Proof.
  revert c w. induction pages as [|p pages IH]; intros c w; simpl; [done|].
  destruct (get_link query p w) as [[urls|e0] w1]; simpl; [|done].
  destruct (_ >=? m); [done|]. apply IH.
Qed.


(** Every URL is asked for, and gives a record or a logged failure;
    each record carries the URL it came from. *)
Lemma product_loop_counts (total i : Z) (urls : list string) (w : W) :
  let '(results, log, _) := product_loop total i urls w in
  (length results + product_failures log = length urls)%nat
  ∧ fetch_attempts log = length urls
  ∧ ∀ info, info ∈ results → ∃ url, url ∈ urls ∧ Py.lookup "url" info = Some (PStr url).
Proof.
  revert i w. induction urls as [|url rest IH]; intros i w; simpl.
  - split_and!; [done..|]. by intros info ?%elem_of_nil.
  - destruct (prod_info url w) as [r w1]. specialize (IH (i + 1) w1).
    destruct (product_loop total (i + 1) rest w1) as [[results log] w2].
    destruct IH as (Hn & Hf & Hu). destruct r as [info|e]; simpl.
    + split_and!; [lia..|]. intros i0 [-> | Hin]%elem_of_cons.
      * exists url. split; [by left | apply lookup_set].
      * destruct (Hu _ Hin) as (u & ? & ?). exists u. split; [by right|done].
    + split_and!; [lia..|]. intros i0 Hin.
      destruct (Hu _ Hin) as (u & ? & ?). exists u. split; [by right|done].
Qed.



End WithCollaborators.

End PipelineFacts.

Section PipelineClaims.
Import PipelineFacts.
Context `{UrlLib, HtmlDom, RegexLib, JsonLib} {W : Type} `{Session W}.


End PipelineClaims.

(* ================================================================= *)
(** * Further properties *)

(** ** URLNormalizer and LinkExtractor *)

Module MoreUrlFacts.
Import PyStr PyStrFacts UrlParse UrlSpec UrlFacts.

Lemma startswith_app_stops (q : ascii → bool) (p b s : string) :
  all_chars q p = true → stops q s → startswith p (b +:+ s) = startswith p b.
Proof.
  intros Hp Hs. revert b. induction p as [|a p IH]; intros b; [done|].
  simpl in Hp. apply andb_true_iff in Hp as [Ha Hp]. destruct b as [|x b].
  - rewrite app_nil_l. destruct Hs as [-> | (c & t & -> & Hc)]; [done|]. simpl.
    destruct (Ascii.eqb_spec a c) as [->|]; [congruence|done].
  - rewrite app_cons. simpl. by rewrite IH.
Qed.

Lemma all_chars_split_scheme (p : ascii → bool) (u : string) :
  all_chars p u = true → all_chars p (split_scheme u).2 = true.
Proof.
  intros Hu. unfold split_scheme. destruct (find ":" u); [|done].
  destruct (_ && _); [|done]. simpl. by apply all_chars_drop.
Qed.

Lemma all_chars_clean (p : ascii → bool) (x : string) :
  all_chars p x = true → all_chars p (clean x) = true.
Proof.
  intros Hx. unfold clean, unsafe_url_bytes. cbn [foldl].
  by do 3 apply all_chars_remove_char; apply all_chars_lstrip.
Qed.

Lemma remove_unsafe_safe (s : string) : all_chars safe_char (remove_unsafe s) = true.
Proof.
  unfold remove_unsafe, unsafe_url_bytes. cbn [foldl].
  rewrite (all_chars_ext _ _ _ safe_char_split), !all_chars_and.
  rewrite !andb_true_iff. repeat split.
  - do 2 apply all_chars_remove_char. apply all_chars_removed.
  - apply all_chars_remove_char. apply all_chars_removed.
  - apply all_chars_removed.
Qed.

Lemma remove_unsafe_id (s : string) :
  all_chars safe_char s = true → remove_unsafe s = s.
Proof.
  intros Hs. unfold remove_unsafe, unsafe_url_bytes. cbn [foldl].
  rewrite (all_chars_ext _ _ _ safe_char_split), !all_chars_and in Hs.
  apply andb_true_iff in Hs as [H1 Hs]. apply andb_true_iff in Hs as [H2 H3].
  rewrite (remove_char_id "009") by exact H1.
  rewrite (remove_char_id "013") by exact H2.
  by rewrite (remove_char_id "010") by exact H3.
Qed.

Lemma remove_unsafe_cons (c : ascii) (s : string) :
  safe_char c = true → remove_unsafe (String c s) = String c (remove_unsafe s).
Proof.
  intros Hc. unfold remove_unsafe, unsafe_url_bytes. cbn [foldl].
  rewrite safe_char_split in Hc. unfold isnt in Hc.
  apply andb_true_iff in Hc as [H1 Hc]. apply andb_true_iff in Hc as [H2 H3].
  apply negb_true_iff in H1, H2, H3. simpl. rewrite H1. simpl. rewrite H2. simpl.
  by rewrite H3.
Qed.

Section WithUrlLib.
Context `{UrlLib}.

Lemma normalize_raise_cases (raw : string) (e : exn) :
  normalize_product_url raw = Raise e →
  (∃ msg, e = ValueError msg)
  ∧ (mem_char "[" raw = true ∨ mem_char "]" raw = true).
Proof.
  rewrite normalize_spec, split_netloc_spec.
  set (u1 := (split_scheme (clean raw)).2).
  destruct (String.eqb (take 2 u1) "//"); [|done]. cbv zeta.
  set (nl := take_while not_delim (drop 2 u1)).
  assert (∀ c, mem_char c nl = true → mem_char c raw = true) as Hsub.
  { intros c Hc. destruct (mem_char c raw) eqn:E; [done|].
    assert (all_chars (isnt c) nl = true) as Hall.
    { apply all_chars_take_while_other, all_chars_drop, all_chars_split_scheme,
        all_chars_clean. unfold isnt. by rewrite all_chars_not_mem, E. }
    unfold isnt in Hall. rewrite all_chars_not_mem, Hc in Hall. done. }
  unfold unbalanced_brackets.
  destruct (mem_char "[" nl) eqn:E1, (mem_char "]" nl) eqn:E2; simpl;
    try (intros [= <-]; split; [eauto|]; auto); try done.
  destruct (check_bracketed_netloc nl) as [msg|]; [|done]. intros [= <-].
  split; [eauto | auto].
Qed.

Lemma canonical_site_relative (href : string) :
  startswith "/" href = true →
  canonical_href href = WALMART +:+ cut_query_fragment (remove_unsafe href).
Proof.
  intros Hs. apply startswith_spec in Hs as [rest ->].
  change ("/" +:+ rest) with (String "/" rest).
  unfold canonical_href. cbn [startswith Ascii.eqb Bool.eqb andb].
  rewrite normalize_spec.
  assert (clean (WALMART +:+ String "/" rest)
          = "https" +:+ ":" +:+ "//www.walmart.com" +:+ String "/" (remove_unsafe rest)) as ->.
  { unfold clean, unsafe_url_bytes. cbn [foldl].
    change (lstrip_with c0_control_or_space (WALMART +:+ String "/" rest))
      with (WALMART +:+ String "/" rest).
    rewrite !remove_char_app. reflexivity. }
  rewrite split_scheme_parts by apply good_scheme_https. cbn [fst snd].
  rewrite split_netloc_spec.
  change (take 2 ("//www.walmart.com" +:+ ?r)) with "//".
  change (drop 2 ("//www.walmart.com" +:+ ?r)) with ("www.walmart.com" +:+ r).
  cbn [String.eqb Ascii.eqb Bool.eqb]. cbv zeta.
  assert (stops not_delim (String "/" (remove_unsafe rest))) as Hst
    by (right; eauto using slash_not_delim).
  rewrite take_while_prefix, drop_while_prefix by done.
  cbn [unbalanced_brackets mem_char Ascii.eqb Bool.eqb orb andb negb try_catch].
  rewrite urlunsplit_parts by done. cbn [take_while].
  change (not_qf "/") with true. cbn iota.
  rewrite remove_unsafe_cons by done. unfold cut_query_fragment. cbn [take_while].
  change (not_qf "/") with true. reflexivity.
Qed.

Lemma canonical_same (x y : string) :
  same_up_to_query_fragment x y → canonical_href x = canonical_href y.
Proof.
  intros (base & s1 & s2 & -> & -> & _ & H1 & H2). unfold canonical_href.
  rewrite !fallback_cut. unfold cut_query_fragment.
  rewrite !(startswith_app_stops not_qf "http") by done.
  rewrite !take_while_app by done.
  destruct (startswith "http" base).
  - by rewrite (normalize_app base s1), (normalize_app base s2) by done.
  - rewrite <- (app_assoc WALMART base s1), <- (app_assoc WALMART base s2).
    by rewrite (normalize_app (WALMART +:+ base) s1),
         (normalize_app (WALMART +:+ base) s2) by done.
Qed.

End WithUrlLib.

End MoreUrlFacts.

Module RegexFacts.
Import PyStr PyStrFacts UrlSpec ProductPathRe.

Lemma group1_shape (t g : string) :
  group1 t = Some g →
  ∃ run r, g = "/ip/" +:+ run ∧ run ≠ "" ∧ all_chars path_char run = true
           ∧ t = g +:+ r.
Proof.
  unfold group1. destruct (startswith "/ip/" t) eqn:E; [|done].
  apply startswith_spec in E as [t' ->]. change (drop 4 ("/ip/" +:+ t')) with t'.
  destruct (UrlParse.nonempty _) eqn:En; [|done]. intros [= <-].
  exists (take_while path_char t'), (drop_while path_char t'). split_and!.
  - done.
  - intros Hnil. by rewrite Hnil in En.
  - apply all_chars_take_while.
  - by rewrite app_assoc, take_drop_while.
Qed.

Lemma occurs_cons (m s : string) (c : ascii) : occurs m s → occurs m (String c s).
Proof. intros (pre & suf & ->). by exists (String c pre), suf. Qed.

Lemma match_at_shape (s g : string) (n : nat) :
  match_at s = Some (g, n) →
  (∃ run, g = "/ip/" +:+ run ∧ run ≠ "" ∧ all_chars path_char run = true)
  ∧ occurs g s.
Proof.
  unfold match_at. destruct (host_part s) as [k|] eqn:Ek.
  - destruct (group1 (drop k s)) as [g'|] eqn:Eg; simpl.
    + intros [= <- <-]. apply group1_shape in Eg as (run & r & -> & ? & ? & Hs).
      split; [eauto|]. exists (take k s), r. by rewrite <- Hs, take_drop.
    + destruct (group1 s) as [g'|] eqn:Eg'; simpl; [|done]. intros [= <- <-].
      apply group1_shape in Eg' as (run & r & -> & ? & ? & Hs).
      split; [eauto|]. exists "", r. by rewrite app_nil_l.
  - destruct (group1 s) as [g'|] eqn:Eg'; simpl; [|done]. intros [= <- <-].
    apply group1_shape in Eg' as (run & r & -> & ? & ? & Hs).
    split; [eauto|]. exists "", r. by rewrite app_nil_l.
Qed.

Lemma findall_from_shape (skip : nat) (s g : string) :
  g ∈ findall_from skip s →
  (∃ run, g = "/ip/" +:+ run ∧ run ≠ "" ∧ all_chars path_char run = true)
  ∧ occurs g s.
Proof.
  revert skip. induction s as [|c s IH]; intros skip; simpl; [by intros ?%elem_of_nil|].
  destruct skip as [|k].
  - destruct (match_at (String c s)) as [[g' n]|] eqn:Em.
    + intros [-> | Hin]%elem_of_cons; [by eapply match_at_shape|].
      destruct (IH _ Hin) as [? ?]. split; [done|]. by apply occurs_cons.
    + intros Hin. destruct (IH _ Hin) as [? ?]. split; [done|]. by apply occurs_cons.
  - intros Hin. destruct (IH _ Hin) as [? ?]. split; [done|]. by apply occurs_cons.
Qed.

Lemma cut_product_path (run : string) :
  cut_query_fragment ("/ip/" +:+ run) = "/ip/" +:+ cut_query_fragment run.
Proof. reflexivity. Qed.

Lemma regex_loop_keeps_all (raw_matches : list string) :
  Forall (λ g, ∃ run, g = "/ip/" +:+ run) raw_matches →
  regex_loop raw_matches = (λ p, WALMART +:+ cut_query_fragment p) <$> raw_matches.
Proof.
  induction 1 as [|g l [run ->] _ IH]; [done|]. simpl.
  rewrite fallback_cut, cut_product_path.
  change (startswith "/ip/" ("/ip/" +:+ ?r)) with true. simpl. by rewrite IH.
Qed.

End RegexFacts.

Module MoreDedupeFacts.
Import DedupeFacts.

#[local] Set Warnings "-clear-no-such-hyp".

Lemma first_seen_NoDup_id (us : list string) (seen : gset string) :
  NoDup us → (∀ x, x ∈ us → x ∉ seen) → first_seen us seen = us.
Proof.
  revert seen. induction us as [|u us IH]; intros seen Hnd Hfresh; [done|].
  apply NoDup_cons in Hnd as [Hu Hnd]. simpl.
  destruct (decide (u ∈ seen)) as [Hin|_]; [destruct (Hfresh u); [by left|done]|].
  f_equal. apply IH; [done|]. intros x Hx. specialize (Hfresh x ltac:(by right)).
  set_solver.
Qed.

Lemma dedupe_NoDup_id (us : list string) : NoDup us → dedupe us = us.
Proof.
  intros Hnd. rewrite dedupe_first_seen. apply first_seen_NoDup_id; [done|set_solver].
Qed.

Lemma first_seen_length (us : list string) (seen : gset string) :
  (length (first_seen us seen) ≤ length us)%nat.
Proof.
  revert seen. induction us as [|u us IH]; intros seen; simpl; [done|].
  destruct (decide (u ∈ seen)); simpl; [specialize (IH seen) | specialize (IH ({[u]} ∪ seen))]; lia.
Qed.

End MoreDedupeFacts.

Section MoreLinkExtractor.
Import PyStr PyStrFacts UrlSpec UrlFacts DedupeFacts MoreUrlFacts RegexFacts MoreDedupeFacts.
Context `{UrlLib}.

#[local] Set Warnings "-clear-no-such-hyp".

(** X1.  Whatever [normalize_product_url] raises is a [ValueError], the
    one of [urlsplit] for a lone bracket or the one of the library's check
    of a bracketed host.  On ASCII text without a square bracket it raises
    nothing and returns an absolute URL without query string and fragment.
    (Text that is not ASCII is left out: [urlsplit] tests the NFKC form of
    such a host, which no character of these strings can fail.) *)
Theorem X1_normalize_raises_value_error (raw : string) :
  (∀ e, normalize_product_url raw = Raise e → ∃ msg, e = ValueError msg)
  ∧ (all_chars ascii_char raw = true →
     mem_char "[" raw = false → mem_char "]" raw = false →
     ∃ u, normalize_product_url raw = Ok u ∧ absolute u ∧ no_query_fragment u).
Proof.
  split; [intros e He; by apply normalize_raise_cases in He as [? _]|].
  intros _ H1 H2.
  destruct (normalize_product_url raw) as [u|e] eqn:E.
  - exists u. split_and!; [done| |].
    + by eapply normalize_absolute.
    + by eapply normalize_no_query_fragment.
  - apply normalize_raise_cases in E as [_ [E | E]]; congruence.
Qed.

(** X2.  For an href that starts with a slash, the canonical URL of
    [get_link] is the canonical host followed by the href without its tabs
    and line breaks and without everything from its first [?] or [#] on.
    When the href holds no tab or line break this is also what the
    [except] branch of lines 77-78 computes, so the two branches agree. *)
Theorem X2_site_relative_href (href : string) :
  startswith "/" href = true →
  canonical_href href = WALMART +:+ cut_query_fragment (remove_unsafe href)
  ∧ (all_chars safe_char href = true →
     canonical_href href = WALMART +:+ split_first "#" (split_first "?" href)).
Proof.
  intros Hs. split; [by apply canonical_site_relative|]. intros Hsafe.
  rewrite canonical_site_relative, fallback_cut by done.
  by rewrite remove_unsafe_id.
Qed.

(** X3.  Two hrefs that are one text followed by different query strings
    or fragments have the same canonical URL, so the dedupe of [get_link]
    keeps one entry for the two. *)
Theorem X3_tracking_parameters_collapse (x y : string) :
  same_up_to_query_fragment x y →
  canonical_href x = canonical_href y
  ∧ dedupe [ canonical_href x; canonical_href y ] = [ canonical_href x ].
Proof.
  intros Hxy. pose proof (canonical_same x y Hxy) as E. split; [done|].
  rewrite <- E, dedupe_first_seen. simpl.
  destruct (decide (canonical_href x ∈ (∅ : gset string))); [set_solver|].
  destruct (decide (canonical_href x ∈ ({[canonical_href x]} ∪ ∅ : gset string)));
    [done|set_solver].
Qed.

(** X6.  Every URL that [get_link] returns is absolute: a scheme, [://]
    and a host, whichever strategy produced it. *)
Theorem X6_get_link_urls_absolute `{HtmlDom, RegexLib} (html u : string) :
  u ∈ get_link_urls html → absolute u.
Proof.
  unfold get_link_urls. intros Hu. apply (proj1 (elem_of_dedupe _ _)) in Hu.
  unfold product_urls in Hu. destruct (anchor_urls html) as [|a l] eqn:E.
  - clear E. induction (findall_product_paths html) as [|p rest IH]; simpl in Hu;
      [by apply elem_of_nil in Hu|].
    destruct (negb _); [auto|]. apply elem_of_cons in Hu as [-> | Hu]; [|auto].
    apply fallback_absolute.
  - rewrite <- E in Hu. unfold anchor_urls in Hu.
    apply list_elem_of_fmap in Hu as (href & -> & _). apply canonical_href_absolute.
Qed.

End MoreLinkExtractor.

(** X4.  Every match of the product-path pattern is [/ip/] followed by at
    least one character, none of them a quote, a backslash, white space or
    an angle bracket, and it is a piece of the page text. *)
Theorem X4_findall_matches_are_product_paths (html g : string) :
  g ∈ ProductPathRe.findall html →
  (∃ run, g = "/ip/" +:+ run ∧ run ≠ ""
          ∧ PyStr.all_chars ProductPathRe.path_char run = true)
  ∧ PyStr.occurs g html.
Proof. apply RegexFacts.findall_from_shape. Qed.

(** X5.  On the matches of the pattern the guard of line 87 never fires:
    the fallback loop turns every match into a URL, the canonical host
    followed by the match cut at its first [?] or [#], and each of these
    URLs starts with the host and [/ip/]. *)
Theorem X5_regex_loop_keeps_every_match (html : string) :
  regex_loop (ProductPathRe.findall html)
  = (λ p, WALMART +:+ UrlSpec.cut_query_fragment p) <$> ProductPathRe.findall html
  ∧ Forall (λ u, PyStr.startswith "https://www.walmart.com/ip/" u = true)
           (regex_loop (ProductPathRe.findall html)).
Proof.
  assert (Forall (λ g, ∃ run, g = "/ip/" +:+ run) (ProductPathRe.findall html)) as Hall.
  { apply Forall_forall. intros g Hg.
    apply RegexFacts.findall_from_shape in Hg as [(run & -> & _) _]. eauto. }
  split; [by apply RegexFacts.regex_loop_keeps_all|].
  rewrite RegexFacts.regex_loop_keeps_all by done. apply Forall_fmap.
  eapply Forall_impl; [exact Hall|]. by intros g [run ->].
Qed.

(** X7.  The dedupe of [get_link] leaves a list without repetition as it
    is, is idempotent, and never makes a list longer. *)
Theorem X7_dedupe_idempotent (us : list string) :
  (NoDup us → dedupe us = us)
  ∧ dedupe (dedupe us) = dedupe us
  ∧ (length (dedupe us) ≤ length us)%nat.
Proof.
  split_and!.
  - apply MoreDedupeFacts.dedupe_NoDup_id.
  - apply MoreDedupeFacts.dedupe_NoDup_id, DedupeFacts.NoDup_dedupe.
  - rewrite DedupeFacts.dedupe_first_seen. apply MoreDedupeFacts.first_seen_length.
Qed.

Lemma X1_witness :
  ∃ u, @normalize_product_url Fixtures.urllib "HTTP://Example.com:80/a b?x" = Ok u
       ∧ UrlSpec.absolute u ∧ UrlSpec.no_query_fragment u.
Proof.
  apply (proj2 (@X1_normalize_raises_value_error Fixtures.urllib
                  "HTTP://Example.com:80/a b?x")); reflexivity.
Defined.

Lemma X2_witness :
  @canonical_href Fixtures.urllib "/ip/Phone-15/123?athbdg=L1600"
  = "https://www.walmart.com/ip/Phone-15/123".
Proof.
  apply (proj1 (@X2_site_relative_href Fixtures.urllib "/ip/Phone-15/123?athbdg=L1600"
                  eq_refl)).
Defined.

Lemma X3_witness :
  @canonical_href Fixtures.urllib "/ip/Phone-15/123?athbdg=L1600"
  = @canonical_href Fixtures.urllib "/ip/Phone-15/123#reviews".
Proof.
  apply (@X3_tracking_parameters_collapse Fixtures.urllib).
  exists "/ip/Phone-15/123", "?athbdg=L1600", "#reviews".
  split_and!; [reflexivity | reflexivity | reflexivity | |];
    right; eexists _, _; split; reflexivity.
Defined.

Lemma X4_witness :
  PyStr.occurs "/ip/Hidden/5?x=1" Fixtures.page_without_anchors.
Proof.
  apply (X4_findall_matches_are_product_paths Fixtures.page_without_anchors).
  vm_compute. apply list_elem_of_here.
Defined.

Lemma X6_witness : UrlSpec.absolute "https://www.walmart.com/ip/Other/6".
Proof.
  apply (@X6_get_link_urls_absolute Fixtures.urllib Fixtures.search_dom python_re
           Fixtures.page_without_anchors).
  vm_compute. apply list_elem_of_further, list_elem_of_here.
Defined.

Module MoreRecordFacts.
Import PyStr PyStrFacts RecordFacts RecordSpec ShapeFacts.

(** *** What a computation can raise *)

Lemma bind_raise {A B} (m : result A) (f : A → result B) (P : exn → Prop) :
  (∀ e, m = Raise e → P e) → (∀ a e, f a = Raise e → P e) →
  ∀ e, m ≫= f = Raise e → P e.
Proof.
  intros Hm Hf e. destruct m as [a|e0]; simpl; [apply Hf|].
  intros [= <-]. by apply Hm.
Qed.

Lemma get_raise (v : pyval) (k : string) (d : pyval) (e : exn) :
  Py.get v k d = Raise e → e = AttributeError.
Proof. destruct v; simpl; congruence. Qed.

Lemma lower_raise (v : pyval) (e : exn) : Py.lower v = Raise e → e = AttributeError.
Proof. destruct v; simpl; congruence. Qed.

Lemma or_else_raise (a : pyval) (b : result pyval) (P : exn → Prop) :
  (∀ e, b = Raise e → P e) → ∀ e, Py.or_else a b = Raise e → P e.
Proof. unfold Py.or_else. destruct (Py.truthy a); [done | auto]. Qed.

(** Walk through a computation, one bind at a time, to see what it can
    raise. *)
Ltac raises :=
  repeat match goal with
    | |- ∀ e, mbind _ _ = Raise e → _ => apply bind_raise; [|intros ?]
    | |- ∀ e, Py.get _ _ _ = Raise e → _ => intros ? ?%get_raise
    | |- ∀ e, Py.lower _ = Raise e → _ => intros ? ?%lower_raise
    | |- ∀ e, Py.or_else _ _ = Raise e → _ => apply or_else_raise
    | |- ∀ e, Ok _ = Raise e → _ => intros ? [=]
    | |- ∀ e, Raise _ = Raise e → _ => intros ? [= <-]
    | |- ∀ e, (if ?b then _ else _) = Raise e → _ => destruct b eqn:?
    | |- ∀ e, (let '(_, _) := ?p in _) = Raise e → _ => destruct p
    | |- ∀ e, match ?x with _ => _ end = Raise e → _ => destruct x eqn:?
    end.

Lemma initial_data_of_raise (data : pyval) :
  ∀ e, initial_data_of data = Raise e → e = AttributeError.
Proof. unfold initial_data_of. raises; done. Qed.

Lemma current_price_raise (product : pyval) :
  ∀ e, current_price product = Raise e → e = AttributeError.
Proof. unfold current_price. raises; done. Qed.

Lemma next_data_info_raise (data : pyval) :
  ∀ e, next_data_info data = Raise e → e = AttributeError ∨ e = KeyError NO_PRODUCT_MSG.
Proof.
  unfold next_data_info. apply bind_raise.
  { intros e0 ?%initial_data_of_raise. by left. }
  intros initial_data. apply bind_raise.
  { intros e1 ?%get_raise. by left. }
  intros p. apply bind_raise.
  { destruct (Py.truthy p); [done|]. apply bind_raise.
    { intros e3 ?%get_raise. by left. }
    intros ps e3 Hps. destruct (Py.truthy ps) eqn:Et; [|done].
    destruct ps as [| | | | |l|]; try done. by destruct l. }
  intros product. apply bind_raise.
  { intros e3 ?%get_raise. by left. }
  intros r e3. destruct (negb _); [intros [= <-]; by right|]. revert e3.
  raises; try (by left). intros e3 ?%current_price_raise. by left.
Qed.

Lemma ld_item_raise (item : pyval) :
  ∀ e, ld_item item = Raise e → e = AttributeError.
Proof. unfold ld_item. destruct item; try done. raises; done. Qed.

Lemma ld_candidates_raise (candidates : list pyval) :
  ∀ e, ld_candidates candidates = Raise e → e = AttributeError.
Proof.
  induction candidates as [|item rest IH]; simpl; [done|]. apply bind_raise.
  - apply ld_item_raise.
  - intros [info|]; [done | apply IH].
Qed.

Lemma ld_scripts_raise `{JsonLib} (scripts : list Tag) :
  ∀ e, ld_scripts scripts = Raise e → e = AttributeError.
Proof.
  induction scripts as [|s rest IH]; simpl; [done|].
  destruct (negb _); [done|]. destruct (json_loads _) as [jd|]; [|done].
  apply bind_raise.
  - apply ld_candidates_raise.
  - intros [info|]; [done | apply IH].
Qed.

Lemma extract_record_raise `{HtmlDom, JsonLib} (html : string) :
  ∀ e, extract_record html = Raise e →
  e = AttributeError ∨ e = RuntimeError (NO_DATA_MSG +:+ page_sample html).
Proof.
  unfold extract_record, ld_json_strategy.
  destruct (next_data_strategy html); [done|]. apply bind_raise.
  - intros e0 ?%ld_scripts_raise. by left.
  - intros [info|]; [done|]. destruct (heuristic_strategy html); [done|].
    intros e [= <-]. by right.
Qed.

(** *** Linked-data scripts that are skipped *)

Lemma ld_scripts_usable `{JsonLib} (scripts : list Tag) :
  ld_scripts scripts = ld_scripts (List.filter ld_usable scripts).
Proof.
  induction scripts as [|s rest IH]; [done|]. simpl. unfold ld_usable at 1.
  destruct (UrlParse.nonempty (tag_text s)) eqn:E1; simpl; [|done].
  destruct (json_loads (tag_text s)) as [jd|e] eqn:E2; simpl; [|done].
  rewrite E1, E2. simpl. by rewrite IH.
Qed.

(** *** The text the heuristic hands to the decoder *)

Lemma take_nil (n : nat) : take n "" = "".
Proof. by destruct n. Qed.

Lemma take_take (n m : nat) (s : string) :
  (n ≤ m)%nat → take n (take m s) = take n s.
Proof.
  revert m s. induction n as [|n IH]; intros [|m] [|c s] Hn; simpl; try done; [lia|].
  rewrite IH; [done|lia].
Qed.

Lemma startswith_take (m s : string) (n : nat) :
  startswith m (take n s) = true → startswith m s = true.
Proof.
  revert s n. induction m as [|a m IH]; intros s n; [done|].
  destruct s as [|b s]; [by rewrite take_nil|]. destruct n as [|n]; [done|]. simpl.
  rewrite !andb_true_iff. intros [? ?]. eauto.
Qed.

Lemma startswith_take_ge (m s : string) (n : nat) :
  (len m ≤ n)%nat → startswith m s = true → startswith m (take n s) = true.
Proof.
  revert s n. induction m as [|a m IH]; intros s n Hn; [done|].
  destruct s as [|b s]; [done|]. destruct n as [|n]; [simpl in Hn; lia|]. simpl.
  rewrite !andb_true_iff. intros [? ?]. split; [done|]. apply IH; [|done].
  simpl in Hn. unfold len in *. lia.
Qed.

Lemma find_cons (m : string) (c : ascii) (s : string) :
  find m (String c s) = if startswith m (String c s) then Some 0%nat else S <$> find m s.
Proof. reflexivity. Qed.

(** The first occurrence is still the first in a prefix that holds it. *)
Lemma find_take (m s : string) (i n : nat) :
  find m s = Some i → (i + len m ≤ n)%nat → find m (take n s) = Some i.
Proof.
  revert i n. induction s as [|c s IH]; intros i n Hi Hn.
  - rewrite take_nil. done.
  - rewrite find_cons in Hi. destruct (startswith m (String c s)) eqn:E.
    + injection Hi as <-. destruct n as [|n].
      * destruct m; [done | simpl in Hn; lia].
      * change (take (S n) (String c s)) with (String c (take n s)).
        rewrite find_cons.
        change (String c (take n s)) with (take (S n) (String c s)).
        rewrite startswith_take_ge; [done | lia | done].
    + destruct (find m s) as [i'|] eqn:Ei; [|done]. injection Hi as <-.
      destruct n as [|n]; [lia|].
      change (take (S n) (String c s)) with (String c (take n s)).
      rewrite find_cons.
      change (String c (take n s)) with (take (S n) (String c s)).
      destruct (startswith m (take (S n) (String c s))) eqn:E'.
      { apply startswith_take in E'. congruence. }
      rewrite (IH i' n); [done..|lia].
Qed.

(** The closing tag cannot begin inside the text before it and end
    inside itself: it holds one [<] only. *)
Lemma script_end_first (blob post : string) :
  find "</script>" blob = None →
  find "</script>" (blob +:+ "</script>" +:+ post) = Some (len blob).
Proof.
  induction blob as [|c t IH]; [done|]. intros Hnone.
  rewrite find_cons in Hnone. destruct (startswith _ (String c t)) eqn:E; [done|].
  destruct (find "</script>" t) eqn:Et; [done|]. rewrite app_cons, find_cons.
  rewrite IH by done.
  destruct (startswith "</script>" (String c (t +:+ "</script>" +:+ post))) eqn:E';
    [exfalso|done].
  apply startswith_spec in E' as [r Hr]. injection Hr as -> Hr.
  do 8 (destruct t as [|? t]; [discriminate Hr | injection Hr as -> Hr]).
  discriminate E.
Qed.

End MoreRecordFacts.

Section MoreRecordExtractor.
Import PyStr PyStrFacts RecordFacts RecordSpec ShapeFacts MoreRecordFacts.
Context `{JsonLib}.

#[local] Set Warnings "-clear-no-such-hyp".

(** X8.  Every record that [prod_info] returns has the eight keys of the
    program, each once and in the order of the source, whichever of the
    three strategies built it. *)
Theorem X8_prod_info_record_keys `{HtmlDom} {W} `{Session W}
    (url : string) (w w' : W) (info : record) :
  prod_info url w = (Ok info, w') → info.*1 = RECORD_KEYS ∧ NoDup info.*1.
Proof.
  unfold prod_info. destruct (session_get url w) as [[html|e] w1]; [|done].
  destruct (is_bot_page html); [done|]. destruct (soup_raises html); [done|].
  intros [= Hrun <-].
  apply extract_record_keys in Hrun. rewrite Hrun. split; [done|].
  unfold RECORD_KEYS. repeat (apply NoDup_cons; split; [set_solver|]). apply NoDup_nil_2.
Qed.

(** X9.  What [prod_info] raises is the error of the request, the
    challenge error, the error with which the parser refuses the markup,
    an [AttributeError] out of the linked-data loop, or the final error
    with the page sample.  The errors of the decoder and the [KeyError] of
    [parse_next_data] never leave it. *)
Theorem X9_prod_info_errors `{HtmlDom} {W} `{Session W}
    (url : string) (w w' : W) (e : exn) :
  prod_info url w = (Raise e, w') →
  session_get url w = (Raise e, w')
  ∨ ∃ html, session_get url w = (Ok html, w')
            ∧ (e = RuntimeError BOT_PRODUCT_MSG
               ∨ soup_raises html = Some e
               ∨ e = AttributeError
               ∨ e = RuntimeError (NO_DATA_MSG +:+ page_sample html)).
Proof.
  unfold prod_info. destruct (session_get url w) as [[html|e0] w1]; [|intros [= <- <-]; by left].
  destruct (is_bot_page html).
  { intros [= <- <-]. right. exists html. auto. }
  destruct (soup_raises html) as [e1|] eqn:Es.
  { intros [= <- <-]. right. exists html. auto. }
  intros [= Hrun <-]. right. exists html.
  apply extract_record_raise in Hrun as [-> | ->]; auto.
Qed.

(** X10.  The linked-data loop gives the same outcome on a list of
    scripts and on the list without the scripts that are empty or are
    not JSON: those never raise and never give a record. *)
Theorem X10_ld_scripts_skip_unusable (scripts : list Tag) :
  ld_scripts scripts = ld_scripts (List.filter ld_usable scripts).
Proof. apply ld_scripts_usable. Qed.

(** X11.  Product data that has no [product] and whose [products] is a
    list that is not empty gives what the same data gives with the first
    of these products under [product]; when [products] is anything else,
    [parse_next_data] raises its [KeyError]. *)
Theorem X11_products_alias (d : pydict) :
  Py.lookup "product" d = None →
  (∀ p rest, Py.lookup "products" d = Some (PList (p :: rest)) →
     next_data_info (next_data_of d) = next_data_info (next_data_of (("product", p) :: d)))
  ∧ ((∀ p rest, Py.lookup "products" d ≠ Some (PList (p :: rest))) →
     next_data_info (next_data_of d) = Raise (KeyError NO_PRODUCT_MSG)).
Proof.
  intros Hnone. split.
  - intros p rest Hps. unfold next_data_info.
    rewrite !initial_data_of_next_data. simpl. rewrite Hnone, Hps. simpl.
    destruct (Py.truthy p) eqn:Et; simpl; rewrite ?Hps; simpl; by rewrite ?Et.
  - intros Hps. unfold next_data_info. rewrite initial_data_of_next_data. simpl.
    rewrite Hnone. simpl. destruct (Py.lookup "products" d) as [ps|] eqn:E; [|done].
    destruct (Py.truthy ps) eqn:Et; simpl; [|by rewrite Et].
    destruct ps as [| | | | |l|]; try done. destruct l as [|p rest]; [done|].
    by destruct (Hps p rest).
Qed.

(** X12.  [parse_next_data] raises the error of the decoder, an
    [AttributeError] or its own [KeyError], and never an [IndexError]:
    line 111 takes the first of [products] only when the list holds
    one. *)
Theorem X12_parse_next_data_errors (script_text : string) (e : exn) :
  parse_next_data script_text = Raise e →
  json_loads script_text = Raise e
  ∨ e = AttributeError
  ∨ e = KeyError NO_PRODUCT_MSG.
Proof.
  unfold parse_next_data. destruct (json_loads script_text) as [data|e0]; simpl.
  - intros [-> | ->]%next_data_info_raise; auto.
  - intros [= <-]. by left.
Qed.

(** X13.  When the page holds the product marker and, from the first
    opening marker on, reads as a text without the closing script tag,
    then that tag, then anything, the heuristic hands exactly this text
    to the decoder, provided the text and the tag fit in 500000
    characters. *)
Theorem X13_heuristic_snippet (html blob post : string) (idx : nat) :
  contains PRODUCT_MARKER html = true →
  find PROPS_MARKER html = Some idx →
  drop idx html = blob +:+ "</script>" +:+ post →
  find "</script>" blob = None →
  Z.of_nat (len blob) + 9 ≤ 500000 →
  heuristic_strategy html = try_catch (heuristic_info blob) (λ _, None).
Proof.
  intros Hprod Hprops Hdrop Hnone Hlen. unfold heuristic_strategy.
  rewrite Hprod, Hprops. unfold slice. rewrite Hdrop.
  assert (Z.of_nat SNIPPET_LIMIT = 500000) as HL by (unfold SNIPPET_LIMIT; lia).
  replace (idx + SNIPPET_LIMIT - idx)%nat with SNIPPET_LIMIT by lia.
  generalize dependent SNIPPET_LIMIT. intros L HL.
  rewrite (find_take "</script>" _ (len blob) L).
  - rewrite take_take by lia. by rewrite take_app_len.
  - by apply script_end_first.
  - change (len "</script>") with 9%nat. lia.
Qed.

End MoreRecordExtractor.

(** The product page of the fixture shop gives a record with the eight
    keys. *)
Lemma X8_witness :
  (take 8 Fixtures.shop_record).*1 = RECORD_KEYS
  ∧ NoDup (take 8 Fixtures.shop_record).*1.
Proof.
  apply (@X8_prod_info_record_keys Fixtures.product_json Fixtures.shop_dom _ Fixtures.shop
           "https://www.walmart.com/ip/Phone-15/123" []
           [ "https://www.walmart.com/ip/Phone-15/123" ]).
  vm_compute. reflexivity.
Defined.

(** Markup that [html.parser] refuses: the error of the parser is what
    [prod_info] raises. *)
Lemma X9_witness :
  @session_get _ Fixtures.strict_shop "https://www.walmart.com/ip/Odd/9" []
  = (Raise Fixtures.rejected_markup, [ "https://www.walmart.com/ip/Odd/9" ])
  ∨ ∃ html,
      @session_get _ Fixtures.strict_shop "https://www.walmart.com/ip/Odd/9" []
      = (Ok html, [ "https://www.walmart.com/ip/Odd/9" ])
      ∧ (Fixtures.rejected_markup = RuntimeError BOT_PRODUCT_MSG
         ∨ @soup_raises Fixtures.strict_dom html = Some Fixtures.rejected_markup
         ∨ Fixtures.rejected_markup = AttributeError
         ∨ Fixtures.rejected_markup = RuntimeError (NO_DATA_MSG +:+ page_sample html)).
Proof.
  apply (@X9_prod_info_errors Fixtures.product_json Fixtures.strict_dom _
           Fixtures.strict_shop).
  vm_compute. reflexivity.
Defined.

(** Two noise scripts before the linked data change nothing. *)
Lemma X10_witness :
  @ld_scripts Fixtures.more_json Fixtures.ld_tags_with_noise
  = @ld_scripts Fixtures.more_json [ Fixtures.script Fixtures.ld_text ].
Proof.
  exact (@X10_ld_scripts_skip_unusable Fixtures.more_json Fixtures.ld_tags_with_noise).
Defined.

Lemma X11_witness :
  next_data_info (RecordSpec.next_data_of Fixtures.next_products_data)
  = next_data_info
      (RecordSpec.next_data_of
         (("product", PDict [ ("name", PStr "Widget") ]) :: Fixtures.next_products_data)).
Proof.
  apply (proj1 (X11_products_alias Fixtures.next_products_data eq_refl)
           (PDict [ ("name", PStr "Widget") ]) []).
  reflexivity.
Defined.

(** Framework JSON without product data: the [KeyError]. *)
Lemma X12_witness :
  @json_loads Fixtures.more_json Fixtures.next_empty_text
  = Raise (KeyError NO_PRODUCT_MSG)
  ∨ KeyError NO_PRODUCT_MSG = AttributeError
  ∨ KeyError NO_PRODUCT_MSG = KeyError NO_PRODUCT_MSG.
Proof.
  apply (@X12_parse_next_data_errors Fixtures.more_json Fixtures.next_empty_text).
  vm_compute. reflexivity.
Defined.

(** The framework JSON of [page_next_bare], found by the heuristic. *)
Lemma X13_witness :
  @heuristic_strategy Fixtures.product_json Fixtures.page_next_bare
  = try_catch (@heuristic_info Fixtures.product_json Fixtures.next_bare_text) (λ _, None).
Proof.
  apply (@X13_heuristic_snippet Fixtures.product_json Fixtures.page_next_bare
           Fixtures.next_bare_text "</head><body>Widget</body></html>" 63).
  - vm_compute. reflexivity.
  - vm_compute. reflexivity.
  - vm_compute. reflexivity.
  - vm_compute. reflexivity.
  - vm_compute. discriminate.
Defined.

Module MorePipelineFacts.
Import DedupeFacts MoreDedupeFacts RecordFacts PipelineFacts.

#[local] Set Warnings "-clear-no-such-hyp".

(** *** The loop that collects the URLs of one page *)

(** How many URLs the loop can still take: the room left in the budget,
    and one when no room is left, the test of line 274 coming after the
    append. *)
Lemma add_urls_first_seen (m : Z) (urls : list string) (c : Collected) :
  collected_urls (add_urls m urls c)
  = collected_urls c
    ++ take (Z.to_nat (Z.max 1 (m - collected_count c)))
            (first_seen urls (collected_set c)).
Proof.
  unfold collected_count. revert c. induction urls as [|u rest IH]; intros c; simpl.
  - by rewrite take_nil, app_nil_r.
  - destruct (decide (u ∈ collected_set c)); [apply IH|].
    destruct (_ >=? m) eqn:E; simpl in *.
    + rewrite length_app in E. simpl in E. geb_to_prop.
      replace (Z.to_nat _) with 1%nat by lia. done.
    + rewrite length_app in E. simpl in E. geb_to_prop. rewrite IH. simpl.
      rewrite <- app_assoc. simpl. rewrite length_app. simpl.
      replace (Z.to_nat (Z.max 1 (m - Z.of_nat (length (collected_urls c)))))
        with (S (Z.to_nat (Z.max 1 (m - Z.of_nat (length (collected_urls c) + 1)))))
        by lia.
      done.
Qed.

Lemma add_urls_set (m : Z) (urls : list string) (c : Collected) :
  (∀ u, u ∈ collected_set c ↔ u ∈ collected_urls c) →
  ∀ u, u ∈ collected_set (add_urls m urls c) ↔ u ∈ collected_urls (add_urls m urls c).
Proof.
  revert c. induction urls as [|x rest IH]; intros c Hc; simpl; [done|].
  destruct (decide (x ∈ collected_set c)); [by apply IH|].
  assert (∀ u, u ∈ ({[x]} ∪ collected_set c : gset string) ↔ u ∈ collected_urls c ++ [x])
    as Hc'.
  { intros u. rewrite elem_of_union, elem_of_singleton, elem_of_app, list_elem_of_singleton.
    rewrite Hc. tauto. }
  destruct (_ >=? m); simpl; [done|]. by apply IH.
Qed.

Lemma add_urls_NoDup (m : Z) (urls : list string) (c : Collected) :
  (∀ u, u ∈ collected_set c ↔ u ∈ collected_urls c) →
  NoDup (collected_urls c) → NoDup (collected_urls (add_urls m urls c)).
Proof.
  intros Hc Hnd. rewrite add_urls_first_seen. apply NoDup_app. split_and!; [done| |].
  - intros u Hu (i & Hin%list_elem_of_lookup_2 & _)%elem_of_take.
    apply elem_of_first_seen in Hin as [_ Hin].
    by apply Hin, Hc.
  - eapply sublist_NoDup; [apply NoDup_first_seen | apply sublist_take].
Qed.

(** *** Records with their URL *)

Lemma set_fresh_keys (k : string) (v : pyval) (d : pydict) :
  k ∉ d.*1 → (Py.set k v d).*1 = d.*1 ++ [k].
Proof.
  induction d as [|[k' v'] d IH]; [done|]. simpl. intros Hk.
  apply not_elem_of_cons in Hk as [Hne Hk]. destruct (String.eqb_spec k' k); [congruence|].
  simpl. f_equal. by apply IH.
Qed.

Lemma fetch_attempts_app (l1 l2 : list event) :
  fetch_attempts (l1 ++ l2) = (fetch_attempts l1 + fetch_attempts l2)%nat.
Proof.
  induction l1 as [|ev l1 IH]; [done|]. destruct ev; simpl; rewrite IH; done.
Qed.

Section WithCollaborators.
Context `{UrlLib, HtmlDom, RegexLib, JsonLib} {W : Type} `{Session W}.

Lemma prod_info_keys (url : string) (w w' : W) (info : record) :
  prod_info url w = (Ok info, w') → info.*1 = RECORD_KEYS.
Proof.
  unfold prod_info. destruct (session_get url w) as [[html|e] w1]; [|done].
  destruct (is_bot_page html); [done|]. destruct (soup_raises html); [done|].
  intros [= Hrun <-].
  by eapply extract_record_keys.
Qed.

Lemma page_loop_inv (query : string) (m : Z) (pages : list Z) (c : Collected) (w : W) :
  (∀ u, u ∈ collected_set c ↔ u ∈ collected_urls c) → NoDup (collected_urls c) →
  let c' := (page_loop query m pages c w).1.1 in
  (∀ u, u ∈ collected_set c' ↔ u ∈ collected_urls c') ∧ NoDup (collected_urls c').
Proof.
  cbv zeta. revert c w. induction pages as [|p pages IH]; intros c w Hc Hnd; simpl; [done|].
  destruct (get_link query p w) as [[urls|e0] w1]; simpl; [|done].
  pose proof (add_urls_set m urls c Hc). pose proof (add_urls_NoDup m urls c Hc Hnd).
  destruct (_ >=? m); simpl; [done|]. by apply IH.
Qed.

Lemma page_loop_no_fetch (query : string) (m : Z) (pages : list Z) (c : Collected) (w : W) :
  fetch_attempts (page_loop query m pages c w).1.2 = 0%nat.
Proof.
  revert c w. induction pages as [|p pages IH]; intros c w; simpl; [done|].
  destruct (get_link query p w) as [[urls|e0] w1]; simpl; [|done].
  destruct (_ >=? m); [done|]. apply IH.
Qed.

(** The URLs handed to the product loop are within the budget. *)
Lemma py_take_budget (query : string) (m : Z) (pages : list Z) (w : W) :
  let c := (page_loop query m pages (mkCollected [] ∅) w).1.1 in
  Z.of_nat (length (py_take m (collected_urls c))) ≤ Z.max m 0.
Proof.
  cbv zeta. unfold py_take. destruct (Z.leb_spec 0 m) as [Hm|Hm].
  - rewrite length_take. lia.
  - pose proof (page_loop_at_most_one query m pages (mkCollected [] ∅) w
                  ltac:(lia) eq_refl) as Hb.
    rewrite length_take. lia.
Qed.

Lemma product_loop_records (total i : Z) (urls : list string) (w : W) :
  let '(results, _, _) := product_loop total i urls w in
  Forall (λ info : record, info.*1 = RECORD_KEYS ++ [ "url" ]) results
  ∧ sublist ((λ info, Py.lookup "url" info) <$> results) ((λ u, Some (PStr u)) <$> urls).
Proof.
  revert i w. induction urls as [|url rest IH]; intros i w; simpl.
  - split; [constructor | done].
  - destruct (prod_info url w) as [r w1] eqn:E. specialize (IH (i + 1) w1).
    destruct (product_loop total (i + 1) rest w1) as [[results log] w2].
    destruct IH as [Hk Hs]. destruct r as [info|e]; simpl.
    + split.
      * constructor; [|done]. apply prod_info_keys in E.
        rewrite set_fresh_keys; rewrite E; [done|]. unfold RECORD_KEYS. set_solver.
      * rewrite lookup_set. by constructor.
    + split; [done|]. by constructor.
Qed.

End WithCollaborators.

End MorePipelineFacts.

Section MorePipeline.
Import DedupeFacts PipelineFacts MorePipelineFacts.
Context `{UrlLib, HtmlDom, RegexLib, JsonLib} {W : Type} `{Session W}.

(** X14.  The loop of lines 270-275 appends, in the order of the page,
    the URLs of the page that are not collected yet, each once, as many
    as the budget still has room for; and one when the budget has no
    room left, for it looks at the budget after it has appended. *)
Theorem X14_add_urls_closed_form (max_results : Z) (urls : list string) (c : Collected) :
  collected_urls (add_urls max_results urls c)
  = collected_urls c
    ++ take (Z.to_nat (Z.max 1 (max_results - collected_count c)))
            (first_seen urls (collected_set c)).
Proof. apply add_urls_first_seen. Qed.

(** X15.  The URLs that the paging loop of [main] collects are distinct,
    over all the pages it reads, and [collected_set] holds exactly the
    URLs of [collected_urls]. *)
Theorem X15_collected_urls_distinct (query : string) (max_results : Z)
    (pages : list Z) (w : W) :
  NoDup (collected_urls (page_loop query max_results pages (mkCollected [] ∅) w).1.1)
  ∧ ∀ u, u ∈ collected_set (page_loop query max_results pages (mkCollected [] ∅) w).1.1
         ↔ u ∈ collected_urls (page_loop query max_results pages (mkCollected [] ∅) w).1.1.
Proof.
  destruct (page_loop_inv query max_results pages (mkCollected [] ∅) w) as [? ?];
    [set_solver | constructor | done].
Qed.

(** X16.  [main] asks for no more product pages than the budget, and for
    none when the budget is zero or negative; it returns no more records
    than pages it asked for. *)
Theorem X16_main_budget (query : string) (max_results max_pages : Z) (w w' : W)
    (results : list record) (log : list event) :
  main query max_results max_pages w = (Some results, log, w') →
  Z.of_nat (fetch_attempts log) ≤ Z.max max_results 0
  ∧ (length results + product_failures log = fetch_attempts log)%nat.
Proof.
  unfold main. destruct (negb _); [done|].
  pose proof (py_take_budget query max_results (seqZ 1 max_pages) w) as Hb.
  pose proof (page_loop_log query max_results (seqZ 1 max_pages) (mkCollected [] ∅) w)
    as Hlog.
  pose proof (page_loop_no_fetch query max_results (seqZ 1 max_pages) (mkCollected [] ∅) w)
    as Hnf.
  destruct (page_loop _ _ _ _ _) as [[c log1] w1]. simpl in *.
  destruct (collected_urls c) as [|u0 us] eqn:Ec; [done|]. rewrite <- Ec in *.
  pose proof (product_loop_counts
                (Z.min max_results (Z.of_nat (length (collected_urls c)))) 1
                (py_take max_results (collected_urls c)) w1) as Hcount.
  destruct (product_loop _ _ _ _) as [[res log2] w2].
  destruct Hcount as (Hn & Hf & _). intros [= <- <- <-]. simpl.
  rewrite fetch_attempts_app, product_failures_app, Hlog, Hnf, Hf. simpl. lia.
Qed.

(** X17.  Every record in the results of the product loop has the eight
    keys and then [url]; the URLs of the records are, in their order, URLs
    of the list the loop went through, those whose page gave a record. *)
Theorem X17_product_loop_records (total i : Z) (urls : list string) (w : W) :
  let '(results, _, _) := product_loop total i urls w in
  Forall (λ info : record, info.*1 = RECORD_KEYS ++ [ "url" ]) results
  ∧ sublist ((λ info, Py.lookup "url" info) <$> results) ((λ u, Some (PStr u)) <$> urls).
Proof. apply product_loop_records. Qed.

(** X18.  With an empty query, or with no page to scan, [main] returns
    nothing and makes no request. *)
Theorem X18_main_nothing_to_scan (query : string) (max_results max_pages : Z) (w : W) :
  UrlParse.nonempty query = false ∨ max_pages ≤ 0 →
  (main query max_results max_pages w).1.1 = None
  ∧ (main query max_results max_pages w).2 = w.
Proof.
  unfold main. intros [Hq | Hp].
  - by rewrite Hq.
  - destruct (negb _); [done|]. by rewrite seqZ_nil.
Qed.

(** X23.  [main] returns no two records for one URL, and each of its
    records has the eight keys and then [url]. *)
Theorem X23_main_records_distinct (query : string) (max_results max_pages : Z) (w w' : W)
    (results : list record) (log : list event) :
  main query max_results max_pages w = (Some results, log, w') →
  NoDup ((λ info, Py.lookup "url" info) <$> results)
  ∧ Forall (λ info : record, info.*1 = RECORD_KEYS ++ [ "url" ]) results.
Proof.
  unfold main. destruct (negb _); [done|].
  destruct (page_loop_inv query max_results (seqZ 1 max_pages) (mkCollected [] ∅) w)
    as [_ Hnd]; [set_solver | constructor |].
  destruct (page_loop _ _ _ _ _) as [[c log1] w1]. simpl in *.
  destruct (collected_urls c) as [|u0 us] eqn:Ec; [done|]. rewrite <- Ec in *.
  pose proof (product_loop_records
                (Z.min max_results (Z.of_nat (length (collected_urls c)))) 1
                (py_take max_results (collected_urls c)) w1) as Hrec.
  destruct (product_loop _ _ _ _) as [[res log2] w2].
  destruct Hrec as [Hk Hs]. intros [= <- <- <-]. split; [|done].
  eapply sublist_NoDup; [|exact Hs].
  apply NoDup_fmap_2; [by intros x y [= ->]|].
  eapply sublist_NoDup; [exact Hnd|]. unfold py_take.
  destruct (0 <=? max_results); apply sublist_take.
Qed.

End MorePipeline.

(** The run in the fixture shop: two product pages asked for, within the
    budget of twelve; one record and one failure. *)
Lemma X16_witness :
  Z.of_nat (fetch_attempts Fixtures.shop_log) ≤ Z.max 12 0
  ∧ (length [ Fixtures.shop_record ] + product_failures Fixtures.shop_log
     = fetch_attempts Fixtures.shop_log)%nat.
Proof.
  apply (@X16_main_budget Fixtures.urllib Fixtures.shop_dom python_re Fixtures.product_json
           _ Fixtures.shop "phone" 12 6 [] Fixtures.shop_requests).
  vm_compute. reflexivity.
Defined.

(** No page to scan: no request goes out. *)
Lemma X18_witness :
  (@main Fixtures.urllib Fixtures.shop_dom python_re Fixtures.product_json _ Fixtures.shop
         "phone" 12 0 []).1.1 = None
  ∧ (@main Fixtures.urllib Fixtures.shop_dom python_re Fixtures.product_json _ Fixtures.shop
           "phone" 12 0 []).2 = [].
Proof.
  apply (@X18_main_nothing_to_scan Fixtures.urllib Fixtures.shop_dom python_re
           Fixtures.product_json _ Fixtures.shop "phone" 12 0 []).
  right. lia.
Defined.

(** The run in the fixture shop gives one record, with its nine keys. *)
Lemma X23_witness :
  NoDup ((λ info, Py.lookup "url" info) <$> [ Fixtures.shop_record ])
  ∧ Forall (λ info : record, info.*1 = RECORD_KEYS ++ [ "url" ]) [ Fixtures.shop_record ].
Proof.
  apply (@X23_main_records_distinct Fixtures.urllib Fixtures.shop_dom python_re
           Fixtures.product_json _ Fixtures.shop "phone" 12 6 [] Fixtures.shop_requests
           [ Fixtures.shop_record ] Fixtures.shop_log).
  vm_compute. reflexivity.
Defined.

Module SearchUrlFacts.
Import PyStr PyStrFacts UrlParse UrlSpec.

(** Every one of the 256 characters, by its bits. *)
Ltac each_char c := destruct c as [[] [] [] [] [] [] [] []].

Lemma quote_plus_char_chars (c : ascii) :
  all_chars query_char (quote_plus_char c) = true.
Proof. each_char c; vm_compute; reflexivity. Qed.

Lemma quote_plus_chars (s : string) : all_chars query_char (quote_plus s) = true.
Proof.
  induction s as [|c s IH]; [done|]. simpl.
  by rewrite all_chars_app, quote_plus_char_chars, IH.
Qed.

Lemma quote_plus_char_unreserved (c : ascii) :
  unreserved c = true → quote_plus_char c = String c "".
Proof. unfold quote_plus_char, unreserved. by intros ->. Qed.

Lemma quote_plus_unreserved (s : string) :
  all_chars unreserved s = true → quote_plus s = s.
Proof.
  induction s as [|c s IH]; [done|]. simpl. intros [Hc Hs]%andb_true_iff.
  by rewrite quote_plus_char_unreserved, IH.
Qed.

Lemma quote_plus_app (s t : string) :
  quote_plus (s +:+ t) = quote_plus s +:+ quote_plus t.
Proof.
  induction s as [|c s IH]; [done|]. simpl. by rewrite IH, app_assoc.
Qed.

(** What [quote_plus] wrote for a character can be read back, whatever
    follows it. *)
Lemma unquote_first_quote (c : ascii) (r : string) :
  unquote_first (quote_plus_char c +:+ r) = Some (c, r).
Proof. each_char c; vm_compute; reflexivity. Qed.

Lemma quote_plus_inj (s t : string) : quote_plus s = quote_plus t → s = t.
Proof.
  revert t. induction s as [|c s IH]; intros [|d t] Hq; simpl in Hq.
  - done.
  - apply (f_equal unquote_first) in Hq. by rewrite unquote_first_quote in Hq.
  - apply (f_equal unquote_first) in Hq. by rewrite unquote_first_quote in Hq.
  - apply (f_equal unquote_first) in Hq. rewrite !unquote_first_quote in Hq.
    injection Hq as -> Hq. f_equal. by apply IH.
Qed.

Lemma query_char_not_amp (c : ascii) : query_char c = true → isnt "&" c = true.
Proof. each_char c; vm_compute; congruence. Qed.

End SearchUrlFacts.

(** X19.  In a search URL the query is written with letters, digits and
    the characters [_.-~+%] only, so nothing in it can end the parameter
    or start another; a query of letters, digits and [_.-~] stands there
    as it is, and quoting goes character by character. *)
Theorem X19_search_query_is_quoted (query : string) :
  PyStr.all_chars UrlSpec.query_char (UrlParse.quote_plus query) = true
  ∧ (PyStr.all_chars UrlSpec.unreserved query = true → UrlParse.quote_plus query = query)
  ∧ ∀ more, UrlParse.quote_plus (query +:+ more)
            = UrlParse.quote_plus query +:+ UrlParse.quote_plus more.
Proof.
  split_and!.
  - apply SearchUrlFacts.quote_plus_chars.
  - apply SearchUrlFacts.quote_plus_unreserved.
  - apply SearchUrlFacts.quote_plus_app.
Qed.

(** X20.  The search URL tells the query and the page: two calls of
    [get_search_url] that give one URL had the same query and the same
    page number. *)
Theorem X20_search_url_injective (q1 q2 : string) (p1 p2 : Z) :
  get_search_url q1 p1 = get_search_url q2 p2 → q1 = q2 ∧ p1 = p2.
Proof.
  unfold get_search_url. intros Hu. apply String.app_inj in Hu.
  assert (∀ q (p : Z),
            PyStr.all_chars (PyStr.isnt "&") (UrlParse.quote_plus q) = true
            ∧ PyStr.stops (PyStr.isnt "&") ("&page=" +:+ pretty p)) as Hshape.
  { intros q p. split.
    - eapply PyStrFacts.all_chars_impl; [apply SearchUrlFacts.query_char_not_amp|].
      apply SearchUrlFacts.quote_plus_chars.
    - right. by exists "&"%char, ("page=" +:+ pretty p). }
  destruct (Hshape q1 p1) as [Ha1 Hs1]. destruct (Hshape q2 p2) as [Ha2 Hs2].
  pose proof (f_equal (PyStr.take_while (PyStr.isnt "&")) Hu) as Ht.
  rewrite !PyStrFacts.take_while_prefix in Ht by done.
  pose proof (f_equal (PyStr.drop_while (PyStr.isnt "&")) Hu) as Hd.
  rewrite !PyStrFacts.drop_while_prefix in Hd by done.
  split.
  - by apply SearchUrlFacts.quote_plus_inj.
  - apply String.app_inj in Hd. by apply (inj pretty).
Qed.

Lemma X20_witness : "a b" = "a b" ∧ 2 = 2.
Proof.
  apply (X20_search_url_injective "a b" "a b" 2 2). reflexivity.
Defined.

Section MoreBotDetector.
Import PyStr PyStrFacts.

#[local] Set Warnings "-clear-no-such-hyp".

(** X21.  The keyword [bot] is looked for as a piece of text, not as a
    word: a page whose first 2000 characters hold these three letters in
    any mix of cases, inside a word such as Robot, counts as a challenge
    page, and [prod_info] raises the challenge error on it whatever data
    the page carries. *)
Theorem X21_bot_keyword_inside_words `{HtmlDom, JsonLib} {W} `{Session W}
    (url html m : string) (w w' : W) :
  lower m = "bot" → occurs m (take 2000 html) →
  is_bot_page html = true
  ∧ (session_get url w = (Ok html, w') →
     prod_info url w = (Raise (RuntimeError BOT_PRODUCT_MSG), w')).
Proof.
  intros Hm Hocc.
  assert (is_bot_page html = true) as Hbot.
  { apply is_bot_page_iff. exists "bot". split; [set_solver|]. by exists m. }
  split; [done|]. intros Hget. unfold prod_info. by rewrite Hget, Hbot.
Qed.

(** X22.  The keyword [recaptcha] adds nothing to the list: a page is a
    challenge page exactly when one of the other seven phrases occurs in
    its first 2000 characters, [captcha] being one of them. *)
Theorem X22_recaptcha_is_redundant (html : string) :
  is_bot_page html = true ↔
  ∃ kw, kw ∈ BOT_CHECK_KEYWORDS ∧ kw ≠ "recaptcha" ∧ occurs_nocase kw (take 2000 html).
Proof.
  rewrite is_bot_page_iff. split.
  - intros (kw & Hin & Hocc). destruct (decide (kw = "recaptcha")) as [->|Hne].
    + exists "captcha". split_and!; [set_solver | done |].
      destruct Hocc as (m & (pre & suf & Hs) & Hm).
      destruct (lower_eq_app m "re" "captcha" Hm) as (a & b & -> & Ha & Hb).
      exists b. split; [|done]. exists (pre +:+ a), suf. by rewrite Hs, !app_assoc.
    + by exists kw.
  - intros (kw & Hin & _ & Hocc). by exists kw.
Qed.

End MoreBotDetector.

(** A product page for a robot vacuum, with its framework JSON. *)
Lemma X21_witness :
  is_bot_page Fixtures.page_robot = true
  ∧ (@session_get _ Fixtures.robot_shop "https://www.walmart.com/ip/Robot-Vacuum/42" []
     = (Ok Fixtures.page_robot, [ "https://www.walmart.com/ip/Robot-Vacuum/42" ]) →
     @prod_info Fixtures.product_dom Fixtures.product_json _ Fixtures.robot_shop
       "https://www.walmart.com/ip/Robot-Vacuum/42" []
     = (Raise (RuntimeError BOT_PRODUCT_MSG),
        [ "https://www.walmart.com/ip/Robot-Vacuum/42" ])).
Proof.
  apply (@X21_bot_keyword_inside_words Fixtures.product_dom Fixtures.product_json _
           Fixtures.robot_shop "https://www.walmart.com/ip/Robot-Vacuum/42"
           Fixtures.page_robot "bot").
  - reflexivity.
  - exists "<html><head><title>Ro", (PyStr.drop 24 Fixtures.page_robot).
    vm_compute. reflexivity.
Defined.

Section StrategiesAgree.
Import RecordFacts MoreRecordFacts.
Context `{JsonLib}.

#[local] Set Warnings "-clear-no-such-hyp".

(** X24.  Strategy 3 is a plainer reading of the JSON that
    [parse_next_data] reads: when it gives a record, [parse_next_data]
    gives one on the same JSON, with the same name, price, availability
    and model, and with the same brand, features, rating and review count
    wherever strategy 3 found a value that is not empty; there
    [parse_next_data] has a second place to look. *)
Theorem X24_heuristic_agrees_with_next_data (snippet : string) (data : pyval)
    (info3 : record) :
  json_loads snippet = Ok data →
  heuristic_info snippet = Ok (Some info3) →
  ∃ info1,
    next_data_info data = Ok info1
    ∧ (∀ k, k ∈ [ "name"; "price"; "availability"; "model" ] →
            Py.lookup k info1 = Py.lookup k info3)
    ∧ (∀ k v, k ∈ [ "brand"; "features"; "rating"; "review_count" ] →
              Py.lookup k info3 = Some v → Py.truthy v = true →
              Py.lookup k info1 = Some v).
Proof.
  intros Hjson Hrun. unfold heuristic_info in Hrun. rewrite Hjson in Hrun. simpl in Hrun.
  peel Hrun. injection Hrun as <-.
  assert (∀ k dflt, ∃ x, Py.get v0 k dflt = Ok x) as Hdict.
  { destruct v0; try discriminate Hv1. simpl. eauto. }
  assert (Py.get (Py.por v7 Py.EMPTY) "customerRating" (PInt 0) = Ok v8) as Hcr.
  { destruct v7 as [| | | | | |r]; try discriminate Hv8. by destruct r. }
  destruct (Hdict "brandName" PNone) as [b2 Hb2].
  destruct (Hdict "bulletDescriptions" (PList [])) as [f2 Hf2].
  destruct (Hdict "rating" PNone) as [r2 Hr2].
  destruct (Hdict "reviewCount" (PInt 0)) as [n2 Hn2].
  assert (next_data_info data
          = Ok [ ("name", v1); ("price", v2); ("availability", v3);
                 ("brand", Py.por v4 b2); ("model", v5); ("features", Py.por v6 f2);
                 ("rating", Py.por v8 r2); ("review_count", Py.por v9 n2) ]) as Hinfo.
  { unfold next_data_info. rewrite Hv. simpl. rewrite Hv0. simpl. rewrite Heqb. simpl.
    rewrite Hv7. simpl. rewrite Heqb. simpl. rewrite Hv1. simpl. rewrite Hv2. simpl.
    rewrite Hv3. simpl. rewrite Hv4. simpl. rewrite Hb2, Hv5, Hv6, Hf2, Hcr, Hr2, Hv9, Hn2.
    unfold Py.or_else, Py.por.
    destruct (Py.truthy v4); simpl; destruct (Py.truthy v6); simpl;
      destruct (Py.truthy v8); simpl; destruct (Py.truthy v9); reflexivity. }
  eexists. split; [exact Hinfo|]. split.
  - intros k Hk. repeat (apply elem_of_cons in Hk as [-> | Hk]; [reflexivity|]).
    by apply elem_of_nil in Hk.
  - intros k x Hk Hl Ht.
    repeat (apply elem_of_cons in Hk as [-> | Hk];
            [injection Hl as ->; simpl; unfold Py.por; by rewrite Ht|]).
    by apply elem_of_nil in Hk.
Qed.

End StrategiesAgree.

(** The framework JSON of [page_both], read by strategy 3. *)
Lemma X24_witness :
  ∃ info1,
    next_data_info Fixtures.next_data_value = Ok info1
    ∧ (∀ k, k ∈ [ "name"; "price"; "availability"; "model" ] →
            Py.lookup k info1 = Py.lookup k (take 8 Fixtures.shop_record))
    ∧ (∀ k v, k ∈ [ "brand"; "features"; "rating"; "review_count" ] →
              Py.lookup k (take 8 Fixtures.shop_record) = Some v → Py.truthy v = true →
              Py.lookup k info1 = Some v).
Proof.
  apply (@X24_heuristic_agrees_with_next_data Fixtures.product_json
           Fixtures.next_data_text).
  - vm_compute. reflexivity.
  - vm_compute. reflexivity.
Defined.
